(** * CreditRSIEnv: the episodic CDS trading environment

    A shallow embedding of [calculate_rsi] and of the class [CreditRSIEnv]
    ([__init__], [_get_obs], [step], [reset]) of the notebook
    [Untitled26.ipynb], with the properties of the environment stated and
    proved over it.

    Numbers.  The notebook computes on binary64 values (numpy / pandas).
    They are modelled by [xfloat]: an exact rational, or one of the three
    special values the code can meet (+inf, -inf, NaN), with the IEEE rules
    for the special values.  The rounding and the overflow of binary64
    and the sign of zero are not modelled: an operation of the model is the
    operation of the code without its rounding.  A property proved by
    following the code operation by operation holds of the code as it is;
    an identity obtained by rearranging sums holds in exact arithmetic
    only, and is stated as such, and a property that an overflow or an
    underflow of binary64 would break carries a bound on the magnitudes.
    The cast to float32 of the observation and of the bounds of the
    observation space is modelled, by rounding to the nearest float32.
    The module [Binary64] replays the arithmetic of [step] on binary64
    values, to show where the rounding is visible.

    Objects.  A method is a function from the object to a result (a value
    or an exception) and the object it leaves, so that what a call wrote
    before it raised is kept.  Python's [random] module, a process-wide
    generator, is a state passed to [reset] and returned by it.

    Left out: the frame columns other than 'price', 'rsi' and
    'spread_change', the messages printed, [render] and [close]. *)

From Stdlib Require Import QArith Qround ZArith List Bool Lia Lqa.
From Stdlib Require Import PrimFloat Uint63.
Import ListNotations.

Set Warnings "-inexact-float".

Set Implicit Arguments.

(* ===================================================================== *)
(** ** Extended rationals standing for float64 values *)
(* ===================================================================== *)

Module XFloat.

Inductive xfloat : Type :=
| Fin (q : Q)
| PInf
| NInf
| NaN.

Definition of_Z (z : Z) : xfloat := Fin (inject_Z z).

(** Sign of a value: [Lt] negative, [Eq] zero, [Gt] positive; NaN has none. *)
Definition sign (x : xfloat) : option comparison :=
  match x with
  | Fin q => Some (q ?= 0)
  | PInf => Some Gt
  | NInf => Some Lt
  | NaN => None
  end.

Definition sign_mul (a b : comparison) : comparison :=
  match a, b with
  | Eq, _ | _, Eq => Eq
  | Gt, Gt | Lt, Lt => Gt
  | Gt, Lt | Lt, Gt => Lt
  end.

(** The infinity of a given sign; a zero sign stands for inf * 0 = NaN. *)
Definition inf_of (s : comparison) : xfloat :=
  match s with
  | Gt => PInf
  | Lt => NInf
  | Eq => NaN
  end.

Definition xneg (x : xfloat) : xfloat :=
  match x with
  | Fin q => Fin (- q)
  | PInf => NInf
  | NInf => PInf
  | NaN => NaN
  end.

Definition xadd (x y : xfloat) : xfloat :=
  match x, y with
  | NaN, _ | _, NaN => NaN
  | Fin a, Fin b => Fin (a + b)
  | PInf, NInf | NInf, PInf => NaN
  | PInf, _ | _, PInf => PInf
  | NInf, _ | _, NInf => NInf
  end.

Definition xsub (x y : xfloat) : xfloat := xadd x (xneg y).

Definition xmul (x y : xfloat) : xfloat :=
  match x, y with
  | Fin a, Fin b => Fin (a * b)
  | _, _ =>
      match sign x, sign y with
      | Some s, Some t => inf_of (sign_mul s t)
      | _, _ => NaN
      end
  end.

(** numpy division: a finite value over zero is an infinity of its sign,
    0/0 and inf/inf are NaN, a finite value over an infinity is 0. *)
Definition xdiv (x y : xfloat) : xfloat :=
  match x, y with
  | NaN, _ | _, NaN => NaN
  | Fin a, Fin b => if Qeq_bool b 0 then inf_of (a ?= 0) else Fin (a / b)
  | Fin _, _ => Fin 0
  | _, Fin b => match b ?= 0 with Lt => xneg x | _ => x end
  | _, _ => NaN
  end.

(** Comparisons: every comparison with NaN is false. *)
Definition xlt (x y : xfloat) : bool :=
  match x, y with
  | NaN, _ | _, NaN => false
  | Fin a, Fin b => negb (Qle_bool b a)
  | NInf, NInf => false
  | NInf, _ => true
  | _, PInf => match x with PInf => false | _ => true end
  | _, _ => false
  end.

Definition xgt (x y : xfloat) : bool := xlt y x.

Definition xle (x y : xfloat) : bool :=
  match x, y with
  | NaN, _ | _, NaN => false
  | Fin a, Fin b => Qle_bool a b
  | NInf, _ => true
  | _, PInf => true
  | _, _ => false
  end.

Definition xge (x y : xfloat) : bool := xle y x.

Definition xeqb (x y : xfloat) : bool :=
  match x, y with
  | Fin a, Fin b => Qeq_bool a b
  | PInf, PInf | NInf, NInf => true
  | _, _ => false
  end.

Definition isnan (x : xfloat) : bool :=
  match x with NaN => true | _ => false end.

Definition isinf (x : xfloat) : bool :=
  match x with PInf | NInf => true | _ => false end.

(** A value that is an ordinary number. *)
Definition finite (x : xfloat) : Prop := exists q, x = Fin q.

(** A value that is NaN or an ordinary number: what [diff] gives on a
    finite column. *)
Definition nan_or_finite (x : xfloat) : Prop := x = NaN \/ finite x.

(** A value that is NaN or a non-negative number: what the gain and loss
    columns of [calculate_rsi] hold. *)
Definition nan_or_nonneg (x : xfloat) : Prop :=
  x = NaN \/ exists q, x = Fin q /\ 0 <= q.

(** A number of the closed interval [lo, hi]. *)
Definition within (lo hi : Q) (x : xfloat) : Prop :=
  exists q, x = Fin q /\ lo <= q <= hi.

(** Equality of values up to the representation of the rational. *)
Definition xequiv (x y : xfloat) : Prop :=
  match x, y with
  | Fin a, Fin b => a == b
  | PInf, PInf | NInf, NInf | NaN, NaN => True
  | _, _ => False
  end.

(** *** The cast to float32

    [values.astype(np.float32)] rounds to the nearest float32, ties to the
    even significand, and gives an infinity from 2^128 - 2^103 on. *)

(** The nearest integer, ties to the even one. *)
Definition round_half_even (x : Q) : Z :=
  let fl := Qfloor x in
  match (x - inject_Z fl ?= 1 # 2)%Q with
  | Lt => fl
  | Gt => (fl + 1)%Z
  | Eq => if Z.even fl then fl else (fl + 1)%Z
  end.

(** The float32 nearest to [x >= 0], counted in units of 2^-149, the least
    positive float32: below 2^24 units the float32 values are the
    integers (the subnormal numbers and the first binade); above, with
    [k] the number of bits beyond 24 ([float32_shift]), they are the
    multiples of 2^k. *)
Definition float32_shift (u : Q) : Z :=
  Z.max 0 (Z.log2 (Qfloor u) - 23).

Definition float32_units (x : Q) : Z :=
  let u := (x * inject_Z (2 ^ 149))%Q in
  let k := float32_shift u in
  (round_half_even (u / inject_Z (2 ^ k))%Q * 2 ^ k)%Z.

(** The same for a number of either sign: the rounding is symmetric. *)
Definition float32_signed (q : Q) : Z :=
  if Qle_bool 0 q then float32_units q
  else (- float32_units (- q)%Q)%Z.

Definition float32 (v : xfloat) : xfloat :=
  match v with
  | Fin q =>
      let n := float32_signed q in
      if (2 ^ 277 <=? n)%Z then PInf
      else if (n <=? - 2 ^ 277)%Z then NInf
      else Fin (Qred (inject_Z n / inject_Z (2 ^ 149))%Q)
  | _ => v
  end.

(** The largest float32, [np.finfo(np.float32).max]. *)
Definition float32_max : Q := inject_Z (2 ^ 128 - 2 ^ 104).

End XFloat.
Export XFloat.

(* ===================================================================== *)
(** ** Exceptions and results *)
(* ===================================================================== *)

(** [GymnasiumError] is [gymnasium.error.Error]. *)
Inductive exn : Type :=
| ValueError
| IndexError
| GymnasiumError.

Inductive result (A : Type) : Type :=
| Ok (a : A)
| Raise (e : exn).
Arguments Ok {A} a.
Arguments Raise {A} e.

Definition rbind {A B} (r : result A) (f : A -> result B) : result B :=
  match r with
  | Ok a => f a
  | Raise e => Raise e
  end.

(* ===================================================================== *)
(** ** The pandas operations the notebook uses *)
(* ===================================================================== *)

Module Pandas.

(** [Series.diff()]: NaN first, then each value minus the one before. *)
Fixpoint diff_from (prev : xfloat) (l : list xfloat) : list xfloat :=
  match l with
  | [] => []
  | x :: r => xsub x prev :: diff_from x r
  end.

Definition diff (l : list xfloat) : list xfloat :=
  match l with
  | [] => []
  | x :: r => NaN :: diff_from x r
  end.

(** [s.mask(cond, other)]: [other] where the condition holds. *)
Definition mask (cond : xfloat -> bool) (other : xfloat) (l : list xfloat)
  : list xfloat :=
  map (fun x => if cond x then other else x) l.

(** [s.fillna(v)]. *)
Definition fillna (v : xfloat) (l : list xfloat) : list xfloat :=
  map (fun x => if isnan x then v else x) l.

(** [s.replace([np.inf, -np.inf], np.nan)]. *)
Definition replace_inf_nan (l : list xfloat) : list xfloat :=
  map (fun x => if isinf x then NaN else x) l.

(** Element-wise binary operation on two aligned columns. *)
Fixpoint zip_with (f : xfloat -> xfloat -> xfloat) (a b : list xfloat)
  : list xfloat :=
  match a, b with
  | x :: a', y :: b' => f x y :: zip_with f a' b'
  | _, _ => []
  end.

(** The recurrence of [Series.ewm(com, min_periods).mean()] with the
    defaults [adjust=True], [ignore_na=False]: [weighted] is the running
    mean (NaN before the first observation), [old_wt] the weight it
    carries, [nobs] the number of observations seen. *)
Fixpoint ewm_loop (old_wt_factor : Q) (minp : Z) (vals : list xfloat)
    (weighted : xfloat) (old_wt : Q) (nobs : Z) : list xfloat :=
  match vals with
  | [] => []
  | cur :: rest =>
      let is_observation := negb (isnan cur) in
      let nobs := (nobs + (if is_observation then 1 else 0))%Z in
      let '(weighted, old_wt) :=
        if negb (isnan weighted) then
          let old_wt := old_wt * old_wt_factor in
          if is_observation then
            (if negb (xeqb weighted cur)
             then xdiv (xadd (xmul (Fin old_wt) weighted) (xmul (Fin 1) cur))
                       (Fin (old_wt + 1))
             else weighted,
             old_wt + 1)
          else (weighted, old_wt)
        else if is_observation then (cur, old_wt)
        else (weighted, old_wt) in
      (if (minp <=? nobs)%Z then weighted else NaN)
        :: ewm_loop old_wt_factor minp rest weighted old_wt nobs
  end.

(** [s.ewm(com=com, min_periods=min_periods).mean()].  pandas rejects a
    negative centre of mass with ValueError, uses at least one period,
    and turns the infinite values into NaN before it averages (the
    [_prep_values] of its window operations). *)
Definition ewm_mean (com min_periods : Z) (vals : list xfloat)
  : result (list xfloat) :=
  if (com <? 0)%Z then Raise ValueError
  else
    let alpha := 1 / (1 + inject_Z com) in
    let vals := replace_inf_nan vals in
    Ok (ewm_loop (1 - alpha) (Z.max min_periods 1) vals NaN 1 0).

(** [df.iloc[i]]: a position from the front, or from the back when
    negative; IndexError outside. *)
Definition iloc {A} (l : list A) (i : Z) : result A :=
  let n := Z.of_nat (length l) in
  let j := if (i <? 0)%Z then (n + i)%Z else i in
  if ((0 <=? j) && (j <? n))%Z%bool then
    match nth_error l (Z.to_nat j) with
    | Some a => Ok a
    | None => Raise IndexError
    end
  else Raise IndexError.

End Pandas.
Export Pandas.

(* ===================================================================== *)
(** ** calculate_rsi *)
(* ===================================================================== *)

(** [data] is the 'price' column of the frame. *)
Definition calculate_rsi (data : list xfloat) (window : Z)
  : result (list xfloat) :=
  let diff := diff data in
  let gain := mask (fun d => xlt d (Fin 0)) (Fin 0) diff in
  let loss := map xneg (mask (fun d => xgt d (Fin 0)) (Fin 0) diff) in
  rbind (ewm_mean (window - 1) window gain) (fun avg_gain =>
  rbind (ewm_mean (window - 1) window loss) (fun avg_loss =>
  let rs := zip_with xdiv avg_gain avg_loss in
  let rsi :=
    map (fun r => xsub (Fin 100) (xdiv (Fin 100) (xadd (Fin 1) r))) rs in
  Ok (fillna (Fin 50) (replace_inf_nan rsi)))).

(* ===================================================================== *)
(** ** The environment object *)
(* ===================================================================== *)

(** A row of [self.df] once [__init__] has added its two columns. *)
Record Row : Type := mkRow {
  price : xfloat;
  rsi : xfloat;
  spread_change : xfloat
}.

(** An entry of [self.episode_history]. *)
Record HistoryEntry : Type := mkHistoryEntry {
  h_step : Z;
  h_price : xfloat;
  h_rsi : xfloat;
  h_action : Z;
  h_balance : xfloat;
  h_shares_held : Z;
  h_reward : xfloat
}.

(** The attributes of a [CreditRSIEnv] instance that the four methods
    read or write.  [np_random] is the generator that gymnasium's
    [Env.reset(seed=...)] installs: it is recorded by the seed it was
    created from, [None] before any seeded reset. *)
Record CreditRSIEnv : Type := mkEnv {
  df : list Row;
  window : Z;
  initial_balance : Q;
  transaction_cost_rate : Q;
  dv01_per_unit : Q;
  current_step : Z;
  max_steps : Z;
  balance : xfloat;
  shares_held : Z;
  episode_history : list HistoryEntry;
  np_random : option Z
}.

Definition set_current_step (v : Z) (s : CreditRSIEnv) : CreditRSIEnv :=
  mkEnv (df s) (window s) (initial_balance s) (transaction_cost_rate s)
    (dv01_per_unit s) v (max_steps s) (balance s) (shares_held s)
    (episode_history s) (np_random s).

Definition set_balance (v : xfloat) (s : CreditRSIEnv) : CreditRSIEnv :=
  mkEnv (df s) (window s) (initial_balance s) (transaction_cost_rate s)
    (dv01_per_unit s) (current_step s) (max_steps s) v (shares_held s)
    (episode_history s) (np_random s).

Definition set_shares_held (v : Z) (s : CreditRSIEnv) : CreditRSIEnv :=
  mkEnv (df s) (window s) (initial_balance s) (transaction_cost_rate s)
    (dv01_per_unit s) (current_step s) (max_steps s) (balance s) v
    (episode_history s) (np_random s).

Definition set_episode_history (v : list HistoryEntry) (s : CreditRSIEnv)
  : CreditRSIEnv :=
  mkEnv (df s) (window s) (initial_balance s) (transaction_cost_rate s)
    (dv01_per_unit s) (current_step s) (max_steps s) (balance s)
    (shares_held s) v (np_random s).

Definition set_np_random (v : option Z) (s : CreditRSIEnv) : CreditRSIEnv :=
  mkEnv (df s) (window s) (initial_balance s) (transaction_cost_rate s)
    (dv01_per_unit s) (current_step s) (max_steps s) (balance s)
    (shares_held s) (episode_history s) v.

(** The observation vector
    [[current_spread, rsi, shares_held, balance, spread_change]]. *)
Record Obs : Type := mkObs {
  obs_price : xfloat;
  obs_rsi : xfloat;
  obs_shares_held : xfloat;
  obs_balance : xfloat;
  obs_spread_change : xfloat
}.

(** The three [info] dictionaries the methods build. *)
Inductive Info : Type :=
| InfoFinal (final_balance : xfloat)
| InfoStep (bal : xfloat) (shares : Z) (current_spread : xfloat)
| InfoReset (initial : Q).

(** What [step] returns:
    [(observation, reward, done, truncated, info)]. *)
Record StepReturn : Type := mkStepReturn {
  observation : Obs;
  reward : xfloat;
  done : bool;
  truncated : bool;
  info : Info
}.

(* ===================================================================== *)
(** ** Methods as state transformers that may raise *)
(* ===================================================================== *)

(** A method body: it runs on the object, and leaves the object as it is
    at the moment it returns or raises. *)
Definition M (A : Type) : Type := CreditRSIEnv -> result A * CreditRSIEnv.

Definition ret {A} (a : A) : M A := fun s => (Ok a, s).

Definition bind {A B} (m : M A) (f : A -> M B) : M B :=
  fun s =>
    match m s with
    | (Ok a, s') => f a s'
    | (Raise e, s') => (Raise e, s')
    end.

Definition self : M CreditRSIEnv := fun s => (Ok s, s).

Definition assign (f : CreditRSIEnv -> CreditRSIEnv) : M unit :=
  fun s => (Ok tt, f s).

Definition lift {A} (r : result A) : M A := fun s => (r, s).

Declare Scope method_scope.
Delimit Scope method_scope with method.
Notation "x <- c ;; k" := (bind c (fun x => k))
  (at level 61, c at next level, right associativity) : method_scope.
Notation "c ;; k" := (bind c (fun _ => k))
  (at level 61, right associativity) : method_scope.
Local Open Scope method_scope.

(** ** __init__ *)

Fixpoint make_frame (p r c : list xfloat) : list Row :=
  match p, r, c with
  | x :: p', y :: r', z :: c' => mkRow x y z :: make_frame p' r' c'
  | _, _, _ => []
  end.

(** [df.dropna()]: the rows holding no NaN. *)
Definition dropna (rows : list Row) : list Row :=
  filter (fun r =>
    negb (isnan (price r) || isnan (rsi r) || isnan (spread_change r)))
    rows.

(** The frame after the preprocessing of [__init__]: the two added columns,
    [dropna] and [reset_index]. *)
Definition preprocess (prices : list xfloat) (window : Z)
  : result (list Row) :=
  rbind (calculate_rsi prices window) (fun rsi_col =>
  let spread_change_col := fillna (Fin 0) (diff prices) in
  Ok (dropna (make_frame prices rsi_col spread_change_col))).

Definition len {A} (l : list A) : Z := Z.of_nat (length l).

(** [Series.min()] and [Series.max()] of a column. *)
Definition column_min (l : list xfloat) : xfloat :=
  match l with
  | [] => NaN
  | x :: r => fold_left (fun m y => if xlt y m then y else m) r x
  end.

Definition column_max (l : list xfloat) : xfloat :=
  match l with
  | [] => NaN
  | x :: r => fold_left (fun m y => if xgt y m then y else m) r x
  end.

(** The local [_max_shares] of [__init__]: "agent can hold up to 10 units
    long or short". *)
Definition _max_shares : Z := 10.

(** The arrays [low_bounds] and [high_bounds] of [__init__], in the order
    of the observation vector. *)
Definition low_bounds (s : CreditRSIEnv) : Obs :=
  let _min_balance := xmul (xneg (Fin (initial_balance s))) (Fin (1 # 2)) in
  mkObs (xmul (column_min (map price (df s))) (Fin (9 # 10)))
        (Fin 0)
        (xneg (of_Z _max_shares))
        _min_balance
        (column_min (map spread_change (df s))).

Definition high_bounds (s : CreditRSIEnv) : Obs :=
  let _max_balance := xmul (Fin (initial_balance s)) (Fin 5) in
  mkObs (xmul (column_max (map price (df s))) (Fin (11 # 10)))
        (Fin 100)
        (of_Z _max_shares)
        _max_balance
        (column_max (map spread_change (df s))).

Definition obs_values (o : Obs) : list xfloat :=
  [obs_price o; obs_rsi o; obs_shares_held o; obs_balance o;
   obs_spread_change o].

Definition obs_map (f : xfloat -> xfloat) (o : Obs) : Obs :=
  mkObs (f (obs_price o)) (f (obs_rsi o)) (f (obs_shares_held o))
        (f (obs_balance o)) (f (obs_spread_change o)).

(** [spaces.Box(low=low, high=high, dtype=np.float32)] of gymnasium on two
    float64 arrays of the shape of the observation: the pair of its
    attributes [(low, high)].  The constructor raises ValueError when a
    bound is NaN, when a low bound is below the least float32 (no low
    bound being -inf) or a high bound above the largest (no high bound
    being +inf), and, the bounds once cast, when a low bound is above its
    high bound. *)
Definition Box (low high : Obs) : result (Obs * Obs) :=
  if existsb isnan (obs_values low) then Raise ValueError
  else if (negb (existsb (xeqb NInf) (obs_values low))
           && existsb (fun x => xlt x (Fin (- float32_max)))
                (obs_values low))%bool
  then Raise ValueError
  else if existsb isnan (obs_values high) then Raise ValueError
  else if (negb (existsb (xeqb PInf) (obs_values high))
           && existsb (fun x => xlt (Fin float32_max) x)
                (obs_values high))%bool
  then Raise ValueError
  else
    let low := obs_map float32 low in
    let high := obs_map float32 high in
    if (xgt (obs_price low) (obs_price high)
        || xgt (obs_rsi low) (obs_rsi high)
        || xgt (obs_shares_held low) (obs_shares_held high)
        || xgt (obs_balance low) (obs_balance high)
        || xgt (obs_spread_change low) (obs_spread_change high))%bool
    then Raise ValueError
    else Ok (low, high).

(** A low and a high bound that [Box] accepts: two numbers in order,
    within the range of float32. *)
Definition bound_pair (low high : xfloat) : Prop :=
  exists a b,
    low = Fin a /\ high = Fin b /\
    - float32_max <= a /\ a <= b /\ b <= float32_max.

(** [CreditRSIEnv(df, window, initial_balance, transaction_cost_rate,
    fixed_cs01_per_unit=...)]; [prices] is the 'price' column of [df].
    The object is returned when the construction of
    [self.observation_space] has not raised. *)
Definition init (prices : list xfloat) (window : Z)
    (initial_balance transaction_cost_rate fixed_cs01_per_unit : Q)
  : result CreditRSIEnv :=
  rbind (preprocess prices window) (fun frame =>
  match frame with
  | [] => Raise ValueError
  | _ =>
      if (len frame <? window + 2)%Z then Raise ValueError
      else
        let env :=
          {| df := frame;
             window := window;
             initial_balance := initial_balance;
             transaction_cost_rate := transaction_cost_rate;
             dv01_per_unit := fixed_cs01_per_unit;
             current_step := 0;
             max_steps := len frame - 1;
             balance := Fin initial_balance;
             shares_held := 0;
             episode_history := [];
             np_random := None |} in
        rbind (Box (low_bounds env) (high_bounds env)) (fun _ => Ok env)
  end).

(** The bounds [(low, high)] of [self.observation_space], as the [Box]
    holds them: cast to float32.  [__init__] computes them once, from
    attributes that no method writes afterwards, and no method reads
    them: they are given as a function of the object. *)
Definition observation_space (s : CreditRSIEnv) : Obs * Obs :=
  (obs_map float32 (low_bounds s), obs_map float32 (high_bounds s)).

(** ** _get_obs *)

(** The observation is built with [dtype=np.float32]: each of its five
    values is cast. *)
Definition _get_obs : M Obs :=
  s <- self ;;
  current_data <- lift (iloc (df s) (current_step s)) ;;
  let current_spread := price current_data in
  let rsi := rsi current_data in
  let spread_change := spread_change current_data in
  let obs := mkObs current_spread rsi (of_Z (shares_held s)) (balance s)
               spread_change in
  ret (obs_map float32 obs).

(** ** step *)

(** The mark-to-market P&L of a move from [previous_spread] to
    [current_spread] on the position held. *)
Definition pnl_from_open_positions (s : CreditRSIEnv)
    (previous_spread current_spread : xfloat) : xfloat :=
  let spread_change_bps := xsub current_spread previous_spread in
  xmul (xmul (of_Z (shares_held s)) spread_change_bps)
       (Fin (dv01_per_unit s)).

Definition transaction_cost_per_unit (s : CreditRSIEnv) : xfloat :=
  xmul (Fin (dv01_per_unit s)) (Fin (transaction_cost_rate s)).

(** The two assignments of an executed trade. *)
Definition trade (delta : Z) : M unit :=
  assign (fun s =>
    set_balance (xsub (balance s) (transaction_cost_per_unit s)) s) ;;
  assign (fun s => set_shares_held (shares_held s + delta) s).

(** The transaction logic: [action == 1] buys, [action == 2] sells, any
    other value falls through both tests. *)
Definition transaction_logic (action : Z) : M unit :=
  s <- self ;;
  if (action =? 1)%Z then
    if xge (balance s) (transaction_cost_per_unit s) then trade 1
    else ret tt
  else if (action =? 2)%Z then
    if (shares_held s >? 0)%Z then trade (-1)
    else if ((shares_held s <=? 0)%Z
             && xge (balance s) (transaction_cost_per_unit s))%bool
    then trade (-1)
    else ret tt
  else ret tt.

(** The penalties: [(done, reward)] from the balance after the trade. *)
Definition penalties (s : CreditRSIEnv) (pnl : xfloat) : bool * xfloat :=
  if xlt (balance s) (Fin 0) then
    (true, xsub pnl (xmul (Fin (initial_balance s)) (Fin (1 # 2))))
  else if xlt (balance s) (xmul (Fin (initial_balance s)) (Fin (1 # 2))) then
    (true, xsub pnl (xmul (Fin (initial_balance s)) (Fin (1 # 10))))
  else (false, pnl).

Definition step (action : Z) : M StepReturn :=
  s <- self ;;
  previous_row <- lift (iloc (df s) (current_step s)) ;;
  let previous_spread := price previous_row in
  assign (fun s => set_current_step (current_step s + 1) s) ;;
  s <- self ;;
  if (current_step s >? max_steps s)%Z then
    observation <- _get_obs ;;
    ret (mkStepReturn observation (Fin 0) true false
           (InfoFinal (balance s)))
  else
    current_row <- lift (iloc (df s) (current_step s)) ;;
    let current_spread := price current_row in
    let pnl := pnl_from_open_positions s previous_spread current_spread in
    assign (fun s => set_balance (xadd (balance s) pnl) s) ;;
    transaction_logic action ;;
    s <- self ;;
    let '(done, reward) := penalties s pnl in
    history_row <- lift (iloc (df s) (current_step s)) ;;
    assign (fun s =>
      set_episode_history
        (episode_history s ++
           [mkHistoryEntry (current_step s) current_spread (rsi history_row)
              action (balance s) (shares_held s) reward]) s) ;;
    observation <- _get_obs ;;
    s <- self ;;
    ret (mkStepReturn observation reward done false
           (InfoStep (balance s) (shares_held s) current_spread)).

(** ** reset *)

(** [gymnasium.Env.reset(seed=seed)]: with a seed, the generator
    [np_random] is replaced by one created from the seed, which must be an
    integer that is not negative. *)
Definition super_reset (seed : option Z) : M unit :=
  match seed with
  | None => ret tt
  | Some n =>
      if (n <? 0)%Z then lift (Raise GymnasiumError)
      else assign (set_np_random seed)
  end.

(** The seeds that gymnasium accepts: none, or an integer that is not
    negative. *)
Definition valid_seed (seed : option Z) : Prop :=
  match seed with
  | None => True
  | Some n => (0 <= n)%Z
  end.

Section ResetMethod.

(** The generator of Python's [random] module is a process-wide state;
    [randint a b g] is [random.randint(a, b)] run on the state [g]: the
    value drawn and the state left. *)
Variable Rng : Type.
Variable randint : Z -> Z -> Rng -> Z * Rng.

(** [reset(seed)], run on the object and on the state of the [random]
    module.  [super().reset(seed=seed)] comes first: it installs a
    generator of gymnasium in [np_random] when a seed is given, and raises
    [gymnasium.error.Error] on a negative seed; the start index is drawn
    with [random.randint]. *)
Definition reset (seed : option Z) (g : Rng) (env : CreditRSIEnv)
  : (result (Obs * Info) * CreditRSIEnv) * Rng :=
  match super_reset seed env with
  | (Raise e, env) => ((Raise e, env), g)
  | (Ok _, env) =>
  let env := set_balance (Fin (initial_balance env)) env in
  let env := set_shares_held 0 env in
  let env := set_episode_history [] env in
  let min_start_index := (window env + 1)%Z in
  let max_start_index := (max_steps env - 100)%Z in
  let '(start, g) :=
    if (max_start_index <? min_start_index)%Z then (min_start_index, g)
    else randint min_start_index max_start_index g in
  let env := set_current_step start env in
  ((observation <- _get_obs ;;
    ret (observation, InfoReset (initial_balance env))) env, g)
  end.

End ResetMethod.

(** ** Running an episode *)

(** The caller's loop: one [step] per action, stopped by the first
    exception. *)
Fixpoint run (actions : list Z) : M (list StepReturn) :=
  match actions with
  | [] => ret []
  | a :: rest =>
      r <- step a ;;
      rs <- run rest ;;
      ret (r :: rs)
  end.

(** The objects met along a run: the one before each step, and the last. *)
Fixpoint trace (actions : list Z) (s : CreditRSIEnv) : list CreditRSIEnv :=
  match actions with
  | [] => [s]
  | a :: rest => s :: trace rest (snd (step a s))
  end.

(** The action values of [spaces.Discrete(3)]. *)
Definition valid_action (a : Z) : Prop := (a = 0 \/ a = 1 \/ a = 2)%Z.

(** The state of the object after the mark-to-market of a move from the
    row [prev] to the row [cur], before the transaction logic. *)
Definition mark_to_market (s : CreditRSIEnv) (prev cur : Row)
  : CreditRSIEnv :=
  let s1 := set_current_step (current_step s + 1) s in
  set_balance
    (xadd (balance s1)
       (pnl_from_open_positions s1 (price prev) (price cur))) s1.

(** Well-formed object: [max_steps] is the last position of the frame and
    [current_step] is not negative, as [__init__] and [reset] leave them. *)
Definition wf_env (s : CreditRSIEnv) : Prop :=
  max_steps s = (len (df s) - 1)%Z /\ (0 <= current_step s)%Z.

(** The attributes that [__init__] sets and no other method writes. *)
Definition same_config (s s' : CreditRSIEnv) : Prop :=
  df s' = df s /\ max_steps s' = max_steps s /\ window s' = window s /\
  initial_balance s' = initial_balance s /\
  dv01_per_unit s' = dv01_per_unit s /\
  transaction_cost_rate s' = transaction_cost_rate s.

Definition finite_row (r : Row) : Prop :=
  finite (price r) /\ finite (rsi r) /\ finite (spread_change r).

(** The spread of the row the object stands on. *)
Definition price_at (s : CreditRSIEnv) : xfloat :=
  match iloc (df s) (current_step s) with
  | Ok r => price r
  | Raise _ => NaN
  end.

(** The indicator of the row the object stands on. *)
Definition rsi_at (s : CreditRSIEnv) : xfloat :=
  match iloc (df s) (current_step s) with
  | Ok r => rsi r
  | Raise _ => NaN
  end.

(** The mark-to-market P&L of the move from the object [s] to its
    successor [s']: position held times spread move times CS01. *)
Definition mtm_pnl (s s' : CreditRSIEnv) : xfloat :=
  xmul (xmul (of_Z (shares_held s)) (xsub (price_at s') (price_at s)))
       (Fin (dv01_per_unit s)).

(** The sum of the mark-to-market P&L along a trace. *)
Fixpoint sum_pnl (t : list CreditRSIEnv) : xfloat :=
  match t with
  | s :: (s' :: _) as rest => xadd (mtm_pnl s s') (sum_pnl rest)
  | _ => Fin 0
  end.

(** The number of units acquired or closed along a trace. *)
Fixpoint executed_trades (t : list CreditRSIEnv) : Z :=
  match t with
  | s :: (s' :: _) as rest =>
      (Z.abs (shares_held s' - shares_held s) + executed_trades rest)%Z
  | _ => 0%Z
  end.

(** The objects that calls of [step] and [reset] can produce from [s0]. *)
Inductive reachable (s0 : CreditRSIEnv) : CreditRSIEnv -> Prop :=
| reach_here : reachable s0 s0
| reach_step (s : CreditRSIEnv) (a : Z) :
    reachable s0 s -> reachable s0 (snd (step a s))
| reach_reset (s : CreditRSIEnv) (Rng : Type)
    (randint : Z -> Z -> Rng -> Z * Rng) (seed : option Z) (g : Rng) :
    reachable s0 s -> reachable s0 (snd (fst (reset randint seed g s))).

(** ** The evaluation loop of the main block *)

Section Evaluation.

(** [predict obs] is the action of
    [model.predict(obs, deterministic=True)]. *)
Variable predict : Obs -> Z.

(** The loop [while not done: ...] that follows [eval_env.reset()], run
    for at most [fuel] iterations on the observation, the reward total
    and the step count it has reached: [Some (total_reward, num_steps)]
    when the loop ends, [None] when the iterations are used up.  The call
    of [render] draws the history and is left out. *)
Fixpoint evaluation_loop (fuel : nat) (obs : Obs) (total_reward : xfloat)
    (num_steps : Z) : M (option (xfloat * Z)) :=
  match fuel with
  | O => ret None
  | S fuel' =>
      let action := predict obs in
      r <- step action ;;
      let total_reward := xadd total_reward (reward r) in
      let num_steps := (num_steps + 1)%Z in
      s <- self ;;
      let done := if (num_steps >? max_steps s)%Z then true else done r in
      if done then ret (Some (total_reward, num_steps))
      else evaluation_loop fuel' (observation r) total_reward num_steps
  end.

End Evaluation.

(** The rewards of a run added up as the caller does, from 0. *)
Definition total_reward (rets : list StepReturn) : xfloat :=
  fold_left (fun acc r => xadd acc (reward r)) rets (Fin 0).

(** The penalty that [step] takes off the reward when it leaves the
    object [s']: half of [initial_balance] below zero, a tenth of it below
    half of [initial_balance], nothing otherwise. *)
Definition penalty_charged (s' : CreditRSIEnv) : Q :=
  if xlt (balance s') (Fin 0) then initial_balance s' * (1 # 2)
  else if xlt (balance s') (Fin (initial_balance s' * (1 # 2)))
       then initial_balance s' * (1 # 10)
       else 0.

(** The penalties charged along the objects that the steps of a run
    leave. *)
Definition penalties_charged (t : list CreditRSIEnv) : Q :=
  fold_right (fun s' acc => penalty_charged s' + acc) 0 t.

(** One value of the column that [calculate_rsi] returns, from the two
    averages of its row: the quotient, the index, the replacement of the
    infinities and the fill of NaN. *)
Definition rsi_point (avg_gain avg_loss : xfloat) : xfloat :=
  let rs := xdiv avg_gain avg_loss in
  let rsi := xsub (Fin 100) (xdiv (Fin 100) (xadd (Fin 1) rs)) in
  let rsi := if isinf rsi then NaN else rsi in
  if isnan rsi then Fin 50 else rsi.

(** A column of numbers that rises at every row after the value [p]. *)
Fixpoint rising_from (p : Q) (l : list Q) : Prop :=
  match l with
  | [] => True
  | x :: r => p < x /\ rising_from x r
  end.

(** A column of numbers that falls at every row after the value [p]. *)
Fixpoint falling_from (p : Q) (l : list Q) : Prop :=
  match l with
  | [] => True
  | x :: r => x < p /\ falling_from x r
  end.

(** ** simulate_hedging (the LSTM hedging script) *)

(** [Series.abs()] and [np.minimum] on one value. *)
Definition xabs (x : xfloat) : xfloat :=
  match x with
  | Fin q => Fin (if Qle_bool 0 q then q else - q)
  | PInf | NInf => PInf
  | NaN => NaN
  end.

Definition xminimum (x y : xfloat) : xfloat :=
  if isnan x || isnan y then NaN
  else if xlt y x then y else x.

(** The columns of a row that [simulate_hedging] reads. *)
Record HedgeRow : Type := mkHedgeRow {
  pnl_agg : xfloat;
  cds_level : xfloat;
  cds_pred : xfloat;
  cds_change : xfloat;
  cds_z : xfloat;
  rolling_corr : xfloat;
  cs01 : xfloat
}.

(** A row with the five columns that [simulate_hedging] adds. *)
Record HedgedRow : Type := mkHedgedRow {
  hedge_source : HedgeRow;
  hedge_signal : Z;
  hedge_cs01 : xfloat;
  hedge_size : xfloat;
  hedge_pnl : xfloat;
  total_pnl : xfloat
}.

Definition simulate_hedging_row (buy_corr zscore_thresh cs01_multiplier : Q)
    (row : HedgeRow) : HedgedRow :=
  let hedge_signal :=
    if (xgt (rolling_corr row) (Fin buy_corr)
        && xgt (xabs (cds_z row)) (Fin zscore_thresh)
        && xgt (cds_pred row) (cds_level row))%bool
    then 1%Z else 0%Z in
  let hedge_cs01 :=
    xminimum (xmul (cs01 row) (Fin cs01_multiplier)) (Fin (1 # 10)) in
  let hedge_size := xmul (of_Z hedge_signal) hedge_cs01 in
  let hedge_pnl := xmul hedge_size (xabs (cds_change row)) in
  let total_pnl := xadd (pnl_agg row) hedge_pnl in
  mkHedgedRow row hedge_signal hedge_cs01 hedge_size hedge_pnl total_pnl.

(** [simulate_hedging(df, buy_corr, zscore_thresh, cs01_multiplier)]:
    every added column is computed row by row. *)
Definition simulate_hedging (rows : list HedgeRow)
    (buy_corr zscore_thresh cs01_multiplier : Q) : list HedgedRow :=
  map (simulate_hedging_row buy_corr zscore_thresh cs01_multiplier) rows.

(** ** filter_signals and the positions (the signal backtest script) *)

(** The loop of [filter_signals], from the value [prev] it has reached. *)
Fixpoint filter_signals_from (prev : Z) (signal_series : list Z) : list Z :=
  match signal_series with
  | [] => []
  | val :: rest =>
      if ((val =? 1) && negb (prev =? 1))%Z%bool then
        1%Z :: filter_signals_from 1 rest
      else if ((val =? -1) && negb (prev =? -1))%Z%bool then
        (-1)%Z :: filter_signals_from (-1) rest
      else 0%Z :: filter_signals_from prev rest
  end.

Definition filter_signals (signal_series : list Z) : list Z :=
  filter_signals_from 0 signal_series.

(** The loop that turns a signal column into the position column of
    [cds_positions] (1 = long, 0 = out), from the position [current] it
    has reached. *)
Fixpoint position_from (current : Z) (signal : list Z) : list Z :=
  match signal with
  | [] => []
  | s :: rest =>
      let current :=
        if (s =? 1)%Z then 1%Z
        else if (s =? -1)%Z then 0%Z
        else current in
      current :: position_from current rest
  end.

Definition position (signal : list Z) : list Z := position_from 0 signal.

(** The entries of a signal column that are not 0. *)
Definition trades_of (signal : list Z) : list Z :=
  filter (fun x => negb (x =? 0)%Z) signal.

(** No two neighbours of a list are equal. *)
Fixpoint alternating (l : list Z) : Prop :=
  match l with
  | a :: (b :: _) as rest => a <> b /\ alternating rest
  | _ => True
  end.

(** ** Magnitudes

    The bounds under which a property that the overflow or the underflow
    of binary64 would break is stated: numbers of magnitude at most
    10^30, moves of at least 10^-30.  Within them the differences, the
    products and the weighted means of the notebook stay finite and, when
    positive, stay positive, and the bounds of the observation space fit
    float32.  A window is a machine integer: pandas passes [min_periods]
    to its compiled loops as an int64. *)
Definition largest_window : Z := 2 ^ 63 - 1.

Definition largest_magnitude : Q := inject_Z (10 ^ 30).

Definition least_move : Q := 1 # (10 ^ 30).

Definition moderate (q : Q) : Prop :=
  - largest_magnitude <= q <= largest_magnitude.

(** A spread: a number that is not negative, of moderate magnitude. *)
Definition spread_value (v : xfloat) : Prop :=
  exists q, v = Fin q /\ 0 <= q <= largest_magnitude.

(** A column of numbers that rises at every row after the value [p], by
    [eps] at least. *)
Fixpoint rises_at_least (eps p : Q) (l : list Q) : Prop :=
  match l with
  | [] => True
  | x :: r => p + eps <= x /\ rises_at_least eps x r
  end.

(** A column of numbers that falls at every row after the value [p], by
    [eps] at least. *)
Fixpoint falls_at_least (eps p : Q) (l : list Q) : Prop :=
  match l with
  | [] => True
  | x :: r => x + eps <= p /\ falls_at_least eps x r
  end.

(** ** The account of [step] in binary64

    The arithmetic that [step] does on [balance], replayed on the
    binary64 values of the kernel, where every operation rounds as numpy
    does.  The prices are the 'price' column as binary64 values; the
    account is the balance, the position and the index. *)
Module Binary64.

Record Account : Type := mkAccount {
  b_balance : float;
  b_shares_held : Z;
  b_current_step : nat
}.

(** The binary64 value of a Python integer below 2^53 in magnitude. *)
Definition of_int (z : Z) : float :=
  match z with
  | Z0 => 0%float
  | Zpos _ => of_uint63 (Uint63.of_Z z)
  | Zneg _ => (- of_uint63 (Uint63.of_Z (- z)))%float
  end.

(** One call of [step] before the last row: the account it leaves and
    the mark-to-market P&L of the step; [None] where the call would not
    return. *)
Definition b64_step (prices : list float)
    (dv01_per_unit transaction_cost_rate : float) (action : Z)
    (a : Account) : option (Account * float) :=
  match nth_error prices (b_current_step a),
        nth_error prices (S (b_current_step a)) with
  | Some previous_spread, Some current_spread =>
      let spread_change_bps := (current_spread - previous_spread)%float in
      let pnl_from_open_positions :=
        (of_int (b_shares_held a) * spread_change_bps
         * dv01_per_unit)%float in
      let balance := (b_balance a + pnl_from_open_positions)%float in
      let transaction_cost_per_unit :=
        (dv01_per_unit * transaction_cost_rate)%float in
      let shares_held := b_shares_held a in
      let '(balance, shares_held) :=
        if (action =? 1)%Z then
          if PrimFloat.leb transaction_cost_per_unit balance
          then ((balance - transaction_cost_per_unit)%float,
                (shares_held + 1)%Z)
          else (balance, shares_held)
        else if (action =? 2)%Z then
          if (shares_held >? 0)%Z
          then ((balance - transaction_cost_per_unit)%float,
                (shares_held - 1)%Z)
          else if ((shares_held <=? 0)%Z
                   && PrimFloat.leb transaction_cost_per_unit balance)%bool
          then ((balance - transaction_cost_per_unit)%float,
                (shares_held - 1)%Z)
          else (balance, shares_held)
        else (balance, shares_held) in
      Some (mkAccount balance shares_held (S (b_current_step a)),
            pnl_from_open_positions)
  | _, _ => None
  end.

(** A run of steps: the account left, the P&L of the steps in order and
    the number of units traded. *)
Fixpoint b64_run (prices : list float)
    (dv01_per_unit transaction_cost_rate : float) (actions : list Z)
    (a : Account) : option (Account * list float * Z) :=
  match actions with
  | [] => Some (a, [], 0%Z)
  | action :: rest =>
      match b64_step prices dv01_per_unit transaction_cost_rate action a with
      | Some (a', pnl) =>
          match b64_run prices dv01_per_unit transaction_cost_rate rest a'
          with
          | Some (a'', pnls, trades) =>
              Some (a'', pnl :: pnls,
                    (Z.abs (b_shares_held a' - b_shares_held a)
                     + trades)%Z)
          | None => None
          end
      | None => None
      end
  end.

(** The closed form of the balance, computed in binary64 with the P&L
    added up from the first step on, or from the last one back. *)
Definition closed_form_forwards (initial_balance cost : float)
    (pnls : list float) (trades : Z) : float :=
  (initial_balance + fold_left PrimFloat.add pnls 0
   - cost * of_int trades)%float.

Definition closed_form_backwards (initial_balance cost : float)
    (pnls : list float) (trades : Z) : float :=
  (initial_balance + fold_right PrimFloat.add 0%float pnls
   - cost * of_int trades)%float.

End Binary64.

(** ** Data for concrete runs *)

(** A stand-in for the [random] module: the state is a counter, a draw is
    the counter folded into the range. *)
Definition counter_randint (a b : Z) (g : Z) : Z * Z :=
  ((a + g mod (b - a + 1))%Z, (g + 1)%Z).

(** A constant series of [n] rows at 100 bp. *)
Definition flat_prices (n : nat) : list xfloat := repeat (of_Z 100) n.

(** A series that is flat for four rows and then falls. *)
Definition falling_prices : list xfloat :=
  map of_Z [100; 100; 100; 100; 99; 98; 98]%Z.

(** A series that rises and falls. *)
Definition sample_prices : list xfloat :=
  map of_Z [100; 101; 103; 102; 102; 105; 104]%Z.



(** Six spreads with two decimals, as binary64 values. *)
Definition decimal_prices : list float :=
  [100; 100; 100.03; 99.93; 100.22; 100.17]%float.

(** A row of the hedging frame on which the three conditions of the hedge
    signal hold: P&L 5, CDS level 100, forecast 110, CDS change -3,
    z-score 2, rolling correlation 0.7, CS01 3. *)
Definition hedged_day : HedgeRow :=
  mkHedgeRow (Fin 5) (Fin 100) (Fin 110) (Fin (-3)) (Fin 2) (Fin (7 # 10))
    (Fin 3).

(** The same row with a forecast below the CDS level. *)
Definition quiet_day : HedgeRow :=
  mkHedgeRow (Fin 5) (Fin 100) (Fin 90) (Fin (-3)) (Fin 2) (Fin (7 # 10))
    (Fin 3).

(* ===================================================================== *)
(** ** Proof steps used more than once *)
(* ===================================================================== *)

(** Case analysis on the first [match] of the goal. *)
Ltac break_match :=
  match goal with
  | |- context [match ?x with _ => _ end] => destruct x eqn:?
  end.

(** Gives the value of a call that returns as the witness of the goal. *)
Ltac exists_returned t :=
  let r := eval vm_compute in t in
  match r with
  | Ok ?e => exists e
  end.

(** Proves that the values of a concrete column are numbers. *)
Ltac finite_column :=
  repeat (apply Forall_cons; [eexists; reflexivity|]);
  apply Forall_nil.

(** Proves that the values of a concrete column are spreads, or of
    moderate magnitude. *)
Ltac in_range := split; apply Qle_bool_iff; vm_compute; reflexivity.

Ltac spread_column :=
  repeat (apply Forall_cons; [eexists; split; [reflexivity | in_range]|]);
  apply Forall_nil.

Ltac moderate_column :=
  repeat (apply Forall_cons; [in_range|]);
  apply Forall_nil.

Ltac valid_actions :=
  repeat (apply Forall_cons; [unfold valid_action; lia|]);
  apply Forall_nil.

(** Closes a concrete goal with a fact that evaluates to it. *)
Ltac by_evaluation H := vm_compute in H |- *; exact H.

(* ===================================================================== *)
(** ** The cast to float32 *)
(* ===================================================================== *)

Lemma round_half_even_bounds (x : Q) :
  (Qfloor x <= round_half_even x <= Qfloor x + 1)%Z.
Proof.
  unfold round_half_even. destruct (_ ?= _); [destruct (Z.even _)| |]; lia.
Qed.


Lemma round_half_even_mono (a b : Q) :
  a <= b -> (round_half_even a <= round_half_even b)%Z.
Proof.
  intros Hab.
  pose proof (Qfloor_resp_le _ _ Hab) as Hf.
  destruct (Z.eq_dec (Qfloor a) (Qfloor b)) as [E | N].
  - unfold round_half_even. rewrite E.
    destruct (Qcompare_spec (a - inject_Z (Qfloor b)) (1 # 2)) as [Ca|Ca|Ca];
      destruct (Qcompare_spec (b - inject_Z (Qfloor b)) (1 # 2)) as [Cb|Cb|Cb];
      try (destruct (Z.even (Qfloor b))); try lia; exfalso; lra.
  - pose proof (round_half_even_bounds a). pose proof (round_half_even_bounds b).
    lia.
Qed.

Lemma round_half_even_Z (n : Z) : round_half_even (inject_Z n) = n.
Proof.
  unfold round_half_even. rewrite Qfloor_Z.
  assert (C : (inject_Z n - inject_Z n ?= 1 # 2) = Lt).
  { apply Qlt_alt. assert (E : inject_Z n - inject_Z n == 0) by ring.
    rewrite E. reflexivity. }
  rewrite C. reflexivity.
Qed.

Lemma inject_Z_pow2_pos (k : Z) : (0 <= k)%Z -> 0 < inject_Z (2 ^ k).
Proof.
  intros H. change 0 with (inject_Z 0). rewrite <- Zlt_Qlt.
  apply Z.pow_pos_nonneg; lia.
Qed.

Lemma float32_shift_upper (u : Q) :
  0 <= u -> u < inject_Z (2 ^ (24 + float32_shift u)).
Proof.
  intros Hu. unfold float32_shift.
  assert (H0 : (0 <= Qfloor u)%Z).
  { change 0%Z with (Qfloor 0). now apply Qfloor_resp_le. }
  eapply Qlt_le_trans; [apply Qlt_floor|].
  rewrite <- Zle_Qle.
  destruct (Z.eq_dec (Qfloor u) 0) as [E | N].
  - rewrite E. change (Z.log2 0) with 0%Z.
    assert (0 < 2 ^ (24 + Z.max 0 (0 - 23)))%Z by (apply Z.pow_pos_nonneg; lia).
    lia.
  - pose proof (Z.log2_spec (Qfloor u) ltac:(lia)) as [_ Hs].
    assert (2 ^ Z.succ (Z.log2 (Qfloor u)) <= 2 ^ (24 + Z.max 0 (Z.log2 (Qfloor u) - 23)))%Z.
    { apply Z.pow_le_mono_r; [lia|]. lia. }
    lia.
Qed.

Lemma float32_shift_lower (u : Q) :
  (1 <= float32_shift u)%Z -> inject_Z (2 ^ (23 + float32_shift u)) <= u.
Proof.
  unfold float32_shift. intros Hk.
  eapply Qle_trans; [|apply Qfloor_le].
  rewrite <- Zle_Qle.
  assert (Hp : (0 < Qfloor u)%Z).
  { destruct (Z_lt_le_dec 0 (Qfloor u)) as [|Hn]; [assumption|].
    rewrite (Z.log2_nonpos _ Hn) in Hk. lia. }
  pose proof (Z.log2_spec (Qfloor u) Hp) as [Hs _].
  replace (23 + Z.max 0 (Z.log2 (Qfloor u) - 23))%Z with (Z.log2 (Qfloor u))
    by lia.
  exact Hs.
Qed.

Lemma float32_shift_mono (u v : Q) : u <= v -> (float32_shift u <= float32_shift v)%Z.
Proof.
  intros H. unfold float32_shift.
  pose proof (Z.log2_le_mono _ _ (Qfloor_resp_le _ _ H)). lia.
Qed.

Lemma float32_shift_nonneg (u : Q) : (0 <= float32_shift u)%Z.
Proof. unfold float32_shift. lia. Qed.

Lemma div_pow2_lt (u : Q) (k n : Z) :
  (0 <= k)%Z -> u < inject_Z (2 ^ (n + k)) -> (0 <= n)%Z ->
  u / inject_Z (2 ^ k) <= inject_Z (2 ^ n).
Proof.
  intros Hk Hu Hn. apply Qle_shift_div_r; [now apply inject_Z_pow2_pos|].
  rewrite <- inject_Z_mult, <- Z.pow_add_r by lia. now apply Qlt_le_weak.
Qed.

Lemma div_pow2_ge (u : Q) (k n : Z) :
  (0 <= k)%Z -> inject_Z (2 ^ (n + k)) <= u -> (0 <= n)%Z ->
  inject_Z (2 ^ n) <= u / inject_Z (2 ^ k).
Proof.
  intros Hk Hu Hn. apply Qle_shift_div_l; [now apply inject_Z_pow2_pos|].
  rewrite <- inject_Z_mult, <- Z.pow_add_r by lia. exact Hu.
Qed.

Lemma float32_units_unfold (x : Q) :
  float32_units x =
    (round_half_even (x * inject_Z (2 ^ 149)
                      / inject_Z (2 ^ float32_shift (x * inject_Z (2 ^ 149))))
     * 2 ^ float32_shift (x * inject_Z (2 ^ 149)))%Z.
Proof. reflexivity. Qed.

Lemma float32_units_mono (x y : Q) :
  0 <= x -> x <= y -> (float32_units x <= float32_units y)%Z.
Proof.
  intros Hx Hxy. rewrite !float32_units_unfold.
  assert (P : 0 < inject_Z (2 ^ 149)) by (apply inject_Z_pow2_pos; lia).
  set (u := x * inject_Z (2 ^ 149)). set (v := y * inject_Z (2 ^ 149)).
  assert (Hu : 0 <= u) by (unfold u; apply Qmult_le_0_compat; lra).
  assert (Huv : u <= v) by (unfold u, v; apply Qmult_le_compat_r; lra).
  pose proof (float32_shift_mono Huv) as Hk.
  pose proof (float32_shift_nonneg u) as Hk0.
  destruct (Z.eq_dec (float32_shift u) (float32_shift v)) as [E | N].
  - rewrite E. apply Z.mul_le_mono_nonneg_r; [apply Z.pow_nonneg; lia|].
    apply round_half_even_mono.
    apply Qmult_le_compat_r; [exact Huv|].
    apply Qlt_le_weak, Qinv_lt_0_compat, inject_Z_pow2_pos. lia.
  - assert (A : (round_half_even (u / inject_Z (2 ^ float32_shift u)) <= 2 ^ 24)%Z).
    { rewrite <- (round_half_even_Z (2 ^ 24)). apply round_half_even_mono.
      apply div_pow2_lt; [lia | | lia]. apply float32_shift_upper. exact Hu. }
    assert (B : (2 ^ 23 <= round_half_even (v / inject_Z (2 ^ float32_shift v)))%Z).
    { rewrite <- (round_half_even_Z (2 ^ 23)) at 1. apply round_half_even_mono.
      apply div_pow2_ge; [lia | | lia]. apply float32_shift_lower. lia. }
    assert (C : (2 ^ 24 * 2 ^ float32_shift u <= 2 ^ 23 * 2 ^ float32_shift v)%Z).
    { rewrite <- !Z.pow_add_r by lia. apply Z.pow_le_mono_r; lia. }
    assert (Pu : (0 < 2 ^ float32_shift u)%Z) by (apply Z.pow_pos_nonneg; lia).
    assert (Pv : (0 < 2 ^ float32_shift v)%Z) by (apply Z.pow_pos_nonneg; lia).
    nia.
Qed.

Lemma float32_units_0 : float32_units 0 = 0%Z.
Proof. vm_compute. reflexivity. Qed.


Lemma float32_units_nonneg (x : Q) : 0 <= x -> (0 <= float32_units x)%Z.
Proof.
  intros H. rewrite <- float32_units_0. apply float32_units_mono; lra.
Qed.

Lemma float32_signed_mono (a b : Q) : a <= b -> (float32_signed a <= float32_signed b)%Z.
Proof.
  intros Hab. unfold float32_signed.
  destruct (Qle_bool 0 a) eqn:Ea; destruct (Qle_bool 0 b) eqn:Eb.
  - apply Qle_bool_iff in Ea. now apply float32_units_mono.
  - apply Qle_bool_iff in Ea.
    assert (~ 0 <= b) by (intros H; apply Qle_bool_iff in H; congruence). lra.
  - apply Qle_bool_iff in Eb.
    assert (Na : ~ 0 <= a) by (intros H; apply Qle_bool_iff in H; congruence).
    pose proof (@float32_units_nonneg (- a) ltac:(lra)).
    pose proof (@float32_units_nonneg b Eb). lia.
  - assert (Na : ~ 0 <= a) by (intros H; apply Qle_bool_iff in H; congruence).
    assert (Nb : ~ 0 <= b) by (intros H; apply Qle_bool_iff in H; congruence).
    pose proof (@float32_units_mono (- b) (- a) ltac:(lra) ltac:(lra)). lia.
Qed.


Lemma float32_Fin (q : Q) :
  float32 (Fin q) =
    if (2 ^ 277 <=? float32_signed q)%Z then PInf
    else if (float32_signed q <=? - 2 ^ 277)%Z then NInf
    else Fin (Qred (inject_Z (float32_signed q) / inject_Z (2 ^ 149))).
Proof. reflexivity. Qed.

(** The cast keeps the order. *)
Lemma float32_le (x y : xfloat) :
  xle x y = true -> xle (float32 x) (float32 y) = true.
Proof.
  destruct x as [a| | |], y as [b| | |]; try discriminate;
    try reflexivity.
  - cbn [xle]. intros H. apply Qle_bool_iff in H.
    pose proof (float32_signed_mono H) as M. rewrite !float32_Fin.
    destruct (Z.leb_spec (2 ^ 277) (float32_signed a));
      destruct (Z.leb_spec (2 ^ 277) (float32_signed b)); try reflexivity;
      try lia;
      destruct (Z.leb_spec (float32_signed a) (- 2 ^ 277));
      destruct (Z.leb_spec (float32_signed b) (- 2 ^ 277)); try reflexivity;
      try lia.
    cbn [xle]. apply Qle_bool_iff. rewrite !Qred_correct.
    apply Qmult_le_compat_r.
    + now rewrite <- Zle_Qle.
    + apply Qlt_le_weak, Qinv_lt_0_compat, inject_Z_pow2_pos. lia.
  - intros _. rewrite float32_Fin.
    destruct (_ <=? _)%Z; [reflexivity|]. destruct (_ <=? _)%Z; reflexivity.
  - intros _. rewrite float32_Fin.
    destruct (_ <=? _)%Z; [reflexivity|]. destruct (_ <=? _)%Z; reflexivity.
Qed.



(* ===================================================================== *)
(** ** Basic facts on the methods *)
(* ===================================================================== *)

Lemma iloc_in_range {A} (l : list A) (i : Z) :
  (0 <= i < len l)%Z ->
  exists a, iloc l i = Ok a /\ nth_error l (Z.to_nat i) = Some a.
Proof.
  intros H. unfold iloc. fold (len l).
  replace (i <? 0)%Z with false by (symmetry; apply Z.ltb_ge; lia).
  replace (0 <=? i)%Z with true by (symmetry; apply Z.leb_le; lia).
  replace (i <? len l)%Z with true by (symmetry; apply Z.ltb_lt; lia).
  simpl. destruct (nth_error l (Z.to_nat i)) eqn:E.
  - eauto.
  - apply nth_error_None in E. unfold len in H. lia.
Qed.

Lemma iloc_past_end {A} (l : list A) (i : Z) :
  (len l <= i)%Z -> iloc l i = Raise IndexError.
Proof.
  intros H. unfold iloc. fold (len l).
  assert (0 <= len l)%Z by (unfold len; lia).
  replace (i <? 0)%Z with false by (symmetry; apply Z.ltb_ge; lia).
  replace (i <? len l)%Z with false by (symmetry; apply Z.ltb_ge; lia).
  now rewrite andb_false_r.
Qed.

Lemma iloc_In {A} (l : list A) (i : Z) (a : A) :
  iloc l i = Ok a -> In a l.
Proof.
  unfold iloc. destruct (_ && _)%bool; [|discriminate].
  destruct (nth_error l _) eqn:E; [|discriminate].
  intros [= <-]. eapply nth_error_In; eauto.
Qed.

(** The transaction logic never raises; it leaves the object as it is or
    runs one trade. *)
Lemma transaction_logic_cases (a : Z) (s : CreditRSIEnv) :
  transaction_logic a s = (Ok tt, s) \/
  exists d, (d = 1 \/ d = -1)%Z /\
    transaction_logic a s =
      (Ok tt,
       set_shares_held (shares_held s + d)
         (set_balance (xsub (balance s) (transaction_cost_per_unit s)) s)).
Proof.
  unfold transaction_logic, bind, self.
  destruct (a =? 1)%Z.
  - destruct (xge _ _); [right; exists 1%Z; auto | left; reflexivity].
  - destruct (a =? 2)%Z; [|left; reflexivity].
    destruct (shares_held s >? 0)%Z; [right; exists (-1)%Z; auto|].
    destruct (_ && _)%bool; [right; exists (-1)%Z; auto | left; reflexivity].
Qed.

Lemma transaction_logic_frame (a : Z) (s : CreditRSIEnv) :
  let s' := snd (transaction_logic a s) in
  fst (transaction_logic a s) = Ok tt /\
  df s' = df s /\ current_step s' = current_step s /\
  max_steps s' = max_steps s /\ window s' = window s /\
  initial_balance s' = initial_balance s /\
  dv01_per_unit s' = dv01_per_unit s /\
  transaction_cost_rate s' = transaction_cost_rate s /\
  episode_history s' = episode_history s /\ np_random s' = np_random s.
Proof.
  destruct (transaction_logic_cases a s) as [E | (d & _ & E)];
    rewrite E; simpl; repeat split; reflexivity.
Qed.

(** A step inside the data returns normally, with these results. *)
Lemma step_ok (a : Z) (s : CreditRSIEnv) (prev cur : Row) :
  iloc (df s) (current_step s) = Ok prev ->
  iloc (df s) (current_step s + 1) = Ok cur ->
  (current_step s + 1 <= max_steps s)%Z ->
  let pnl := pnl_from_open_positions s (price prev) (price cur) in
  let s3 := snd (transaction_logic a (mark_to_market s prev cur)) in
  let dr := penalties s3 pnl in
  step a s =
    (Ok (mkStepReturn
           (obs_map float32
              (mkObs (price cur) (rsi cur) (of_Z (shares_held s3))
                 (balance s3) (spread_change cur)))
           (snd dr) (fst dr) false
           (InfoStep (balance s3) (shares_held s3) (price cur))),
     set_episode_history
       (episode_history s3 ++
          [mkHistoryEntry (current_step s3) (price cur) (rsi cur) a
             (balance s3) (shares_held s3) (snd dr)]) s3).
Proof.
  intros Hp Hc Hle pnl s3 dr.
  unfold step, bind at 1, self at 1. unfold bind at 1, lift at 1.
  rewrite Hp. unfold bind at 1, assign at 1. unfold bind at 1, self at 1.
  cbn [current_step max_steps set_current_step].
  replace (current_step s + 1 >? max_steps s)%Z with false
    by (symmetry; rewrite Z.gtb_ltb; apply Z.ltb_ge; lia).
  unfold bind at 1, lift at 1. cbn [df set_current_step]. rewrite Hc.
  unfold bind at 1, assign at 1. unfold bind at 1.
  fold (mark_to_market s prev cur).
  pose proof (transaction_logic_frame a (mark_to_market s prev cur)) as F.
  cbv zeta in F. fold s3 in F.
  destruct F as (F0 & Fdf & Fcs & _).
  destruct (transaction_logic a (mark_to_market s prev cur)) as [r s3'] eqn:E.
  simpl in F0, s3. subst r. subst s3.
  unfold bind at 1, self at 1.
  change (pnl_from_open_positions (set_current_step (current_step s + 1) s)
            (price prev) (price cur)) with pnl.
  fold dr. destruct dr as [d rw] eqn:Edr.
  simpl in Fdf, Fcs.
  unfold bind, lift, assign, _get_obs, self, ret.
  rewrite Fdf, Fcs, Hc. unfold bind, lift.
  cbn [df current_step set_episode_history shares_held balance].
  rewrite ?Fdf, ?Fcs, ?Hc. reflexivity.
Qed.

Lemma transaction_logic_hold (a : Z) (s : CreditRSIEnv) :
  a <> 1%Z -> a <> 2%Z -> transaction_logic a s = (Ok tt, s).
Proof.
  intros H1 H2. unfold transaction_logic, bind, self.
  destruct (Z.eqb_spec a 1); [contradiction|].
  destruct (Z.eqb_spec a 2); [contradiction|]. reflexivity.
Qed.

(** On a well-formed object standing before the last row, [step] returns
    normally; its P&L is the position held times the move of the spread
    from the row it leaves to the row it reaches, times the CS01. *)
Lemma step_inside (a : Z) (s : CreditRSIEnv) :
  wf_env s -> (current_step s < max_steps s)%Z ->
  exists prev cur,
    iloc (df s) (current_step s) = Ok prev /\
    iloc (df s) (current_step s + 1) = Ok cur /\
    let pnl := pnl_from_open_positions s (price prev) (price cur) in
    let s3 := snd (transaction_logic a (mark_to_market s prev cur)) in
    let dr := penalties s3 pnl in
    let s' :=
      set_episode_history
        (episode_history s3 ++
           [mkHistoryEntry (current_step s3) (price cur) (rsi cur) a
              (balance s3) (shares_held s3) (snd dr)]) s3 in
    step a s =
      (Ok (mkStepReturn
             (obs_map float32
                (mkObs (price cur) (rsi cur) (of_Z (shares_held s3))
                   (balance s3) (spread_change cur)))
             (snd dr) (fst dr) false
             (InfoStep (balance s3) (shares_held s3) (price cur))), s') /\
    mtm_pnl s s' = pnl.
Proof.
  intros [Hm H0] Hlt.
  destruct (@iloc_in_range _ (df s) (current_step s)) as (prev & Hp & _);
    [lia|].
  destruct (@iloc_in_range _ (df s) (current_step s + 1)) as (cur & Hc & _);
    [lia|].
  exists prev, cur. split; [exact Hp|]. split; [exact Hc|].
  cbv zeta. split; [apply step_ok; [assumption | assumption | lia]|].
  pose proof (transaction_logic_frame a (mark_to_market s prev cur)) as F.
  cbv zeta in F. destruct F as (_ & Fdf & Fcs & _).
  unfold mtm_pnl, price_at. cbn [df current_step set_episode_history].
  rewrite Fdf, Fcs. cbn [df current_step mark_to_market set_balance
                           set_current_step].
  rewrite Hp, Hc. reflexivity.
Qed.

(** With a seed that is not valid, [reset] raises before it writes
    anything. *)
Lemma reset_invalid_seed (Rng : Type) (randint : Z -> Z -> Rng -> Z * Rng)
    (n : Z) (g : Rng) (env : CreditRSIEnv) :
  (n < 0)%Z ->
  reset randint (Some n) g env = ((Raise GymnasiumError, env), g).
Proof.
  intros H. unfold reset, super_reset, lift.
  apply Z.ltb_lt in H. rewrite H. reflexivity.
Qed.

(** A call of [reset] that returns had a valid seed. *)
Lemma reset_ok_valid_seed (Rng : Type) (randint : Z -> Z -> Rng -> Z * Rng)
    (seed : option Z) (g g' : Rng) (env env1 : CreditRSIEnv)
    (o : Obs * Info) :
  reset randint seed g env = ((Ok o, env1), g') -> valid_seed seed.
Proof.
  destruct seed as [n|]; [|intros _; exact I].
  destruct (Z.ltb_spec n 0) as [Hn | Hn]; [|intros _; exact Hn].
  rewrite reset_invalid_seed by exact Hn. discriminate.
Qed.

Lemma super_reset_valid (seed : option Z) (env : CreditRSIEnv) :
  valid_seed seed ->
  super_reset seed env
    = (Ok tt, match seed with Some _ => set_np_random seed env | None => env end).
Proof.
  destruct seed as [n|]; cbn; [|reflexivity].
  intros H. apply Z.ltb_ge in H. rewrite H. reflexivity.
Qed.

(** What [reset] leaves in the object when the seed is valid, whatever
    it returns. *)
Lemma reset_state (Rng : Type) (randint : Z -> Z -> Rng -> Z * Rng)
    (seed : option Z) (g : Rng) (env : CreditRSIEnv) :
  valid_seed seed ->
  let env1 := snd (fst (reset randint seed g env)) in
  balance env1 = Fin (initial_balance env) /\
  shares_held env1 = 0%Z /\
  episode_history env1 = [] /\
  df env1 = df env /\
  initial_balance env1 = initial_balance env /\
  max_steps env1 = max_steps env /\
  window env1 = window env /\
  dv01_per_unit env1 = dv01_per_unit env /\
  transaction_cost_rate env1 = transaction_cost_rate env.
Proof.
  intros Hseed. unfold reset. rewrite (@super_reset_valid seed env Hseed).
  destruct seed; cbn [window max_steps set_np_random set_balance
                      set_shares_held set_episode_history];
    (destruct (_ <? _)%Z; [|destruct (randint _ _ g) as [start g1]]);
    unfold _get_obs, bind, self, lift, ret;
    cbn [df current_step set_current_step];
    destruct (iloc _ _); cbn; repeat split.
Qed.

(** [step] never writes the configuration, whether it returns or raises. *)
Lemma step_config (a : Z) (s : CreditRSIEnv) :
  same_config s (snd (step a s)).
Proof.
  assert (R : same_config s s) by (repeat split).
  assert (R1 : same_config s (set_current_step (current_step s + 1) s))
    by (repeat split).
  unfold step, bind at 1, self at 1. unfold bind at 1, lift at 1.
  destruct (iloc (df s) (current_step s)) as [prev|]; [|exact R].
  unfold bind at 1, assign at 1. unfold bind at 1, self at 1.
  cbn [current_step max_steps set_current_step].
  destruct (_ >? _)%Z.
  - unfold _get_obs, bind, self, lift, ret.
    destruct (iloc _ _); exact R1.
  - unfold bind at 1, lift at 1.
    destruct (iloc _ _) as [cur|]; [|exact R1].
    unfold bind at 1, assign at 1. unfold bind at 1.
    match goal with
    | |- context [transaction_logic a ?m] =>
        pose proof (transaction_logic_frame a m) as F; cbv zeta in F;
        destruct F as (F0 & Fdf & _ & Fm & Fw & Fib & Fdv & Ftc & _);
        destruct (transaction_logic a m) as [r s3]
    end.
    cbn [fst snd] in F0, Fdf, Fm, Fw, Fib, Fdv, Ftc. subst r.
    assert (R3 : same_config s s3) by (repeat split; assumption).
    unfold bind at 1, self at 1.
    destruct (penalties s3 _) as [d rw].
    unfold _get_obs, bind, self, lift, assign, ret.
    cbn [df set_episode_history current_step].
    repeat break_match; cbn [snd]; exact R3.
Qed.

Lemma reset_config (Rng : Type) (randint : Z -> Z -> Rng -> Z * Rng)
    (seed : option Z) (g : Rng) (s : CreditRSIEnv) :
  same_config s (snd (fst (reset randint seed g s))).
Proof.
  destruct seed as [n|].
  - destruct (Z.ltb_spec n 0) as [Hn | Hn].
    + rewrite reset_invalid_seed by exact Hn. repeat split.
    + pose proof (@reset_state _ randint (Some n) g s Hn) as R.
      cbv zeta in R.
      destruct R as (_ & _ & _ & Rdf & Rib & Rm & Rw & Rdv & Rtc).
      repeat split; assumption.
  - pose proof (@reset_state _ randint None g s I) as R. cbv zeta in R.
    destruct R as (_ & _ & _ & Rdf & Rib & Rm & Rw & Rdv & Rtc).
    repeat split; assumption.
Qed.

Lemma same_config_trans (a b c : CreditRSIEnv) :
  same_config a b -> same_config b c -> same_config a c.
Proof.
  unfold same_config. intros (A1 & A2 & A3 & A4 & A5 & A6)
    (B1 & B2 & B3 & B4 & B5 & B6).
  repeat split; congruence.
Qed.

(** Calls of [step] and [reset] leave the configuration as [__init__]
    set it. *)
Lemma reachable_config (s0 s : CreditRSIEnv) :
  reachable s0 s -> same_config s0 s.
Proof.
  induction 1 as [|s a _ IH|s Rng randint seed g _ IH].
  - repeat split.
  - eapply same_config_trans; [exact IH | apply step_config].
  - eapply same_config_trans; [exact IH | apply reset_config].
Qed.

(* ===================================================================== *)
(** ** The end of the data *)
(* ===================================================================== *)

(** C3 (the code departs from the claim).  Called on the last row of the
    series, [step] does not return: it advances [current_step] past the
    last row, enters the end-of-data branch and raises IndexError in
    [_get_obs], for every action; [balance] and [shares_held] are left as
    they were. *)
Theorem step_at_last_row_raises (a : Z) (s : CreditRSIEnv) :
  wf_env s ->
  current_step s = max_steps s ->
  step a s = (Raise IndexError, set_current_step (current_step s + 1) s).
Proof.
  intros [Hm H0] Hlast.
  destruct (@iloc_in_range _ (df s) (current_step s)) as (prev & Hp & _);
    [lia|].
  unfold step, bind at 1, self at 1. unfold bind at 1, lift at 1.
  rewrite Hp. unfold bind at 1, assign at 1. unfold bind at 1, self at 1.
  cbn [current_step max_steps set_current_step].
  replace (current_step s + 1 >? max_steps s)%Z with true
    by (symmetry; rewrite Z.gtb_ltb; apply Z.ltb_lt; lia).
  unfold _get_obs, bind, self, lift. cbn [df current_step set_current_step].
  rewrite iloc_past_end by lia. reflexivity.
Qed.

(** Past the last row, [step] raises before it writes anything. *)
Lemma step_past_end (a : Z) (s : CreditRSIEnv) :
  (len (df s) <= current_step s)%Z ->
  step a s = (Raise IndexError, s).
Proof.
  intros H. unfold step, bind at 1, self at 1. unfold bind at 1, lift at 1.
  rewrite iloc_past_end by assumption. reflexivity.
Qed.

(* ===================================================================== *)
(** ** One step inside the data *)
(* ===================================================================== *)

(** C4.  In a step that returns, a resulting balance below zero sets
    [done] and charges the ruin penalty 0.5 * initial_balance on the
    reward; otherwise a resulting balance below 0.5 * initial_balance sets
    [done] and charges the drawdown penalty 0.1 * initial_balance;
    otherwise the reward is the mark-to-market P&L and [done] is false.  The
    three cases exclude each other, ruin first. *)
Theorem step_ruin_then_drawdown (a : Z) (s : CreditRSIEnv) :
  wf_env s -> (current_step s < max_steps s)%Z ->
  exists r s',
    step a s = (Ok r, s') /\
    let pnl := mtm_pnl s s' in
    let ruin := xlt (balance s') (Fin 0) in
    let drawdown :=
      xlt (balance s') (Fin (initial_balance s * (1 # 2))) in
    (ruin = true ->
       done r = true /\
       reward r = xsub pnl (Fin (initial_balance s * (1 # 2)))) /\
    (ruin = false -> drawdown = true ->
       done r = true /\
       reward r = xsub pnl (Fin (initial_balance s * (1 # 10)))) /\
    (ruin = false -> drawdown = false ->
       done r = false /\ reward r = pnl).
Proof.
  intros Hwf Hlt.
  destruct (step_inside a Hwf Hlt) as (prev & cur & _ & _ & E & P).
  cbv zeta in E, P.
  pose proof (transaction_logic_frame a (mark_to_market s prev cur)) as F.
  cbv zeta in F. destruct F as (_ & _ & _ & _ & _ & Fib & _).
  set (s3 := snd (transaction_logic a (mark_to_market s prev cur))) in *.
  eexists; eexists; split; [exact E|].
  cbv zeta. rewrite P.
  cbn [balance set_episode_history done reward].
  change (initial_balance s) with (initial_balance (mark_to_market s prev cur)).
  rewrite <- Fib. unfold penalties. cbn [xmul].
  destruct (xlt (balance s3) (Fin 0)).
  - repeat split; intros; try discriminate; reflexivity.
  - destruct (xlt (balance s3) (Fin (initial_balance s3 * (1 # 2)))).
    + repeat split; intros; try discriminate; reflexivity.
    + repeat split; intros; try discriminate; reflexivity.
Qed.

(** C5.  In a step that returns, SellProtection (action 2) on a long
    position deducts the transaction cost and takes one unit off
    [shares_held] without looking at the balance; on a flat or short
    position it does so only when the balance after the mark-to-market
    covers the cost, and otherwise leaves the marked-to-market balance and
    [shares_held] as they are. *)
Theorem step_sell_protection (s : CreditRSIEnv) :
  wf_env s -> (current_step s < max_steps s)%Z ->
  exists r s',
    step 2 s = (Ok r, s') /\
    let marked := xadd (balance s) (mtm_pnl s s') in
    let cost := transaction_cost_per_unit s in
    ((0 < shares_held s)%Z ->
       balance s' = xsub marked cost /\
       shares_held s' = (shares_held s - 1)%Z) /\
    ((shares_held s <= 0)%Z -> xge marked cost = true ->
       balance s' = xsub marked cost /\
       shares_held s' = (shares_held s - 1)%Z) /\
    ((shares_held s <= 0)%Z -> xge marked cost = false ->
       balance s' = marked /\ shares_held s' = shares_held s).
Proof.
  intros Hwf Hlt.
  destruct (step_inside 2 Hwf Hlt) as (prev & cur & _ & _ & E & P).
  cbv zeta in E, P.
  eexists; eexists; split; [exact E|].
  cbv zeta. rewrite P.
  cbn [balance shares_held set_episode_history].
  unfold transaction_logic, bind, self. cbn [Z.eqb Pos.eqb].
  cbn [shares_held balance mark_to_market set_balance set_current_step].
  change (transaction_cost_per_unit _) with (transaction_cost_per_unit s).
  change (pnl_from_open_positions _ (price prev) (price cur))
    with (pnl_from_open_positions s (price prev) (price cur)).
  destruct (Z.gtb_spec (shares_held s) 0) as [Hpos | Hnpos].
  - repeat split; intros; try lia; reflexivity.
  - replace (shares_held s <=? 0)%Z with true
      by (symmetry; apply Z.leb_le; lia).
    cbn [andb].
    destruct (xge _ (transaction_cost_per_unit s)).
    + repeat split; intros; try lia; try discriminate; reflexivity.
    + repeat split; intros; try lia; try discriminate; reflexivity.
Qed.

(** C7 (amended).  [step] has no test of the action value: every value
    other than 1 and 2, inside or outside the three declared ones, is
    processed as Hold.  The call returns normally with what [step(0)]
    returns, advances [current_step], adds the mark-to-market P&L to
    [balance] and leaves [shares_held] as it was. *)
Theorem step_other_action_is_hold (a : Z) (s : CreditRSIEnv) :
  a <> 1%Z -> a <> 2%Z ->
  wf_env s -> (current_step s < max_steps s)%Z ->
  exists r s' h',
    step a s = (Ok r, s') /\
    step 0 s = (Ok r, h') /\
    current_step s' = (current_step s + 1)%Z /\
    shares_held s' = shares_held s /\
    balance s' = xadd (balance s) (mtm_pnl s s').
Proof.
  intros H1 H2 Hwf Hlt.
  destruct (step_inside a Hwf Hlt) as (prev & cur & Hp & Hc & E & P).
  destruct (step_inside 0 Hwf Hlt) as (prev0 & cur0 & Hp0 & Hc0 & E0 & _).
  rewrite Hp in Hp0. rewrite Hc in Hc0.
  injection Hp0 as <-. injection Hc0 as <-.
  cbv zeta in E, E0, P.
  rewrite transaction_logic_hold in E, P by assumption.
  rewrite transaction_logic_hold in E0 by discriminate.
  cbn [snd] in E, E0, P.
  eexists; eexists; eexists. split; [exact E|]. split; [exact E0|].
  rewrite P. repeat split.
Qed.

(* ===================================================================== *)
(** ** The indicator column *)
(* ===================================================================== *)

Lemma diff_from_finite (l : list xfloat) :
  forall prev, finite prev -> Forall finite l ->
    Forall nan_or_finite (diff_from prev l).
Proof.
  induction l as [|x r IH]; intros prev [p ->] HF; cbn [diff_from].
  - constructor.
  - inversion HF as [|? ? [q ->] HF']; subst. constructor.
    + right. eexists. reflexivity.
    + apply IH; [eexists; reflexivity | assumption].
Qed.

Lemma diff_finite (l : list xfloat) :
  Forall finite l -> Forall nan_or_finite (diff l).
Proof.
  destruct l as [|x r]; intros HF; cbn [diff]; [constructor|].
  inversion HF; subst. constructor; [left; reflexivity|].
  now apply diff_from_finite.
Qed.

(** The gain column: the rises, 0 for a fall. *)
Lemma gain_nonneg (d : list xfloat) :
  Forall nan_or_finite d ->
  Forall nan_or_nonneg (mask (fun x => xlt x (Fin 0)) (Fin 0) d).
Proof.
  unfold mask. intros HF. apply Forall_map.
  eapply Forall_impl; [|exact HF]. intros x [-> | [q ->]].
  - left. reflexivity.
  - right. cbn [xlt]. destruct (Qle_bool 0 q) eqn:E; cbn [negb].
    + exists q. split; [reflexivity | now apply Qle_bool_iff].
    + exists 0. split; [reflexivity | apply Qle_refl].
Qed.

(** The loss column: the falls with their sign changed, 0 for a rise. *)
Lemma loss_nonneg (d : list xfloat) :
  Forall nan_or_finite d ->
  Forall nan_or_nonneg
    (map xneg (mask (fun x => xgt x (Fin 0)) (Fin 0) d)).
Proof.
  unfold mask. intros HF. rewrite map_map. apply Forall_map.
  eapply Forall_impl; [|exact HF]. intros x [-> | [q ->]].
  - left. reflexivity.
  - right. unfold xgt. cbn [xlt].
    destruct (Qle_bool q 0) eqn:E; cbn [negb xneg].
    + exists (- q). split; [reflexivity|]. apply Qle_bool_iff in E. lra.
    + exists (- 0). split; [reflexivity | lra].
Qed.

(** The running mean of non-negative observations is non-negative. *)
Lemma ewm_loop_nonneg (f : Q) (minp : Z) (vals : list xfloat) :
  0 <= f ->
  forall (weighted : xfloat) (old_wt : Q) (nobs : Z),
    0 <= old_wt -> nan_or_nonneg weighted ->
    Forall nan_or_nonneg vals ->
    Forall nan_or_nonneg (ewm_loop f minp vals weighted old_wt nobs).
Proof.
  intros Hf. induction vals as [|cur rest IH];
    intros weighted old_wt nobs Hw Hwt HF; cbn [ewm_loop]; [constructor|].
  inversion HF as [|? ? Hcur HF']; subst.
  assert (Hof : 0 <= old_wt * f) by (apply Qmult_le_0_compat; assumption).
  destruct Hwt as [-> | (w & -> & Hw0)];
    destruct Hcur as [-> | (c & -> & Hc0)]; cbn [isnan negb].
  - constructor; [destruct (_ <=? _)%Z; left; reflexivity|].
    apply IH; [assumption | left; reflexivity | assumption].
  - constructor.
    + destruct (_ <=? _)%Z; [right; eauto | left; reflexivity].
    + apply IH; [assumption | right; eauto | assumption].
  - constructor.
    + destruct (_ <=? _)%Z; [right; eauto | left; reflexivity].
    + apply IH; [assumption | right; eauto | assumption].
  - assert (Hm : nan_or_nonneg
                   (if negb (xeqb (Fin w) (Fin c))
                    then xdiv (xadd (xmul (Fin (old_wt * f)) (Fin w))
                                 (xmul (Fin 1) (Fin c)))
                              (Fin (old_wt * f + 1))
                    else Fin w)).
    { destruct (negb _); [|right; eauto].
      cbn [xmul xadd xdiv].
      destruct (Qeq_bool (old_wt * f + 1) 0) eqn:E.
      - apply Qeq_bool_iff in E. lra.
      - right. eexists. split; [reflexivity|].
        apply Qle_shift_div_l; [lra|].
        assert (0 <= old_wt * f * w) by (apply Qmult_le_0_compat; assumption).
        lra. }
    constructor.
    + destruct (_ <=? _)%Z; [exact Hm | left; reflexivity].
    + apply IH; [lra | exact Hm | assumption].
Qed.

(** The infinite values that [ewm] turns into NaN: none in a column of
    numbers and NaN. *)
Lemma replace_inf_nan_id (l : list xfloat) :
  Forall (fun x => isinf x = false) l -> replace_inf_nan l = l.
Proof.
  unfold replace_inf_nan. induction 1 as [|x r Hx _ IH]; cbn [map].
  - reflexivity.
  - rewrite Hx, IH. reflexivity.
Qed.

Lemma replace_inf_nan_id_inv (P : Q -> Prop) (l : list xfloat) :
  Forall (fun v => exists c, v = Fin c /\ P c) l ->
  Forall (fun x => isinf x = false) l.
Proof.
  intros H. eapply Forall_impl; [|exact H].
  intros v (c & -> & _). reflexivity.
Qed.

Lemma nan_or_nonneg_not_inf (l : list xfloat) :
  Forall nan_or_nonneg l -> Forall (fun x => isinf x = false) l.
Proof.
  intros H. eapply Forall_impl; [|exact H].
  intros x [-> | (q & -> & _)]; reflexivity.
Qed.

Lemma ewm_mean_nonneg (com minp : Z) (vals out : list xfloat) :
  ewm_mean com minp vals = Ok out ->
  Forall nan_or_nonneg vals -> Forall nan_or_nonneg out.
Proof.
  unfold ewm_mean. destruct (Z.ltb_spec com 0) as [|Hc]; [discriminate|].
  intros [= <-] HF.
  rewrite (replace_inf_nan_id (nan_or_nonneg_not_inf HF)).
  apply ewm_loop_nonneg; try assumption.
  - assert (0 <= inject_Z com) by (change 0 with (inject_Z 0);
      rewrite <- Zle_Qle; assumption).
    assert (1 / (1 + inject_Z com) <= 1)
      by (apply Qle_shift_div_r; lra).
    lra.
  - lra.
  - left. reflexivity.
Qed.

(** One value of the RSI column from the two means. *)
Lemma rsi_value_within (g l : xfloat) :
  nan_or_nonneg g -> nan_or_nonneg l ->
  let r := xsub (Fin 100) (xdiv (Fin 100) (xadd (Fin 1) (xdiv g l))) in
  within 0 100
    (if isnan (if isinf r then NaN else r) then Fin 50
     else if isinf r then NaN else r).
Proof.
  intros [-> | (a & -> & Ha)] [-> | (b & -> & Hb)]; cbn;
    try (exists 50; split; [reflexivity | lra]).
  destruct (Qeq_bool b 0) eqn:E.
  - destruct (a ?= 0) eqn:C; cbn;
      try (exists 50; split; [reflexivity | lra]).
    + apply Qlt_alt in C. lra.
    + eexists. split; [reflexivity | lra].
  - cbn. assert (Hb' : ~ b == 0) by (now apply Qeq_bool_neq).
    assert (Hq : 0 <= a / b) by (apply Qle_shift_div_l; lra).
    destruct (Qeq_bool (1 + a / b) 0) eqn:E2.
    + apply Qeq_bool_iff in E2. lra.
    + cbn. eexists. split; [reflexivity|].
      assert (0 <= 100 / (1 + a / b)) by (apply Qle_shift_div_l; lra).
      assert (100 / (1 + a / b) <= 100) by (apply Qle_shift_div_r; lra).
      lra.
Qed.

Lemma rsi_column_within (avg_gain avg_loss : list xfloat) :
  Forall nan_or_nonneg avg_gain -> Forall nan_or_nonneg avg_loss ->
  Forall (within 0 100)
    (fillna (Fin 50) (replace_inf_nan
       (map (fun r => xsub (Fin 100) (xdiv (Fin 100) (xadd (Fin 1) r)))
          (zip_with xdiv avg_gain avg_loss)))).
Proof.
  intros HG. revert avg_loss.
  induction HG as [|g gs Hg HG IH]; intros avg_loss HL; [constructor|].
  destruct HL as [|l ls Hl HL]; [constructor|].
  cbn [zip_with map fillna replace_inf_nan]. constructor.
  - exact (rsi_value_within Hg Hl).
  - apply IH. exact HL.
Qed.

(** On a finite price column every value of the column that
    [calculate_rsi] returns is a number between 0 and 100. *)
Lemma calculate_rsi_within (data col : list xfloat) (window : Z) :
  Forall finite data ->
  calculate_rsi data window = Ok col ->
  Forall (within 0 100) col.
Proof.
  intros HF. unfold calculate_rsi.
  pose proof (diff_finite HF) as HD.
  destruct (ewm_mean _ _ (mask _ _ _)) as [avg_gain|] eqn:EG;
    cbn [rbind]; [|discriminate].
  destruct (ewm_mean _ _ (map _ _)) as [avg_loss|] eqn:EL;
    cbn [rbind]; [|discriminate].
  intros [= <-]. apply rsi_column_within.
  - eapply ewm_mean_nonneg; [exact EG | now apply gain_nonneg].
  - eapply ewm_mean_nonneg; [exact EL | now apply loss_nonneg].
Qed.

Lemma make_frame_Forall (P R C : xfloat -> Prop) (p : list xfloat) :
  Forall P p ->
  forall r c, Forall R r -> Forall C c ->
    Forall (fun row => P (price row) /\ R (rsi row) /\ C (spread_change row))
      (make_frame p r c).
Proof.
  induction 1 as [|x p' Hx HP IH]; intros r c HR HC; [constructor|].
  destruct HR as [|y r' Hy HR]; [constructor|].
  destruct HC as [|z c' Hz HC]; [constructor|].
  cbn [make_frame]. constructor; [cbn; auto | now apply IH].
Qed.

Lemma fillna_finite (v : Q) (l : list xfloat) :
  Forall nan_or_finite l -> Forall finite (fillna (Fin v) l).
Proof.
  intros H. unfold fillna. apply Forall_map.
  eapply Forall_impl; [|exact H].
  intros x [-> | [q ->]]; cbn; eexists; reflexivity.
Qed.

(** The frame that the preprocessing leaves for a finite price column:
    numbers in every column, the indicator between 0 and 100. *)
Lemma preprocess_finite (prices : list xfloat) (window : Z)
    (frame : list Row) :
  Forall finite prices ->
  preprocess prices window = Ok frame ->
  Forall finite_row frame /\
  Forall (fun row => within 0 100 (rsi row)) frame.
Proof.
  intros HF. unfold preprocess.
  destruct (calculate_rsi prices window) as [col|] eqn:EC;
    cbn [rbind]; [|discriminate].
  intros [= <-].
  pose proof (@calculate_rsi_within prices col window HF EC) as HW.
  pose proof (fillna_finite 0 (diff_finite HF)) as HS.
  pose proof (make_frame_Forall HF HW HS) as HM.
  rewrite Forall_forall in HM.
  split; apply Forall_forall; intros row Hin;
    apply filter_In in Hin; destruct Hin as [Hin _];
    destruct (HM _ Hin) as (Hp & (q & Hq & _) & Hc).
  - repeat split; [exact Hp | exists q; exact Hq | exact Hc].
  - destruct (HM _ Hin) as (_ & Hr & _). exact Hr.
Qed.

(** What [__init__] leaves in the object it returns. *)
Lemma init_facts (prices : list xfloat) (w : Z) (ib rate dv : Q)
    (env : CreditRSIEnv) :
  init prices w ib rate dv = Ok env ->
  max_steps env = (len (df env) - 1)%Z /\
  initial_balance env = ib /\
  dv01_per_unit env = dv /\
  transaction_cost_rate env = rate /\
  window env = w /\
  preprocess prices w = Ok (df env).
Proof.
  unfold init.
  destruct (preprocess prices w) as [frame|]; cbn [rbind]; [|discriminate].
  destruct frame as [|r0 fr]; [discriminate|].
  destruct (_ <? _)%Z; [discriminate|].
  destruct (Box _ _); cbn [rbind]; [|discriminate].
  intros [= <-]. cbn. repeat split.
Qed.

(** An observation is the cast of the row the object stands on and of
    the two account values. *)
Lemma get_obs_ok (s : CreditRSIEnv) (o : Obs) :
  fst (_get_obs s) = Ok o ->
  exists row,
    iloc (df s) (current_step s) = Ok row /\
    o = obs_map float32
          (mkObs (price row) (rsi row) (of_Z (shares_held s)) (balance s)
             (spread_change row)).
Proof.
  unfold _get_obs, bind, self, lift, ret.
  destruct (iloc (df s) (current_step s)) as [row|] eqn:E;
    cbn [fst]; [|discriminate].
  intros [= <-]. exists row. split; reflexivity.
Qed.


(* ===================================================================== *)
(** ** Construction *)
(* ===================================================================== *)

Lemma preprocess_ok (prices : list xfloat) (window : Z) :
  (1 <= window)%Z -> exists frame, preprocess prices window = Ok frame.
Proof.
  intros H. unfold preprocess, calculate_rsi, ewm_mean.
  replace (window - 1 <? 0)%Z with false
    by (symmetry; apply Z.ltb_ge; lia).
  cbn [rbind]. eauto.
Qed.

(* ===================================================================== *)
(** ** The balance along an episode *)
(* ===================================================================== *)

Lemma finite_row_price (l : list Row) (i : Z) (r : Row) :
  Forall finite_row l -> iloc l i = Ok r -> exists q, price r = Fin q.
Proof.
  intros HF Hi. apply iloc_In in Hi.
  rewrite Forall_forall in HF. destruct (HF _ Hi) as ((q & Hq) & _). eauto.
Qed.

(** One step inside the data of a finite series, on a finite balance: the
    new balance is the old one plus the mark-to-market P&L minus one
    transaction cost per unit traded. *)
Lemma step_accounting (a : Z) (s : CreditRSIEnv) (b : Q) :
  wf_env s -> Forall finite_row (df s) -> balance s = Fin b ->
  (current_step s + 1 <= max_steps s)%Z ->
  exists r s' p b',
    step a s = (Ok r, s') /\
    mtm_pnl s s' = Fin p /\
    balance s' = Fin b' /\
    b' == b + p
          - dv01_per_unit s * transaction_cost_rate s
            * inject_Z (Z.abs (shares_held s' - shares_held s)) /\
    df s' = df s /\ max_steps s' = max_steps s /\
    current_step s' = (current_step s + 1)%Z /\
    dv01_per_unit s' = dv01_per_unit s /\
    transaction_cost_rate s' = transaction_cost_rate s.
Proof.
  intros [Hm H0] HF Hb Hle.
  destruct (@iloc_in_range _ (df s) (current_step s)) as (prev & Hp & _);
    [lia|].
  destruct (@iloc_in_range _ (df s) (current_step s + 1)) as (cur & Hc & _);
    [lia|].
  destruct (finite_row_price _ HF Hp) as (pp & Hpp).
  destruct (finite_row_price _ HF Hc) as (pc & Hpc).
  pose proof (step_ok a s Hp Hc Hle) as E. cbv zeta in E.
  set (m := mark_to_market s prev cur) in *.
  set (p := inject_Z (shares_held s) * (pc + - pp) * dv01_per_unit s).
  assert (Hpnl : pnl_from_open_positions s (price prev) (price cur) = Fin p).
  { unfold pnl_from_open_positions. rewrite Hpp, Hpc. reflexivity. }
  assert (Hmb : balance m = Fin (b + p)).
  { unfold m, mark_to_market. cbn [balance set_balance set_current_step].
    change (pnl_from_open_positions _ (price prev) (price cur))
      with (pnl_from_open_positions s (price prev) (price cur)).
    rewrite Hpnl, Hb. reflexivity. }
  assert (Hmtm : forall s3, df s3 = df s ->
             current_step s3 = (current_step s + 1)%Z ->
             mtm_pnl s s3 = Fin p).
  { intros s3 Hd Hs. unfold mtm_pnl, price_at. rewrite Hd, Hs, Hp, Hc.
    rewrite Hpp, Hpc. reflexivity. }
  destruct (transaction_logic_cases a m) as [T | (d & Hd & T)];
    rewrite T in E; cbn [snd] in E;
    do 2 eexists; exists p; eexists;
    (split; [exact E|]);
    cbn [df max_steps current_step dv01_per_unit transaction_cost_rate
         balance shares_held set_episode_history set_shares_held
         set_balance];
    (split; [apply Hmtm; reflexivity|]).
  - split; [exact Hmb|]. split; [|repeat split].
    unfold m, mark_to_market.
    cbn [shares_held set_balance set_current_step].
    rewrite Z.sub_diag. cbn [Z.abs inject_Z]. ring.
  - rewrite Hmb. split; [reflexivity|]. split; [|repeat split].
    unfold m, mark_to_market.
    cbn [shares_held set_balance set_current_step dv01_per_unit
         transaction_cost_rate].
    replace (shares_held s + d - shares_held s)%Z with d by lia.
    destruct Hd as [-> | ->]; cbn [Z.abs inject_Z]; ring.
Qed.

(** A run that stays inside the data of a finite series returns, and its
    balance is the starting balance plus the P&L of the trace minus one
    transaction cost per executed trade. *)
Lemma run_accounting (actions : list Z) :
  forall (s : CreditRSIEnv) (b : Q),
    wf_env s -> Forall finite_row (df s) -> balance s = Fin b ->
    (current_step s + len actions <= max_steps s)%Z ->
    exists rets s' p b',
      run actions s = (Ok rets, s') /\
      sum_pnl (trace actions s) = Fin p /\
      balance s' = Fin b' /\
      b' == b + p
            - dv01_per_unit s * transaction_cost_rate s
              * inject_Z (executed_trades (trace actions s)).
Proof.
  induction actions as [|a rest IH]; intros s b Hwf HF Hb Hle.
  - exists [], s, 0, b. cbn. repeat split; try assumption. ring.
  - assert (Hlen : len (a :: rest) = (len rest + 1)%Z)
      by (unfold len; cbn [length]; lia).
    rewrite Hlen in Hle.
    assert (0 <= len rest)%Z by (unfold len; lia).
    destruct (@step_accounting a s b Hwf HF Hb) as
      (r & s1 & p1 & b1 & Es & Ep & Eb & Eq1 & Edf & Ems & Ecs & Edv & Etc);
      [lia|].
    destruct (IH s1 b1) as (rets & s2 & p2 & b2 & Er & Esum & Eb2 & Eq2).
    + destruct Hwf as [Hm H0]. split; [rewrite Ems, Edf; exact Hm | lia].
    + rewrite Edf; exact HF.
    + exact Eb.
    + rewrite Ecs, Ems. lia.
    + exists (r :: rets), s2, (p1 + p2), b2.
      cbn [run trace]. unfold bind at 1. rewrite Es. cbn [snd].
      unfold bind at 1. rewrite Er. unfold ret.
      split; [reflexivity|].
      assert (Ht : exists t, trace rest s1 = s1 :: t)
        by (destruct rest; cbn [trace]; eauto).
      destruct Ht as (t & Ht). rewrite Ht in *.
      change (sum_pnl (s :: s1 :: t))
        with (xadd (mtm_pnl s s1) (sum_pnl (s1 :: t))).
      change (executed_trades (s :: s1 :: t))
        with (Z.abs (shares_held s1 - shares_held s)
              + executed_trades (s1 :: t))%Z.
      rewrite Ep, Esum.
      split; [reflexivity|]. split; [exact Eb2|].
      rewrite Eq2, Eq1, Edv, Etc, inject_Z_plus. ring.
Qed.

(** C1 (amended).  In exact arithmetic: after [reset], for every finite
    series and every sequence of valid actions that stays before the end
    of the data, the run returns and the balance it leaves is
    [initial_balance] plus the sum of the mark-to-market P&L of the steps
    (position held times spread move times the CS01 per unit) minus the
    transaction cost per unit (CS01 times the cost rate) times the number
    of executed trades.  The equality is that of the numbers without
    rounding ([xequiv] on the rationals of the model): the code adds and
    subtracts step by step in binary64, and its balance agrees with the
    closed form up to the rounding of those operations only. *)
Theorem balance_accounting (Rng : Type) (randint : Z -> Z -> Rng -> Z * Rng)
    (seed : option Z) (g g' : Rng) (prices : list xfloat) (window : Z)
    (ib rate dv : Q) (env env0 env1 : CreditRSIEnv) (o : Obs * Info)
    (actions : list Z) :
  Forall finite prices ->
  init prices window ib rate dv = Ok env ->
  reachable env env0 ->
  reset randint seed g env0 = ((Ok o, env1), g') ->
  Forall valid_action actions ->
  (0 <= current_step env1)%Z ->
  (current_step env1 + len actions <= max_steps env1)%Z ->
  exists rets env2,
    run actions env1 = (Ok rets, env2) /\
    xequiv (balance env2)
      (xsub (xadd (Fin ib) (sum_pnl (trace actions env1)))
         (xmul (Fin (dv * rate))
            (of_Z (executed_trades (trace actions env1))))).
Proof.
  intros HP Hinit Hreach Hr _ H0 Hle.
  destruct (@init_facts _ _ _ _ _ _ Hinit)
    as (Im & Iib & Idv & Irate & _ & Ipre).
  destruct (@preprocess_finite _ _ _ HP Ipre) as [HF _].
  assert (Hreach1 : reachable env env1).
  { replace env1 with (snd (fst (reset randint seed g env0)))
      by (rewrite Hr; reflexivity).
    now apply reach_reset. }
  destruct (reachable_config Hreach1) as (Cdf & Cm & _ & _ & Cdv & Crate).
  pose proof (@reset_state _ randint seed g env0
                (reset_ok_valid_seed _ _ _ _ Hr)) as R. cbv zeta in R.
  rewrite Hr in R. cbn [fst snd] in R. destruct R as (Rb & _).
  destruct (reachable_config Hreach) as (_ & _ & _ & Cib & _).
  rewrite Cib, Iib in Rb.
  assert (Hwf : wf_env env1) by (split; [rewrite Cm, Cdf; exact Im | exact H0]).
  rewrite <- Cdf in HF.
  destruct (@run_accounting actions env1 ib Hwf HF Rb Hle)
    as (rets & env2 & p & b' & Er & Ep & Eb & Eq).
  exists rets, env2. split; [exact Er|].
  rewrite Eb, Ep. unfold of_Z.
  cbn [xmul xadd xsub xneg xequiv].
  rewrite Eq, Cdv, Crate, Idv, Irate. ring.
Qed.

(* ===================================================================== *)
(** ** The start index of an episode *)
(* ===================================================================== *)

(** On a series long enough for a drawn start, the start index that
    [reset] selects is the draw of the [random] module on its current
    state; the seed does not enter it. *)
Lemma reset_start_index (Rng : Type) (randint : Z -> Z -> Rng -> Z * Rng)
    (seed : option Z) (g : Rng) (env : CreditRSIEnv) :
  valid_seed seed ->
  (window env + 1 <= max_steps env - 100)%Z ->
  current_step (snd (fst (reset randint seed g env)))
    = fst (randint (window env + 1) (max_steps env - 100) g)%Z /\
  snd (reset randint seed g env)
    = snd (randint (window env + 1) (max_steps env - 100) g)%Z.
Proof.
  intros Hseed H. unfold reset. rewrite (@super_reset_valid seed env Hseed).
  destruct seed; cbn [window max_steps set_np_random set_balance
                      set_shares_held set_episode_history];
    (replace (max_steps env - 100 <? window env + 1)%Z with false
       by (symmetry; apply Z.ltb_ge; lia));
    destruct (randint _ _ g) as [start g1];
    unfold _get_obs, bind, self, lift, ret;
    cbn [df current_step set_current_step];
    destruct (iloc _ _); cbn; split; reflexivity.
Qed.

(** C6 (the code departs from the claim).  Two calls of [reset] with the
    same seed (a seed that gymnasium accepts) select the first and the
    second draw of the [random] module, which the seed never reaches:
    whenever two successive draws differ, so do the two start indexes. *)
Theorem reset_same_seed_different_start (Rng : Type)
    (randint : Z -> Z -> Rng -> Z * Rng) (seed : option Z) (g : Rng)
    (env : CreditRSIEnv) :
  let lo := (window env + 1)%Z in
  let hi := (max_steps env - 100)%Z in
  let first := reset randint seed g env in
  let second := reset randint seed (snd first) (snd (fst first)) in
  valid_seed seed ->
  (lo <= hi)%Z ->
  fst (randint lo hi g) <> fst (randint lo hi (snd (randint lo hi g))) ->
  current_step (snd (fst first)) <> current_step (snd (fst second)).
Proof.
  intros lo hi first second Hseed Hle Hdiff.
  destruct (@reset_start_index _ randint seed g env Hseed Hle) as [E1 Eg].
  pose proof (@reset_state _ randint seed g env Hseed) as R. cbv zeta in R.
  destruct R as (_ & _ & _ & _ & _ & Rm & Rw & _).
  fold first in E1, Eg, Rm, Rw.
  destruct (@reset_start_index _ randint seed (snd first) (snd (fst first))
              Hseed)
    as [E2 _]; [rewrite Rm, Rw; exact Hle|].
  fold second in E2. rewrite E1, E2, Rm, Rw, Eg. exact Hdiff.
Qed.

(* ===================================================================== *)
(** ** After the end of an episode *)
(* ===================================================================== *)

(** C8 (amended).  The object keeps no termination flag, so [step] acts
    by the position alone: before the last row it returns and advances
    [current_step], whatever the steps before it reported; once
    [current_step] is past the last row, every further [step] raises
    IndexError and leaves the object as it is.  [reset] with a seed that
    gymnasium accepts (none, or an integer that is not negative), from
    any state, puts [balance] back to [initial_balance], [shares_held] to
    0 and the history to empty; with a negative seed it raises
    [gymnasium.error.Error] and leaves the object as it is. *)
Theorem step_by_position_until_reset (Rng : Type)
    (randint : Z -> Z -> Rng -> Z * Rng) (seed : option Z) (g : Rng)
    (a : Z) (s : CreditRSIEnv) :
  wf_env s ->
  ((current_step s < max_steps s)%Z ->
     exists r s', step a s = (Ok r, s') /\
                  current_step s' = (current_step s + 1)%Z) /\
  ((max_steps s < current_step s)%Z -> step a s = (Raise IndexError, s)) /\
  (valid_seed seed ->
   let s' := snd (fst (reset randint seed g s)) in
   balance s' = Fin (initial_balance s) /\
   shares_held s' = 0%Z /\
   episode_history s' = []) /\
  (forall n : Z,
     (n < 0)%Z ->
     reset randint (Some n) g s = ((Raise GymnasiumError, s), g)).
Proof.
  intros [Hm H0]. split; [|split].
  - intros Hlt.
    destruct (@iloc_in_range _ (df s) (current_step s)) as (prev & Hp & _);
      [lia|].
    destruct (@iloc_in_range _ (df s) (current_step s + 1))
      as (cur & Hc & _); [lia|].
    pose proof (@step_ok a s prev cur Hp Hc ltac:(lia)) as E. cbv zeta in E.
    do 2 eexists. split; [exact E|].
    cbn [current_step set_episode_history].
    pose proof (transaction_logic_frame a (mark_to_market s prev cur)) as F.
    cbv zeta in F. destruct F as (_ & _ & Fcs & _). exact Fcs.
  - intros Hgt. apply step_past_end. lia.
  - split.
    + intros Hseed.
      pose proof (@reset_state _ randint seed g s Hseed) as R.
      cbv zeta in R. destruct R as (Rb & Rs & Rh & _). cbv zeta. auto.
    + intros n Hn. now apply reset_invalid_seed.
Qed.

(* ===================================================================== *)
(** ** Concrete episodes *)
(* ===================================================================== *)

(** On a series that only rises the average loss is 0 and the average
    gain is not: rs is infinite, 100 / (1 + rs) is 0, and the indicator is
    100 from the first row with enough periods on; the rows before it
    hold the fill value 50. *)
Example rsi_of_rising_series :
  calculate_rsi (map of_Z [1; 2; 3; 4]%Z) 2
    = Ok [Fin 50; Fin 50; Fin 100; Fin 100].
Proof. vm_compute. reflexivity. Qed.

(** On a constant series both averages are 0: rs is NaN and the
    indicator is filled with 50. *)
Example rsi_of_constant_series :
  calculate_rsi (flat_prices 4) 2 = Ok [Fin 50; Fin 50; Fin 50; Fin 50].
Proof. vm_compute. reflexivity. Qed.

(** A window below one period is rejected by pandas. *)
Example rsi_of_window_zero :
  calculate_rsi sample_prices 0 = Raise ValueError.
Proof. reflexivity. Qed.

(** With initial_balance 10000, CS01 100000 and cost rate 0.0005 the cost
    per unit is 50: buying on an unchanged spread leaves 9950 and one
    unit with reward 0; holding over a rise of 1 bp then pays 100000. *)
Example buy_then_hold_over_a_rise :
  exists env0,
    init (map of_Z [100; 100; 100; 100; 101; 101]%Z) 1 10000 (5 # 10000)
      100000 = Ok env0 /\
    let env1 := snd (fst (reset counter_randint None 0%Z env0)) in
    let s1 := step 1 env1 in
    let s2 := step 0 (snd s1) in
    (exists r1, fst s1 = Ok r1 /\ xequiv (reward r1) (Fin 0)) /\
    xequiv (balance (snd s1)) (Fin 9950) /\
    shares_held (snd s1) = 1%Z /\
    (exists r2, fst s2 = Ok r2 /\ xequiv (reward r2) (Fin 100000)) /\
    xequiv (balance (snd s2)) (Fin 109950).
Proof.
  exists_returned
    (init (map of_Z [100; 100; 100; 100; 101; 101]%Z) 1 10000 (5 # 10000)
       100000).
  split; [vm_compute; reflexivity|].
  vm_compute. repeat split; eexists; split; reflexivity.
Qed.

(** C2 (the code departs from the claim).  With the default
    configuration, on a constant series of 30 rows, eleven BuyProtection
    actions after [reset] all execute: no step raises, none reports
    [done], and [shares_held] ends at 11, above the 10 units that
    [__init__] gives as the bound of the position in the observation
    space. *)
Theorem eleven_buys_exceed_max_shares :
  exists env0,
    init (flat_prices 30) 14 10000 (5 # 10000) 100000 = Ok env0 /\
    let env1 := snd (fst (reset counter_randint None 0%Z env0)) in
    let out := run (repeat 1%Z 11) env1 in
    (exists rets, fst out = Ok rets /\ map done rets = repeat false 11) /\
    shares_held (snd out) = 11%Z /\
    (_max_shares < shares_held (snd out))%Z /\
    (exists o, fst (_get_obs (snd out)) = Ok o /\
       xgt (obs_shares_held o)
           (obs_shares_held (snd (observation_space (snd out)))) = true).
Proof.
  exists_returned (init (flat_prices 30) 14 10000 (5 # 10000) 100000).
  split; [vm_compute; reflexivity|].
  vm_compute. split; [eexists; split; reflexivity|].
  split; [reflexivity|]. split; [reflexivity|].
  eexists; split; reflexivity.
Qed.

(** C7 (counterexample).  On the falling series, after [reset], the call
    [step(3)] returns normally and moves [current_step] from 2 to 3: it
    neither fails nor leaves the object untouched. *)
Lemma step_accepts_action_3 :
  exists env0,
    init falling_prices 1 10000 (5 # 10000) 100000 = Ok env0 /\
    let env1 := snd (fst (reset counter_randint None 0%Z env0)) in
    (exists r, fst (step 3 env1) = Ok r) /\
    current_step env1 = 2%Z /\
    current_step (snd (step 3 env1)) = 3%Z.
Proof.
  exists_returned (init falling_prices 1 10000 (5 # 10000) 100000).
  split; [vm_compute; reflexivity|].
  vm_compute. split; [eexists; reflexivity|]. split; reflexivity.
Qed.

(** C8 (counterexample).  On the falling series a long unit is bought,
    the next step reports [done] (ruin), and the step after it, with no
    [reset] in between, still returns: it moves [current_step] from 4 to 5
    and takes the balance from -90050 to -190050. *)
Lemma step_after_done_still_mutates :
  exists env0,
    init falling_prices 1 10000 (5 # 10000) 100000 = Ok env0 /\
    let env1 := snd (fst (reset counter_randint None 0%Z env0)) in
    let env2 := snd (step 1 env1) in
    let env3 := snd (step 0 env2) in
    let env4 := snd (step 0 env3) in
    (exists r2, fst (step 0 env2) = Ok r2 /\ done r2 = true) /\
    (exists r3, fst (step 0 env3) = Ok r3) /\
    (current_step env3 = 4 /\ current_step env4 = 5)%Z /\
    xequiv (balance env3) (Fin (-90050)) /\
    xequiv (balance env4) (Fin (-190050)).
Proof.
  exists_returned (init falling_prices 1 10000 (5 # 10000) 100000).
  split; [vm_compute; reflexivity|].
  vm_compute. split; [eexists; split; reflexivity|].
  split; [eexists; reflexivity|]. repeat split.
Qed.

(** C1 at work: on the series 100, 101, 103, 102, 102, 105, 104 the
    actions buy, hold, sell from row 2 leave 10000 + 300000 - 2 * 50. *)
Lemma balance_accounting_witness :
  exists env0,
    init sample_prices 1 10000 (5 # 10000) 100000 = Ok env0 /\
    let env1 := snd (fst (reset counter_randint None 0%Z env0)) in
    exists rets env2,
      run [1; 0; 2]%Z env1 = (Ok rets, env2) /\
      xequiv (balance env2)
        (xsub (xadd (Fin 10000) (sum_pnl (trace [1; 0; 2]%Z env1)))
           (xmul (Fin (100000 * (5 # 10000)))
              (of_Z (executed_trades (trace [1; 0; 2]%Z env1))))) /\
      xequiv (balance env2) (Fin 309900).
Proof.
  exists_returned (init sample_prices 1 10000 (5 # 10000) 100000).
  split; [vm_compute; reflexivity|].
  match goal with
  | |- let env1 := snd (fst (reset _ _ _ ?e0)) in _ =>
      let r := eval vm_compute in (reset counter_randint None 0%Z e0) in
      match r with
      | ((Ok ?o, ?e1), ?g1) =>
          pose proof (@balance_accounting Z counter_randint None 0%Z g1
                        sample_prices 1 10000 (5 # 10000) 100000
                        e0 e0 e1 o [1; 0; 2]%Z) as H
      end
  end.
  specialize (H ltac:(unfold sample_prices, of_Z; cbn [map]; finite_column)).
  specialize (H ltac:(vm_compute; reflexivity)).
  specialize (H ltac:(apply reach_here)).
  specialize (H ltac:(vm_compute; reflexivity)).
  specialize (H ltac:(valid_actions)).
  specialize (H ltac:(cbn; lia)).
  specialize (H ltac:(cbn; lia)).
  destruct H as (rets & env2 & E & B).
  cbv zeta. exists rets, env2.
  split; [vm_compute in E |- *; exact E|].
  split; [vm_compute in B |- *; exact B|].
  apply (f_equal snd) in E. cbn [snd] in E. rewrite <- E.
  vm_compute. reflexivity.
Defined.

(** C3 at work: four holds after [reset] bring a series of 7 rows to its
    last row (6); there [step(2)] raises IndexError and leaves
    [current_step] at 7. *)
Lemma step_at_last_row_raises_witness :
  exists env0,
    init sample_prices 1 10000 (5 # 10000) 100000 = Ok env0 /\
    let env1 := snd (fst (reset counter_randint None 0%Z env0)) in
    let s := snd (run [0; 0; 0; 0]%Z env1) in
    current_step s = 6%Z /\
    step 2 s = (Raise IndexError, set_current_step 7 s).
Proof.
  exists_returned (init sample_prices 1 10000 (5 # 10000) 100000).
  split; [vm_compute; reflexivity|].
  match goal with
  | |- let env1 := ?t1 in let s := @?t env1 in _ =>
      let s := eval vm_compute in (t t1) in
      pose proof (@step_at_last_row_raises 2 s) as H
  end.
  specialize (H ltac:(split; [reflexivity | cbn; lia])).
  specialize (H ltac:(reflexivity)).
  split; [vm_compute; reflexivity|].
  by_evaluation H.
Defined.

(** C4 at work: a long unit over a fall of 1 bp ends below zero; the step
    reports [done] with the reward -100000 - 5000. *)
Lemma step_ruin_then_drawdown_witness :
  exists env0,
    init falling_prices 1 10000 (5 # 10000) 100000 = Ok env0 /\
    let s := snd (step 1 (snd (fst (reset counter_randint None 0%Z env0)))) in
    exists r s',
      step 0 s = (Ok r, s') /\
      xlt (balance s') (Fin 0) = true /\
      done r = true /\
      xequiv (reward r) (Fin (-105000)).
Proof.
  exists_returned (init falling_prices 1 10000 (5 # 10000) 100000).
  split; [vm_compute; reflexivity|].
  match goal with
  | |- let s := ?t in _ =>
      let s := eval vm_compute in t in
      pose proof (@step_ruin_then_drawdown 0 s) as H
  end.
  specialize (H ltac:(split; [reflexivity | cbn; lia])).
  specialize (H ltac:(cbn; lia)).
  destruct H as (r & s' & E & Hruin & _).
  exists r, s'. cbv zeta in Hruin.
  assert (B : xlt (balance s') (Fin 0) = true).
  { apply (f_equal snd) in E. cbn [snd] in E. rewrite <- E.
    vm_compute. reflexivity. }
  destruct (Hruin B) as [D R].
  split; [|split; [exact B | split; [exact D|]]].
  - vm_compute in E |- *. exact E.
  - rewrite R. apply (f_equal snd) in E. cbn [snd] in E. rewrite <- E.
    vm_compute. reflexivity.
Defined.

(** C5 at work: closing the long unit with the balance at -90050 still
    executes: the cost is deducted and [shares_held] goes from 1 to 0. *)
Lemma step_sell_protection_witness :
  exists env0,
    init falling_prices 1 10000 (5 # 10000) 100000 = Ok env0 /\
    let s1 := snd (step 1 (snd (fst (reset counter_randint None 0%Z env0)))) in
    let s := snd (step 0 s1) in
    exists r s',
      step 2 s = (Ok r, s') /\
      shares_held s = 1%Z /\ shares_held s' = 0%Z /\
      xequiv (balance s') (Fin (-190100)).
Proof.
  exists_returned (init falling_prices 1 10000 (5 # 10000) 100000).
  split; [vm_compute; reflexivity|].
  match goal with
  | |- let s1 := ?t1 in let s := @?t s1 in _ =>
      let s := eval vm_compute in (t t1) in
      pose proof (@step_sell_protection s) as H
  end.
  specialize (H ltac:(split; [reflexivity | cbn; lia])).
  specialize (H ltac:(cbn; lia)).
  destruct H as (r & s' & E & Hlong & _).
  exists r, s'. cbv zeta in Hlong.
  destruct (Hlong ltac:(cbn; lia)) as [B S].
  split; [|split; [|split]].
  - vm_compute in E |- *. exact E.
  - vm_compute. reflexivity.
  - rewrite S. vm_compute. reflexivity.
  - rewrite B. apply (f_equal snd) in E. cbn [snd] in E. rewrite <- E.
    vm_compute. reflexivity.
Defined.

(** C6 at work: on a constant series of 110 rows, two calls of
    [reset(seed=42)] start at 2 and at 3 when the [random] module is the
    counting generator. *)
Lemma reset_same_seed_different_start_witness :
  exists env,
    init (flat_prices 110) 1 10000 (5 # 10000) 100000 = Ok env /\
    let first := reset counter_randint (Some 42%Z) 0%Z env in
    let second :=
      reset counter_randint (Some 42%Z) (snd first) (snd (fst first)) in
    current_step (snd (fst first)) <> current_step (snd (fst second)).
Proof.
  exists_returned (init (flat_prices 110) 1 10000 (5 # 10000) 100000).
  split; [vm_compute; reflexivity|].
  apply reset_same_seed_different_start.
  - cbn. lia.
  - cbn. lia.
  - vm_compute. discriminate.
Defined.

(** C7 at work: [step(3)] on the reset object behaves as [step(0)]. *)
Lemma step_other_action_is_hold_witness :
  exists env0,
    init falling_prices 1 10000 (5 # 10000) 100000 = Ok env0 /\
    let s := snd (fst (reset counter_randint None 0%Z env0)) in
    exists r s' h',
      step 3 s = (Ok r, s') /\ step 0 s = (Ok r, h') /\
      current_step s' = (current_step s + 1)%Z /\
      shares_held s' = shares_held s.
Proof.
  exists_returned (init falling_prices 1 10000 (5 # 10000) 100000).
  split; [vm_compute; reflexivity|].
  match goal with
  | |- let s := ?t in _ =>
      let s := eval vm_compute in t in
      pose proof (@step_other_action_is_hold 3 s) as H
  end.
  specialize (H ltac:(lia) ltac:(lia)).
  specialize (H ltac:(split; [reflexivity | cbn; lia])).
  specialize (H ltac:(cbn; lia)).
  destruct H as (r & s' & h' & E & E0 & C & S & _).
  exists r, s', h'.
  split; [vm_compute in E |- *; exact E|].
  split; [vm_compute in E0 |- *; exact E0|].
  split; [rewrite C | rewrite S]; vm_compute; reflexivity.
Defined.

(** C8 at work: on the falling series the object left by the ruin step
    stands on row 4 of 6, and a further [step] moves it to row 5; on the
    rising and falling series the object left by the end-of-data step
    stands on row 7, where [step] raises and changes nothing; [reset]
    restores the account. *)
Lemma step_by_position_until_reset_witness :
  (exists env0,
     init falling_prices 1 10000 (5 # 10000) 100000 = Ok env0 /\
     let env1 := snd (fst (reset counter_randint None 0%Z env0)) in
     let s := snd (run [1; 0]%Z env1) in
     exists r s', step 0 s = (Ok r, s') /\ current_step s' = 5%Z) /\
  (exists env0,
     init sample_prices 1 10000 (5 # 10000) 100000 = Ok env0 /\
     let env1 := snd (fst (reset counter_randint None 0%Z env0)) in
     let s := snd (run [0; 0; 0; 0; 0]%Z env1) in
     step 1 s = (Raise IndexError, s) /\
     balance (snd (fst (reset counter_randint None 0%Z s))) = Fin 10000).
Proof.
  split.
  - exists_returned (init falling_prices 1 10000 (5 # 10000) 100000).
    split; [vm_compute; reflexivity|].
    match goal with
    | |- let env1 := ?t1 in let s := @?t env1 in _ =>
        let s := eval vm_compute in (t t1) in
        destruct (@step_by_position_until_reset Z counter_randint None 0%Z
                    0%Z s ltac:(split; [reflexivity | cbn; lia]))
          as (H & _)
    end.
    destruct (H ltac:(cbn; lia)) as (r & s' & E & C).
    exists r, s'. split; [vm_compute in E |- *; exact E|].
    rewrite C. reflexivity.
  - exists_returned (init sample_prices 1 10000 (5 # 10000) 100000).
    split; [vm_compute; reflexivity|].
    match goal with
    | |- let env1 := ?t1 in let s := @?t env1 in _ =>
        let s := eval vm_compute in (t t1) in
        destruct (@step_by_position_until_reset Z counter_randint None 0%Z
                    1%Z s ltac:(split; [reflexivity | cbn; lia]))
          as (_ & H & R & _)
    end.
    specialize (H ltac:(cbn; lia)). specialize (R I).
    cbv zeta in R. destruct R as (R & _).
    split; [vm_compute in H |- *; exact H|].
    vm_compute in R |- *. exact R.
Defined.

(* ===================================================================== *)
(** ** Every call of step *)
(* ===================================================================== *)

Lemma iloc_ok_lt {A} (l : list A) (i : Z) (a : A) :
  iloc l i = Ok a -> (i < len l)%Z.
Proof.
  unfold iloc. fold (len l).
  destruct (Z.ltb_spec i 0) as [Hn | Hp].
  - intros _. unfold len. lia.
  - destruct (Z.leb_spec 0 i); [|lia].
    destruct (Z.ltb_spec i (len l)); [lia | discriminate].
Qed.

(** The object that a call of [step] leaves: the one it found (the row
    under [current_step] is missing), that one with [current_step]
    advanced (the end of the data, or the next row missing), or the one a
    complete step leaves. *)
Lemma step_state_cases (a : Z) (s : CreditRSIEnv) :
  (iloc (df s) (current_step s) = Raise IndexError /\
   step a s = (Raise IndexError, s)) \/
  (exists prev, iloc (df s) (current_step s) = Ok prev /\
     snd (step a s) = set_current_step (current_step s + 1) s) \/
  (exists prev cur,
     iloc (df s) (current_step s) = Ok prev /\
     iloc (df s) (current_step s + 1) = Ok cur /\
     (current_step s + 1 <= max_steps s)%Z /\
     exists h,
       snd (step a s) =
         set_episode_history h
           (snd (transaction_logic a (mark_to_market s prev cur)))).
Proof.
  destruct (iloc (df s) (current_step s)) as [prev|e] eqn:Hp.
  - right.
    destruct (Z.leb_spec (current_step s + 1) (max_steps s)) as [Hle | Hgt].
    + destruct (iloc (df s) (current_step s + 1)) as [cur|e] eqn:Hc.
      * right. exists prev, cur. repeat split; try assumption.
        pose proof (step_ok a s Hp Hc Hle) as E. cbv zeta in E.
        rewrite E. cbn [snd]. eauto.
      * left. exists prev. split; [reflexivity|].
        unfold step, bind at 1, self at 1. unfold bind at 1, lift at 1.
        rewrite Hp. unfold bind at 1, assign at 1.
        unfold bind at 1, self at 1.
        cbn [current_step max_steps set_current_step].
        replace (current_step s + 1 >? max_steps s)%Z with false
          by (symmetry; rewrite Z.gtb_ltb; apply Z.ltb_ge; lia).
        unfold bind at 1, lift at 1. cbn [df set_current_step].
        rewrite Hc. reflexivity.
    + left. exists prev. split; [reflexivity|].
      unfold step, bind at 1, self at 1. unfold bind at 1, lift at 1.
      rewrite Hp. unfold bind at 1, assign at 1.
      unfold bind at 1, self at 1.
      cbn [current_step max_steps set_current_step].
      replace (current_step s + 1 >? max_steps s)%Z with true
        by (symmetry; rewrite Z.gtb_ltb; apply Z.ltb_lt; lia).
      unfold _get_obs, bind, self, lift, ret.
      cbn [df current_step set_current_step].
      destruct (iloc (df s) (current_step s + 1)); reflexivity.
  - left. assert (e = IndexError) as ->.
    { unfold iloc in Hp. destruct (_ && _)%bool; [|congruence].
      destruct (nth_error _ _); congruence. }
    split; [reflexivity|].
    unfold step, bind at 1, self at 1. unfold bind at 1, lift at 1.
    rewrite Hp. reflexivity.
Qed.

(** X1.  Whatever the action and the state, and whether the call returns
    or raises, one call of [step] changes [shares_held] by at most one
    unit. *)
Theorem step_moves_position_by_at_most_one (a : Z) (s : CreditRSIEnv) :
  (Z.abs (shares_held (snd (step a s)) - shares_held s) <= 1)%Z.
Proof.
  destruct (step_state_cases a s)
    as [[_ E] | [(prev & _ & E) | (prev & cur & _ & _ & _ & h & E)]];
    rewrite E; cbn [snd shares_held set_current_step set_episode_history].
  - lia.
  - lia.
  - destruct (transaction_logic_cases a (mark_to_market s prev cur))
      as [T | (d & Hd & T)]; rewrite T;
      cbn [snd shares_held set_shares_held set_balance mark_to_market
           set_current_step]; lia.
Qed.

(** X2.  One call of [step] leaves [current_step] where it was or one row
    further, and an index that is at most the length of the series stays
    so: the index can reach one past the last row, never more. *)
Theorem step_index_advances_within_series (a : Z) (s : CreditRSIEnv) :
  (current_step s <= len (df s))%Z ->
  let s' := snd (step a s) in
  (current_step s <= current_step s' <= current_step s + 1)%Z /\
  (current_step s' <= len (df s'))%Z.
Proof.
  intros Hle. cbv zeta.
  destruct (step_config a s) as (Cdf & _). rewrite Cdf.
  destruct (step_state_cases a s)
    as [[_ E] | [(prev & Hp & E) | (prev & cur & _ & Hc & _ & h & E)]];
    rewrite E; cbn [snd current_step set_current_step set_episode_history].
  - lia.
  - apply iloc_ok_lt in Hp. lia.
  - pose proof (transaction_logic_frame a (mark_to_market s prev cur)) as F.
    cbv zeta in F. destruct F as (_ & _ & Fcs & _). rewrite Fcs.
    cbn [current_step mark_to_market set_balance set_current_step].
    apply iloc_ok_lt in Hc. lia.
Qed.

(* ===================================================================== *)
(** ** Trades and what a step reports *)
(* ===================================================================== *)

(** X3.  In a step that returns, BuyProtection (action 1) executes exactly
    when the balance after the mark-to-market covers the transaction
    cost: it then deducts the cost and adds one unit, whatever the size of
    the position; otherwise the marked-to-market balance and
    [shares_held] stay. *)
Theorem step_buy_protection (s : CreditRSIEnv) :
  wf_env s -> (current_step s < max_steps s)%Z ->
  exists r s',
    step 1 s = (Ok r, s') /\
    let marked := xadd (balance s) (mtm_pnl s s') in
    let cost := transaction_cost_per_unit s in
    (xge marked cost = true ->
       balance s' = xsub marked cost /\
       shares_held s' = (shares_held s + 1)%Z) /\
    (xge marked cost = false ->
       balance s' = marked /\ shares_held s' = shares_held s).
Proof.
  intros Hwf Hlt.
  destruct (step_inside 1 Hwf Hlt) as (prev & cur & _ & _ & E & P).
  cbv zeta in E, P.
  eexists; eexists; split; [exact E|].
  cbv zeta. rewrite P.
  cbn [balance shares_held set_episode_history].
  unfold transaction_logic, bind, self. cbn [Z.eqb Pos.eqb].
  cbn [shares_held balance mark_to_market set_balance set_current_step].
  change (transaction_cost_per_unit _) with (transaction_cost_per_unit s).
  change (pnl_from_open_positions _ (price prev) (price cur))
    with (pnl_from_open_positions s (price prev) (price cur)).
  destruct (xge _ (transaction_cost_per_unit s)).
  - split; intros; [split; reflexivity | discriminate].
  - split; intros; [discriminate | split; reflexivity].
Qed.

Lemma affordable_leaves_nonnegative (m : xfloat) (c : Q) :
  xge m (Fin c) = true -> xlt (xsub m (Fin c)) (Fin 0) = false.
Proof.
  unfold xge. destruct m as [q| | |]; cbn; try discriminate; try reflexivity.
  intros H. apply Qle_bool_iff in H.
  apply negb_false_iff. apply Qle_bool_iff. lra.
Qed.

(** X4.  A trade that opens or adds to a position (a buy, or a sell on a
    flat or short position) executes only when the balance covers its
    cost, so the step in which it executes never ends with a balance
    below zero: the ruin case can only follow a mark-to-market loss with
    no such trade, or the cost of closing a long unit. *)
Theorem opening_trade_never_ruins (a : Z) (s : CreditRSIEnv) :
  wf_env s -> (current_step s < max_steps s)%Z ->
  (a = 1 \/ (a = 2 /\ shares_held s <= 0))%Z ->
  exists r s',
    step a s = (Ok r, s') /\
    (shares_held s' <> shares_held s ->
       xlt (balance s') (Fin 0) = false).
Proof.
  intros Hwf Hlt Ha.
  destruct (step_inside a Hwf Hlt) as (prev & cur & _ & _ & E & _).
  cbv zeta in E.
  eexists; eexists; split; [exact E|].
  cbn [balance shares_held set_episode_history].
  unfold transaction_logic, bind, self.
  set (m := mark_to_market s prev cur).
  assert (Hc : transaction_cost_per_unit m
               = Fin (dv01_per_unit s * transaction_cost_rate s))
    by reflexivity.
  assert (Hs : shares_held m = shares_held s) by reflexivity.
  destruct Ha as [-> | [-> Hshort]]; cbn [Z.eqb Pos.eqb].
  - destruct (xge (balance m) (transaction_cost_per_unit m)) eqn:G.
    + intros _. cbn [trade bind assign snd balance set_shares_held
                    set_balance]. unfold trade, bind, assign.
      cbn [snd balance set_shares_held set_balance].
      rewrite Hc in *. now apply affordable_leaves_nonnegative.
    + cbn [ret snd]. unfold ret. cbn [snd]. rewrite Hs. congruence.
  - rewrite Hs.
    replace (shares_held s >? 0)%Z with false
      by (symmetry; rewrite Z.gtb_ltb; apply Z.ltb_ge; lia).
    replace (shares_held s <=? 0)%Z with true
      by (symmetry; apply Z.leb_le; lia).
    cbn [andb].
    destruct (xge (balance m) (transaction_cost_per_unit m)) eqn:G.
    + intros _. unfold trade, bind, assign.
      cbn [snd balance set_shares_held set_balance].
      rewrite Hc in *. now apply affordable_leaves_nonnegative.
    + unfold ret. cbn [snd]. rewrite Hs. congruence.
Qed.

(** What a step inside the data returns and leaves, in terms of the
    object it leaves. *)
Lemma step_report (a : Z) (s : CreditRSIEnv) :
  wf_env s -> (current_step s < max_steps s)%Z ->
  exists r s',
    step a s = (Ok r, s') /\
    wf_env s' /\ same_config s s' /\
    current_step s' = (current_step s + 1)%Z /\
    fst (_get_obs s') = Ok (observation r) /\
    info r = InfoStep (balance s') (shares_held s') (price_at s') /\
    truncated r = false /\
    (done r, reward r) = penalties s' (mtm_pnl s s') /\
    episode_history s' =
      episode_history s ++
        [mkHistoryEntry (current_step s') (price_at s')
           (rsi_at s') a (balance s') (shares_held s')
           (reward r)].
Proof.
  intros Hwf Hlt.
  destruct (step_inside a Hwf Hlt) as (prev & cur & Hp & Hc & E & P).
  cbv zeta in E, P.
  pose proof (transaction_logic_frame a (mark_to_market s prev cur)) as F.
  cbv zeta in F.
  destruct F as (_ & Fdf & Fcs & Fm & Fw & Fib & Fdv & Ftc & Fh & _).
  set (s3 := snd (transaction_logic a (mark_to_market s prev cur))) in *.
  cbn [df current_step max_steps window initial_balance dv01_per_unit
       transaction_cost_rate episode_history mark_to_market set_balance
       set_current_step] in Fdf, Fcs, Fm, Fw, Fib, Fdv, Ftc, Fh.
  destruct Hwf as [Hm H0].
  do 2 eexists. split; [exact E|].
  assert (Hat : forall h, price_at (set_episode_history h s3) = price cur).
  { intros h. unfold price_at. cbn [df current_step set_episode_history].
    now rewrite Fdf, Fcs, Hc. }
  assert (Hrsi : forall h, rsi_at (set_episode_history h s3) = rsi cur).
  { intros h. unfold rsi_at. cbn [df current_step set_episode_history].
    now rewrite Fdf, Fcs, Hc. }
  rewrite P, Hat, Hrsi. unfold wf_env, same_config.
  cbn [df current_step max_steps window initial_balance dv01_per_unit
       transaction_cost_rate episode_history balance shares_held
       set_episode_history observation reward done truncated info obs_rsi].
  split; [split; [rewrite Fm, Fdf; exact Hm | rewrite Fcs; lia]|].
  split; [repeat split; assumption|].
  split; [exact Fcs|].
  split.
  { unfold _get_obs, bind, self, lift, ret.
    cbn [df current_step set_episode_history shares_held balance].
    rewrite Fdf, Fcs, Hc. reflexivity. }
  split; [reflexivity|]. split; [reflexivity|].
  split.
  { unfold penalties. cbn [balance initial_balance set_episode_history].
    destruct (xlt (balance s3) (Fin 0)); [reflexivity|].
    destruct (xlt (balance s3) _); reflexivity. }
  rewrite Fh. reflexivity.
Qed.

(** X5.  What a returning step hands to the caller describes the object
    it leaves: the observation is the one [_get_obs] gives on that object,
    its position, balance and spread components are the new
    [shares_held] and [balance] and the spread of the new row, each cast
    to float32; the info carries the same three values as they are, and
    [truncated] is false. *)
Theorem step_reports_the_state_it_leaves (a : Z) (s : CreditRSIEnv) :
  wf_env s -> (current_step s < max_steps s)%Z ->
  exists r s',
    step a s = (Ok r, s') /\
    fst (_get_obs s') = Ok (observation r) /\
    obs_shares_held (observation r) = float32 (of_Z (shares_held s')) /\
    obs_balance (observation r) = float32 (balance s') /\
    obs_price (observation r) = float32 (price_at s') /\
    info r = InfoStep (balance s') (shares_held s') (price_at s') /\
    truncated r = false.
Proof.
  intros Hwf Hlt.
  destruct (step_report a Hwf Hlt)
    as (r & s' & E & _ & _ & _ & O & I & T & _).
  exists r, s'.
  destruct (get_obs_ok _ O) as (row & Hrow & Eo).
  repeat split; try assumption; rewrite Eo; cbn [obs_map obs_shares_held
    obs_balance obs_price]; try reflexivity.
  unfold price_at. rewrite Hrow. reflexivity.
Qed.

(** X6.  With a non-negative [initial_balance] the two termination tests
    of [step] amount to one threshold: a returning step reports [done]
    exactly when the balance it leaves is below half of
    [initial_balance]; the test against zero only selects the larger
    penalty. *)
Theorem step_done_iff_below_half (a : Z) (s : CreditRSIEnv) :
  wf_env s -> (current_step s < max_steps s)%Z ->
  0 <= initial_balance s ->
  exists r s',
    step a s = (Ok r, s') /\
    done r = xlt (balance s') (Fin (initial_balance s * (1 # 2))).
Proof.
  intros Hwf Hlt Hib.
  destruct (step_report a Hwf Hlt)
    as (r & s' & E & _ & C & _ & _ & _ & _ & D & _).
  exists r, s'. split; [exact E|].
  destruct C as (_ & _ & _ & Cib & _).
  unfold penalties in D. rewrite Cib in D. cbn [xmul] in D.
  destruct (xlt (balance s') (Fin 0)) eqn:R.
  - injection D as -> _. symmetry.
    destruct (balance s') as [b| | |]; cbn in *; try discriminate;
      try reflexivity.
    apply negb_true_iff in R. apply negb_true_iff.
    destruct (Qle_bool 0 b) eqn:R'; [discriminate|].
    destruct (Qle_bool (initial_balance s * (1 # 2)) b) eqn:R2;
      [|reflexivity].
    apply Qle_bool_iff in R2.
    assert (~ 0 <= b) by (intros H; apply Qle_bool_iff in H; congruence).
    lra.
  - destruct (xlt (balance s') (Fin (initial_balance s * (1 # 2))));
      now injection D as -> _.
Qed.

(* ===================================================================== *)
(** ** The history and the rewards of a run *)
(* ===================================================================== *)

Lemma trace_head (actions : list Z) (s : CreditRSIEnv) :
  trace actions s = s :: tl (trace actions s).
Proof. destruct actions; reflexivity. Qed.

Lemma len_cons {A} (a : A) (l : list A) : len (a :: l) = (len l + 1)%Z.
Proof. unfold len. cbn [length]. lia. Qed.

Lemma len_nonneg {A} (l : list A) : (0 <= len l)%Z.
Proof. unfold len. lia. Qed.

(** A run inside the data appends one history entry per step. *)
Lemma run_history_from (actions : list Z) :
  forall s : CreditRSIEnv,
    wf_env s ->
    (current_step s + len actions <= max_steps s)%Z ->
    exists rets s' log,
      run actions s = (Ok rets, s') /\
      episode_history s' = episode_history s ++ log /\
      map h_action log = actions /\
      map h_reward log = map reward rets /\
      map h_step log = map current_step (tl (trace actions s)) /\
      map h_balance log = map balance (tl (trace actions s)) /\
      map h_shares_held log = map shares_held (tl (trace actions s)).
Proof.
  induction actions as [|a rest IH]; intros s Hwf Hle.
  - exists [], s, []. cbn. rewrite app_nil_r. repeat split.
  - rewrite len_cons in Hle. pose proof (len_nonneg rest).
    destruct (@step_report a s Hwf ltac:(lia))
      as (r & s1 & E & Hwf1 & C & Hcs & _ & _ & _ & _ & Hh).
    destruct C as (_ & Cm & _).
    destruct (IH s1 Hwf1 ltac:(rewrite Hcs, Cm; lia))
      as (rets & s2 & log & Er & Eh & La & Lr & Ls & Lb & Lp).
    eexists (r :: rets), s2, (_ :: log).
    cbn [run trace tl]. unfold bind at 1. rewrite E. cbn [snd].
    unfold bind at 1. rewrite Er. unfold ret.
    split; [reflexivity|].
    split; [rewrite Eh, Hh, <- app_assoc; reflexivity|].
    rewrite (trace_head rest s1).
    cbn [map h_action h_reward h_step h_balance h_shares_held].
    rewrite La, Lr, Ls, Lb, Lp. repeat split.
Qed.

(** X7.  After [reset], a run of steps that stays before the end of the
    data leaves in [episode_history] exactly one entry per step, in
    order: the entry of a step records the action taken, the reward
    returned, and the index, balance and position that the step left. *)
Theorem run_history_records_every_step (Rng : Type)
    (randint : Z -> Z -> Rng -> Z * Rng) (seed : option Z) (g g' : Rng)
    (env0 env1 : CreditRSIEnv) (o : Obs * Info) (actions : list Z) :
  reset randint seed g env0 = ((Ok o, env1), g') ->
  wf_env env1 ->
  (current_step env1 + len actions <= max_steps env1)%Z ->
  exists rets env2,
    run actions env1 = (Ok rets, env2) /\
    let log := episode_history env2 in
    let left := tl (trace actions env1) in
    map h_action log = actions /\
    map h_reward log = map reward rets /\
    map h_step log = map current_step left /\
    map h_balance log = map balance left /\
    map h_shares_held log = map shares_held left.
Proof.
  intros Hr Hwf Hle.
  pose proof (@reset_state _ randint seed g env0
                (reset_ok_valid_seed _ _ _ _ Hr)) as R. cbv zeta in R.
  rewrite Hr in R. cbn [fst snd] in R. destruct R as (_ & _ & Rh & _).
  destruct (@run_history_from actions env1 Hwf Hle)
    as (rets & env2 & log & Er & Eh & L).
  exists rets, env2. split; [exact Er|].
  cbv zeta. rewrite Eh, Rh. cbn [app]. exact L.
Qed.

(** The reward of a step on a finite P&L is that P&L less the penalty
    charged on the object the step leaves. *)
Lemma penalties_reward (s' : CreditRSIEnv) (p : Q) :
  exists q, snd (penalties s' (Fin p)) = Fin q /\
            q == p - penalty_charged s'.
Proof.
  unfold penalties, penalty_charged. cbn [xmul].
  destruct (xlt (balance s') (Fin 0)); [|destruct (xlt (balance s') _)];
    cbn [snd xsub xneg xadd]; eexists; (split; [reflexivity | ring]).
Qed.

Lemma run_rewards (actions : list Z) :
  forall (s : CreditRSIEnv) (b acc : Q),
    wf_env s -> Forall finite_row (df s) -> balance s = Fin b ->
    (current_step s + len actions <= max_steps s)%Z ->
    exists rets s' p rw,
      run actions s = (Ok rets, s') /\
      sum_pnl (trace actions s) = Fin p /\
      fold_left (fun t r => xadd t (reward r)) rets (Fin acc) = Fin rw /\
      rw == acc + p - penalties_charged (tl (trace actions s)).
Proof.
  induction actions as [|a rest IH]; intros s b acc Hwf HF Hb Hle.
  - exists [], s, 0, acc. cbn. repeat split. ring.
  - rewrite len_cons in Hle. pose proof (len_nonneg rest).
    destruct (@step_accounting a s b Hwf HF Hb ltac:(lia)) as
      (r & s1 & p1 & b1 & Es & Ep & Eb & _ & Edf & Ems & Ecs & _).
    destruct (@step_report a s Hwf ltac:(lia))
      as (r' & s1' & E' & Hwf1 & _ & _ & _ & _ & _ & D & _).
    rewrite Es in E'. injection E' as <- <-.
    rewrite Ep in D.
    destruct (penalties_reward s1 p1) as (q & Hq & Hq').
    assert (Hrw : reward r = Fin q).
    { rewrite <- Hq, <- D. reflexivity. }
    destruct (IH s1 b1 (acc + q) Hwf1) as (rets & s2 & p2 & rw & Er & Esum & Ef & Erw).
    + rewrite Edf; exact HF.
    + exact Eb.
    + rewrite Ecs, Ems. lia.
    + exists (r :: rets), s2, (p1 + p2), rw.
      cbn [run trace tl]. unfold bind at 1. rewrite Es. cbn [snd].
      unfold bind at 1. rewrite Er. unfold ret.
      split; [reflexivity|].
      rewrite (trace_head rest s1) in *.
      change (sum_pnl (s :: s1 :: tl (trace rest s1)))
        with (xadd (mtm_pnl s s1) (sum_pnl (s1 :: tl (trace rest s1)))).
      rewrite Ep, Esum. split; [reflexivity|].
      cbn [fold_left]. rewrite Hrw. cbn [xadd].
      split; [exact Ef|].
      cbn [tl] in Erw. unfold penalties_charged in *.
      cbn [fold_right]. rewrite Erw, Hq'. ring.
Qed.

Lemma reachable_after_reset (Rng : Type)
    (randint : Z -> Z -> Rng -> Z * Rng) (seed : option Z) (g g' : Rng)
    (env env0 env1 : CreditRSIEnv) (o : result (Obs * Info)) :
  reachable env env0 ->
  reset randint seed g env0 = ((o, env1), g') ->
  reachable env env1.
Proof.
  intros Hreach Hr.
  replace env1 with (snd (fst (reset randint seed g env0)))
    by (rewrite Hr; reflexivity).
  now apply reach_reset.
Qed.

(** X8.  Transaction costs never enter the reward.  In exact arithmetic
    (the rounding of binary64 set aside: the equalities are [xequiv] on
    the rationals of the model), after [reset], on a finite series and
    before the end of the data, the rewards of a run add up to the sum of
    the mark-to-market P&L less the penalties charged, so the balance is
    [initial_balance] plus the total reward, plus the penalties, minus
    one transaction cost per executed trade. *)
Theorem run_total_reward_and_balance (Rng : Type)
    (randint : Z -> Z -> Rng -> Z * Rng)
    (seed : option Z) (g g' : Rng) (prices : list xfloat) (window : Z)
    (ib rate dv : Q) (env env0 env1 : CreditRSIEnv) (o : Obs * Info)
    (actions : list Z) :
  Forall finite prices ->
  init prices window ib rate dv = Ok env ->
  reachable env env0 ->
  reset randint seed g env0 = ((Ok o, env1), g') ->
  (0 <= current_step env1)%Z ->
  (current_step env1 + len actions <= max_steps env1)%Z ->
  exists rets env2,
    run actions env1 = (Ok rets, env2) /\
    let steps := trace actions env1 in
    let penalties := Fin (penalties_charged (tl steps)) in
    xequiv (total_reward rets) (xsub (sum_pnl steps) penalties) /\
    xequiv (balance env2)
      (xsub (xadd (xadd (Fin ib) (total_reward rets)) penalties)
         (xmul (Fin (dv * rate)) (of_Z (executed_trades steps)))).
Proof.
  intros HP Hinit Hreach Hr H0 Hle.
  destruct (@init_facts _ _ _ _ _ _ Hinit)
    as (Im & Iib & Idv & Irate & _ & Ipre).
  destruct (@preprocess_finite _ _ _ HP Ipre) as [HF _].
  pose proof (@reachable_after_reset _ _ _ _ _ _ _ _ _ Hreach Hr) as Hreach1.
  destruct (reachable_config Hreach1) as (Cdf & Cm & _ & _ & Cdv & Crate).
  pose proof (@reset_state _ randint seed g env0
                (reset_ok_valid_seed _ _ _ _ Hr)) as R. cbv zeta in R.
  rewrite Hr in R. cbn [fst snd] in R. destruct R as (Rb & _).
  destruct (reachable_config Hreach) as (_ & _ & _ & Cib & _).
  rewrite Cib, Iib in Rb.
  assert (Hwf : wf_env env1) by (split; [rewrite Cm, Cdf; exact Im | exact H0]).
  rewrite <- Cdf in HF.
  destruct (@run_accounting actions env1 ib Hwf HF Rb Hle)
    as (rets & env2 & p & b' & Er & Ep & Eb & Eq).
  destruct (@run_rewards actions env1 ib 0 Hwf HF Rb Hle)
    as (rets' & env2' & p' & rw & Er' & Ep' & Ef & Erw).
  rewrite Er in Er'. injection Er' as <- <-.
  rewrite Ep in Ep'. injection Ep' as <-.
  exists rets, env2. split; [exact Er|].
  cbv zeta. unfold total_reward. rewrite Ef, Eb, Ep. unfold of_Z.
  cbn [xmul xadd xsub xneg xequiv].
  split; [rewrite Erw; ring|].
  rewrite Eq, Erw, Cdv, Crate, Idv, Irate. ring.
Qed.

(* ===================================================================== *)
(** ** Where an episode starts *)
(* ===================================================================== *)

(** An object that [__init__] returns has a window of at least one period
    and at least [window + 2] rows. *)
Lemma init_bounds (prices : list xfloat) (w : Z) (ib rate dv : Q)
    (env : CreditRSIEnv) :
  init prices w ib rate dv = Ok env ->
  (1 <= window env)%Z /\ (window env + 2 <= len (df env))%Z.
Proof.
  unfold init, preprocess, calculate_rsi, ewm_mean.
  destruct (Z.ltb_spec (w - 1) 0) as [|Hw]; [discriminate|].
  cbn [rbind].
  match goal with |- context [dropna ?f] => set (frame := dropna f) end.
  destruct frame as [|r0 fr] eqn:Ef; [discriminate|].
  destruct (Z.ltb_spec (len (r0 :: fr)) (w + 2)) as [|Hl]; [discriminate|].
  destruct (Box _ _); cbn [rbind]; [|discriminate].
  intros [= <-]. cbn [window df]. split; lia.
Qed.

(** [reset] written out: the start index picked, the object left, the
    observation returned. *)
Lemma reset_unfold (Rng : Type) (randint : Z -> Z -> Rng -> Z * Rng)
    (seed : option Z) (g : Rng) (s : CreditRSIEnv) :
  valid_seed seed ->
  let lo := (window s + 1)%Z in
  let hi := (max_steps s - 100)%Z in
  let pick := if (hi <? lo)%Z then (lo, g) else randint lo hi g in
  let s1 :=
    set_current_step (fst pick)
      (set_episode_history []
         (set_shares_held 0
            (set_balance (Fin (initial_balance s))
               match seed with
               | Some _ => set_np_random seed s
               | None => s
               end))) in
  reset randint seed g s =
    ((match iloc (df s) (fst pick) with
      | Ok row =>
          Ok (obs_map float32
                (mkObs (price row) (rsi row) (of_Z 0)
                   (Fin (initial_balance s)) (spread_change row)),
              InfoReset (initial_balance s))
      | Raise e => Raise e
      end, s1), snd pick).
Proof.
  intros Hseed. cbv zeta. unfold reset.
  rewrite (@super_reset_valid seed s Hseed).
  destruct seed; cbn [window max_steps set_np_random set_balance
                      set_shares_held set_episode_history initial_balance];
    (destruct (_ <? _)%Z; [|destruct (randint _ _ g) as [start g1]]);
    unfold _get_obs, bind, self, lift, ret;
    cbn [df current_step set_current_step shares_held balance fst snd];
    destruct (iloc _ _); reflexivity.
Qed.

(** X9.  When the seed is one that gymnasium accepts (none, or an integer
    that is not negative) and [random.randint] keeps to its range,
    [reset] on an object built by [__init__] (fresh or used) returns: the
    start index lies between [window + 1] and the last row, the
    observation shows no position and the initial balance cast to
    float32, and on a series long enough for a drawn start at least 100
    rows follow the start. *)
Theorem reset_starts_inside_the_series (Rng : Type)
    (randint : Z -> Z -> Rng -> Z * Rng) (seed : option Z) (g : Rng)
    (prices : list xfloat) (w : Z) (ib rate dv : Q)
    (env s : CreditRSIEnv) :
  valid_seed seed ->
  (forall a b g0, (a <= b)%Z -> (a <= fst (randint a b g0) <= b)%Z) ->
  init prices w ib rate dv = Ok env ->
  reachable env s ->
  exists o s1 g1,
    reset randint seed g s = ((Ok (o, InfoReset ib), s1), g1) /\
    wf_env s1 /\
    (w + 1 <= current_step s1 <= max_steps s1)%Z /\
    ((w + 1 <= max_steps s - 100)%Z ->
       (current_step s1 + 100 <= max_steps s1)%Z) /\
    obs_shares_held o = of_Z 0 /\
    obs_balance o = float32 (Fin ib) /\
    fst (_get_obs s1) = Ok o.
Proof.
  intros Hseed Hrange Hinit Hreach.
  destruct (@init_facts _ _ _ _ _ _ Hinit) as (Im & Iib & _ & _ & Iw & _).
  destruct (@init_bounds _ _ _ _ _ _ Hinit) as [Hw1 Hlen].
  destruct (reachable_config Hreach) as (Cdf & Cm & Cw & Cib & _).
  pose proof (@reset_unfold _ randint seed g s Hseed) as E. cbv zeta in E.
  set (s1 := set_current_step _ _) in E.
  assert (Hcs : current_step s1 = fst (if (max_steps s - 100 <? window s + 1)%Z
                  then ((window s + 1)%Z, g)
                  else randint (window s + 1)%Z (max_steps s - 100)%Z g))
    by reflexivity.
  assert (Hb : balance s1 = Fin (initial_balance s)) by reflexivity.
  assert (Hsh : shares_held s1 = 0%Z) by reflexivity.
  assert (Hdf : df s1 = df s) by (destruct seed; reflexivity).
  assert (Rm : max_steps s1 = max_steps s) by (destruct seed; reflexivity).
  clearbody s1.
  rewrite Cw, Cm, Iw in *. rewrite Cib, Iib in *. rewrite Cdf in *.
  set (lo := (w + 1)%Z) in *. set (hi := (max_steps env - 100)%Z) in *.
  assert (Hpick :
    (lo <= fst (if (hi <? lo)%Z then (lo, g) else randint lo hi g)
        <= max_steps env)%Z /\
    ((lo <= hi)%Z ->
       (fst (if (hi <? lo)%Z then (lo, g) else randint lo hi g) + 100
          <= max_steps env)%Z)).
  { destruct (Z.ltb_spec hi lo) as [Hs | Hl]; cbn [fst].
    - subst lo hi. split; lia.
    - pose proof (Hrange lo hi g Hl). subst lo hi. split; lia. }
  destruct Hpick as [Hin Hfar].
  set (start := fst (if (hi <? lo)%Z then (lo, g) else randint lo hi g)) in *.
  destruct (@iloc_in_range _ (df env) start) as (row & Hrow & _);
    [subst lo; lia|].
  rewrite Hrow in E.
  do 3 eexists. split; [exact E|].
  split; [split; [rewrite Rm, Hdf; exact Im | rewrite Hcs; subst lo; lia]|].
  split; [rewrite Hcs, Rm; exact Hin|].
  split; [rewrite Hcs, Rm; exact Hfar|].
  split; [cbn [obs_map obs_shares_held]; vm_compute; reflexivity|].
  split; [reflexivity|].
  unfold _get_obs, bind, self, lift, ret.
  rewrite Hdf, Hcs, Hrow, Hb, Hsh. reflexivity.
Qed.

(** X10.  On a series too short for a drawn start
    ([max_steps - 100 < window + 1]) [reset] is deterministic: whatever
    the seed among those that gymnasium accepts (none, or an integer that
    is not negative), the state of the [random] module and the state the
    object was left in, it starts at row [window + 1] and returns the
    same observation, and it draws nothing from the generator. *)
Theorem reset_on_short_series_is_deterministic (Rng Rng' : Type)
    (randint : Z -> Z -> Rng -> Z * Rng)
    (randint' : Z -> Z -> Rng' -> Z * Rng')
    (seed seed' : option Z) (g : Rng) (g' : Rng')
    (s s' : CreditRSIEnv) :
  valid_seed seed -> valid_seed seed' ->
  same_config s s' ->
  (max_steps s - 100 < window s + 1)%Z ->
  let first := reset randint seed g s in
  let second := reset randint' seed' g' s' in
  fst (fst first) = fst (fst second) /\
  current_step (snd (fst first)) = (window s + 1)%Z /\
  current_step (snd (fst second)) = (window s + 1)%Z /\
  snd first = g /\ snd second = g'.
Proof.
  intros Hseed Hseed' (Cdf & Cm & Cw & Cib & _) Hshort. cbv zeta.
  pose proof (@reset_unfold _ randint seed g s Hseed) as E.
  pose proof (@reset_unfold _ randint' seed' g' s' Hseed') as E'.
  cbv zeta in E, E'.
  rewrite Cdf, Cm, Cw, Cib in E'.
  replace (max_steps s - 100 <? window s + 1)%Z with true in *
    by (symmetry; apply Z.ltb_lt; lia).
  cbn [fst snd] in E, E'. rewrite E, E'. cbn [fst snd current_step
                                               set_current_step].
  repeat split.
Qed.

(* ===================================================================== *)
(** ** The frame that construction builds *)
(* ===================================================================== *)

Lemma diff_from_length (l : list xfloat) :
  forall prev, length (diff_from prev l) = length l.
Proof. induction l; intros; cbn; congruence. Qed.

Lemma diff_length (l : list xfloat) : length (diff l) = length l.
Proof. destruct l; cbn; [reflexivity | now rewrite diff_from_length]. Qed.

Lemma ewm_loop_length (f : Q) (minp : Z) (vals : list xfloat) :
  forall w ow nobs, length (ewm_loop f minp vals w ow nobs) = length vals.
Proof.
  induction vals as [|cur rest IH]; intros; cbn [ewm_loop length];
    [reflexivity|].
  destruct (negb (isnan w)); destruct (negb (isnan cur));
    cbn [length]; now rewrite IH.
Qed.

Lemma zip_with_length (f : xfloat -> xfloat -> xfloat) (a : list xfloat) :
  forall b, length a = length b -> length (zip_with f a b) = length a.
Proof.
  induction a as [|x a IH]; intros [|y b] H; cbn in *; try congruence.
  now rewrite IH by congruence.
Qed.

(** For a window of at least one period [calculate_rsi] returns a column
    as long as its input. *)
Lemma calculate_rsi_length (data : list xfloat) (w : Z) :
  (1 <= w)%Z ->
  exists col, calculate_rsi data w = Ok col /\ length col = length data.
Proof.
  intros Hw. unfold calculate_rsi, ewm_mean.
  replace (w - 1 <? 0)%Z with false by (symmetry; apply Z.ltb_ge; lia).
  cbn [rbind]. eexists. split; [reflexivity|].
  unfold fillna, replace_inf_nan, mask.
  rewrite !length_map, zip_with_length;
    rewrite !ewm_loop_length, ?length_map, ?diff_length; reflexivity.
Qed.

Lemma make_frame_columns (p r c : list xfloat) :
  length r = length p -> length c = length p ->
  map price (make_frame p r c) = p /\
  map rsi (make_frame p r c) = r /\
  map spread_change (make_frame p r c) = c.
Proof.
  revert r c. induction p as [|x p IH]; intros [|y r] [|z c] Hr Hc;
    cbn in *; try discriminate; [repeat split|].
  destruct (IH r c) as (A & B & C); [congruence | congruence|].
  rewrite A, B, C. repeat split.
Qed.

Lemma dropna_finite (rows : list Row) :
  Forall finite_row rows -> dropna rows = rows.
Proof.
  induction 1 as [|row rows ((p & Hp) & (r & Hr) & (c & Hc)) _ IH];
    [reflexivity|].
  unfold dropna in *. cbn [filter]. rewrite Hp, Hr, Hc. cbn. now rewrite IH.
Qed.

Lemma diff_from_all_finite (l : list xfloat) :
  forall prev, finite prev -> Forall finite l ->
    Forall finite (diff_from prev l).
Proof.
  induction l as [|x r IH]; intros prev [p ->] HF; cbn [diff_from];
    [constructor|].
  inversion HF as [|? ? [q ->] HF']; subst. constructor.
  - eexists. reflexivity.
  - apply IH; [eexists; reflexivity | assumption].
Qed.

Lemma fillna_finite_id (v : xfloat) (l : list xfloat) :
  Forall finite l -> fillna v l = l.
Proof.
  induction 1 as [|x l [q ->] _ IH]; [reflexivity|].
  cbn [fillna map isnan]. f_equal. exact IH.
Qed.

(** The spread-change column of a finite price column: 0, then each
    spread less the one before. *)
Lemma spread_change_column (p : xfloat) (r : list xfloat) :
  Forall finite (p :: r) ->
  fillna (Fin 0) (diff (p :: r)) = Fin 0 :: diff_from p r.
Proof.
  intros HF. inversion HF as [|? ? Hp Hr]; subst.
  cbn [diff]. change (fillna (Fin 0) (NaN :: diff_from p r))
    with (Fin 0 :: fillna (Fin 0) (diff_from p r)).
  f_equal. apply fillna_finite_id. now apply diff_from_all_finite.
Qed.

(** On a finite price column and a window of at least one period the
    preprocessing drops no row. *)
Lemma preprocess_finite_frame (prices : list xfloat) (w : Z) :
  (1 <= w)%Z -> Forall finite prices ->
  exists frame,
    preprocess prices w = Ok frame /\
    map price frame = prices /\
    map spread_change frame = fillna (Fin 0) (diff prices) /\
    length frame = length prices.
Proof.
  intros Hw HF.
  destruct (calculate_rsi_length prices Hw) as (col & EC & Hlen).
  pose proof (@calculate_rsi_within prices col w HF EC) as HW.
  pose proof (fillna_finite 0 (diff_finite HF)) as HS.
  assert (Hsl : length (fillna (Fin 0) (diff prices)) = length prices)
    by (unfold fillna; now rewrite length_map, diff_length).
  pose proof (make_frame_Forall HF HW HS) as HM.
  destruct (make_frame_columns prices col _ Hlen Hsl) as (A & B & C).
  exists (make_frame prices col (fillna (Fin 0) (diff prices))).
  split.
  - unfold preprocess. rewrite EC. cbn [rbind]. f_equal.
    apply dropna_finite. eapply Forall_impl; [|exact HM].
    intros row (Hp & (q & Hq & _) & Hc).
    repeat split; [exact Hp | exists q; exact Hq | exact Hc].
  - split; [exact A|]. split; [exact C|].
    apply (f_equal (@length _)) in A. now rewrite length_map in A.
Qed.

(** X12.  Construction on a finite price series drops no row, although it
    calls [dropna] after adding the indicator: the warm-up rows of the
    indicator were filled with 50.  The frame of the object has the input
    spreads in its 'price' column, and in its 'spread_change' column 0
    for the first row and then each spread less the one before;
    [max_steps] is the number of input rows less one. *)
Theorem init_keeps_every_row (p : xfloat) (r : list xfloat) (w : Z)
    (ib rate dv : Q) (env : CreditRSIEnv) :
  Forall finite (p :: r) ->
  init (p :: r) w ib rate dv = Ok env ->
  map price (df env) = p :: r /\
  map spread_change (df env) = Fin 0 :: diff_from p r /\
  max_steps env = (len (p :: r) - 1)%Z.
Proof.
  intros HF Hinit.
  destruct (@init_facts _ _ _ _ _ _ Hinit) as (Im & _ & _ & _ & Iw & Ipre).
  destruct (@init_bounds _ _ _ _ _ _ Hinit) as [Hw _]. rewrite Iw in Hw.
  destruct (preprocess_finite_frame Hw HF) as (frame & Ep & A & C & Hlen).
  rewrite Ep in Ipre. injection Ipre as Ef. subst frame.
  split; [exact A|]. split.
  - rewrite C. now apply spread_change_column.
  - rewrite Im. unfold len. now rewrite Hlen.
Qed.

(* ===================================================================== *)
(** ** The values of the indicator *)
(* ===================================================================== *)

Lemma map_zip_with (g : xfloat -> xfloat)
    (f : xfloat -> xfloat -> xfloat) (a : list xfloat) :
  forall b, map g (zip_with f a b) = zip_with (fun x y => g (f x y)) a b.
Proof.
  induction a as [|x a IH]; intros [|y b]; cbn; try reflexivity.
  now rewrite IH.
Qed.

Lemma nth_error_zip_with (f : xfloat -> xfloat -> xfloat)
    (a : list xfloat) :
  forall b i v,
    nth_error (zip_with f a b) i = Some v ->
    exists x y, nth_error a i = Some x /\ nth_error b i = Some y /\
                v = f x y.
Proof.
  induction a as [|x a IH]; intros [|y b] [|i] v; cbn; try discriminate.
  - intros [= <-]. eauto.
  - apply IH.
Qed.

(** The column of [calculate_rsi], value by value, from the two columns
    of averages. *)
Lemma calculate_rsi_pointwise (data : list xfloat) (w : Z) :
  (1 <= w)%Z ->
  let d := diff data in
  let f := 1 - 1 / (1 + inject_Z (w - 1)) in
  calculate_rsi data w =
    Ok (zip_with rsi_point
          (ewm_loop f w
             (replace_inf_nan (mask (fun x => xlt x (Fin 0)) (Fin 0) d))
             NaN 1 0)
          (ewm_loop f w
             (replace_inf_nan
                (map xneg (mask (fun x => xgt x (Fin 0)) (Fin 0) d)))
             NaN 1 0)).
Proof.
  intros Hw. cbv zeta. unfold calculate_rsi, ewm_mean.
  replace (w - 1 <? 0)%Z with false by (symmetry; apply Z.ltb_ge; lia).
  replace (Z.max w 1) with w by lia.
  cbn [rbind]. f_equal.
  unfold fillna, replace_inf_nan. rewrite !map_map, map_zip_with.
  reflexivity.
Qed.

(** Before [minp] observations have been seen the running mean is not
    reported. *)
Lemma ewm_loop_warm_up (f : Q) (minp : Z) (vals : list xfloat) :
  forall w ow nobs i x,
    nth_error (ewm_loop f minp vals w ow nobs) i = Some x ->
    (nobs + Z.of_nat i + 1 < minp)%Z ->
    x = NaN.
Proof.
  induction vals as [|cur rest IH]; intros w ow nobs i x;
    [destruct i; discriminate|].
  cbn [ewm_loop].
  destruct (negb (isnan w)); destruct (negb (isnan cur));
    cbv beta iota zeta;
    destruct i as [|j]; cbn [nth_error];
    try (intros [= <-] Hlt;
         match goal with
         | |- (if (?a <=? ?b)%Z then _ else _) = _ =>
             destruct (Z.leb_spec a b); [lia | reflexivity]
         end);
    intros Hn Hlt; rewrite Nat2Z.inj_succ in Hlt;
    eapply IH; try exact Hn; lia.
Qed.

Lemma nth_error_after_nan (f : Q) (w : Z) (rest : list xfloat) (i : nat)
    (x : xfloat) :
  (1 <= w)%Z ->
  nth_error (ewm_loop f w (NaN :: rest) NaN 1 0) (S i) = Some x ->
  nth_error (ewm_loop f w rest NaN 1 0) i = Some x.
Proof. intros _. cbn [ewm_loop isnan negb nth_error]. now rewrite Z.add_0_r. Qed.

(** X13.  For every input column and a window of at least one period,
    [calculate_rsi] returns a column as long as its input whose first
    [window] values are the fill value 50: the indicator carries no
    information before row [window]. *)
Theorem calculate_rsi_warm_up (data : list xfloat) (w : Z) :
  (1 <= w)%Z ->
  exists col,
    calculate_rsi data w = Ok col /\
    length col = length data /\
    forall i : nat,
      (Z.of_nat i < w)%Z -> (i < length data)%nat ->
      nth_error col i = Some (Fin 50).
Proof.
  intros Hw.
  destruct (calculate_rsi_length data Hw) as (col & EC & Hlen).
  exists col. split; [exact EC|]. split; [exact Hlen|].
  intros i Hi Hin.
  rewrite (calculate_rsi_pointwise data Hw) in EC. cbv zeta in EC.
  injection EC as <-.
  destruct (nth_error (zip_with _ _ _) i) as [v|] eqn:Ev.
  - f_equal.
    destruct (nth_error_zip_with _ _ _ _ Ev) as (g & l & Hg & _ & ->).
    assert (g = NaN) as ->.
    { destruct data as [|p r]; [destruct i; discriminate|].
      cbn [diff mask map xlt replace_inf_nan isinf] in Hg.
      fold (replace_inf_nan
              (map (fun x => if xlt x (Fin 0) then Fin 0 else x)
                 (diff_from p r))) in Hg.
      destruct i as [|j].
      - cbn [ewm_loop isnan negb nth_error] in Hg.
        destruct (w <=? 0 + 0)%Z; now injection Hg as <-.
      - apply nth_error_after_nan in Hg; [|exact Hw].
        rewrite Nat2Z.inj_succ in Hi.
        eapply ewm_loop_warm_up; [exact Hg | lia]. }
    reflexivity.
  - apply nth_error_None in Ev. lia.
Qed.

(** The running mean of observations that all have a property kept by
    weighted means has that property, from the row where [minp]
    observations have been seen. *)
Lemma ewm_loop_observations (P : Q -> Prop) (f : Q) (minp : Z) :
  (forall ow w c, 0 <= ow -> P w -> P c ->
     P ((ow * w + 1 * c) / (ow + 1))) ->
  0 <= f ->
  forall (vals : list xfloat) (weighted : xfloat) (ow : Q) (nobs : Z),
    0 <= ow ->
    (weighted = NaN \/ exists q, weighted = Fin q /\ P q) ->
    Forall (fun v => exists c, v = Fin c /\ P c) vals ->
    forall i x,
      nth_error (ewm_loop f minp vals weighted ow nobs) i = Some x ->
      (minp <= nobs + Z.of_nat i + 1)%Z ->
      exists q, x = Fin q /\ P q.
Proof.
  intros HP Hf. induction vals as [|cur rest IH];
    intros weighted ow nobs How Hwt HF i x; [destruct i; discriminate|].
  inversion HF as [|? ? (c & -> & Hc) HF']; subst.
  assert (Hof : 0 <= ow * f) by (apply Qmult_le_0_compat; assumption).
  cbn [ewm_loop isnan negb].
  destruct Hwt as [-> | (w & -> & Hw)]; cbn [isnan negb].
  - destruct i as [|j]; cbn [nth_error].
    + intros [= <-] Hle.
      destruct (Z.leb_spec minp (nobs + 1)); [eauto | lia].
    + intros Hn Hle. rewrite Nat2Z.inj_succ in Hle.
      eapply IH; try exact Hn; try assumption; [right; eauto | lia].
  - assert (Hm : exists q,
               (if negb (xeqb (Fin w) (Fin c))
                then xdiv (xadd (xmul (Fin (ow * f)) (Fin w))
                             (xmul (Fin 1) (Fin c)))
                          (Fin (ow * f + 1))
                else Fin w) = Fin q /\ P q).
    { destruct (negb _); [|eauto]. cbn [xmul xadd xdiv].
      destruct (Qeq_bool (ow * f + 1) 0) eqn:E.
      - apply Qeq_bool_iff in E. lra.
      - eexists. split; [reflexivity|]. now apply HP. }
    destruct Hm as (q & Hq & HPq). rewrite Hq.
    destruct i as [|j]; cbn [nth_error].
    + intros [= <-] Hle.
      destruct (Z.leb_spec minp (nobs + 1)); [eauto | lia].
    + intros Hn Hle. rewrite Nat2Z.inj_succ in Hle.
      eapply IH; try exact Hn; try assumption; [lra | right; eauto | lia].
Qed.

Lemma decay_factor_nonneg (w : Z) :
  (1 <= w)%Z -> 0 <= 1 - 1 / (1 + inject_Z (w - 1)).
Proof.
  intros Hw.
  assert (0 <= inject_Z (w - 1))
    by (change 0 with (inject_Z 0); rewrite <- Zle_Qle; lia).
  assert (1 / (1 + inject_Z (w - 1)) <= 1) by (apply Qle_shift_div_r; lra).
  lra.
Qed.

Lemma mean_positive (ow w c : Q) :
  0 <= ow -> 0 < w -> 0 < c -> 0 < (ow * w + 1 * c) / (ow + 1).
Proof.
  intros. apply Qlt_shift_div_l; [lra|].
  assert (0 <= ow * w) by (apply Qmult_le_0_compat; lra). lra.
Qed.

Lemma mean_zero (ow w c : Q) :
  0 <= ow -> w == 0 -> c == 0 -> (ow * w + 1 * c) / (ow + 1) == 0.
Proof.
  intros How Hw Hc. rewrite Hw, Hc. unfold Qdiv. ring.
Qed.

Lemma rising_diff (qs : list Q) :
  forall p, rising_from p qs ->
    Forall (fun v => exists c, v = Fin c /\ 0 < c)
      (diff_from (Fin p) (map Fin qs)).
Proof.
  induction qs as [|x r IH]; intros p H; cbn [map diff_from]; [constructor|].
  destruct H as [Hlt Hr]. constructor; [|now apply IH].
  eexists. split; [reflexivity | lra].
Qed.

Lemma falling_diff (qs : list Q) :
  forall p, falling_from p qs ->
    Forall (fun v => exists c, v = Fin c /\ c < 0)
      (diff_from (Fin p) (map Fin qs)).
Proof.
  induction qs as [|x r IH]; intros p H; cbn [map diff_from]; [constructor|].
  destruct H as [Hlt Hr]. constructor; [|now apply IH].
  eexists. split; [reflexivity | lra].
Qed.

(** The gain and loss columns of the moves of a column, given the sign
    of every move. *)
Lemma gain_loss_of_rises (d : list xfloat) :
  Forall (fun v => exists c, v = Fin c /\ 0 < c) d ->
  Forall (fun v => exists c, v = Fin c /\ 0 < c)
    (mask (fun x => xlt x (Fin 0)) (Fin 0) d) /\
  Forall (fun v => exists c, v = Fin c /\ c == 0)
    (map xneg (mask (fun x => xgt x (Fin 0)) (Fin 0) d)).
Proof.
  unfold mask. intros H. rewrite map_map.
  split; apply Forall_map; (eapply Forall_impl; [|exact H]);
    intros v (c & -> & Hc); unfold xgt; cbn [xlt].
  - replace (Qle_bool 0 c) with true
      by (symmetry; apply Qle_bool_iff; lra).
    cbn [negb]. eauto.
  - destruct (Qle_bool c 0) eqn:E; [apply Qle_bool_iff in E; lra|].
    cbn [negb xneg]. eexists. split; [reflexivity | ring].
Qed.

Lemma gain_loss_of_falls (d : list xfloat) :
  Forall (fun v => exists c, v = Fin c /\ c < 0) d ->
  Forall (fun v => exists c, v = Fin c /\ c == 0)
    (mask (fun x => xlt x (Fin 0)) (Fin 0) d) /\
  Forall (fun v => exists c, v = Fin c /\ 0 < c)
    (map xneg (mask (fun x => xgt x (Fin 0)) (Fin 0) d)).
Proof.
  unfold mask. intros H. rewrite map_map.
  split; apply Forall_map; (eapply Forall_impl; [|exact H]);
    intros v (c & -> & Hc); unfold xgt; cbn [xlt].
  - destruct (Qle_bool 0 c) eqn:E; [apply Qle_bool_iff in E; lra|].
    cbn [negb]. eexists. split; [reflexivity | ring].
  - replace (Qle_bool c 0) with true
      by (symmetry; apply Qle_bool_iff; lra).
    cbn [negb xneg]. eexists. split; [reflexivity | lra].
Qed.

(** The two averages of row [i >= window] when every move has the same
    sign. *)
Lemma averages_after_warm_up (P N : Q -> Prop) (w : Z) (p : xfloat)
    (r d : list xfloat) (i : nat) (g l : xfloat) :
  (1 <= w)%Z -> (w <= Z.of_nat i)%Z ->
  (forall ow a c, 0 <= ow -> P a -> P c -> P ((ow * a + 1 * c) / (ow + 1))) ->
  (forall ow a c, 0 <= ow -> N a -> N c -> N ((ow * a + 1 * c) / (ow + 1))) ->
  Forall (fun v => exists c, v = Fin c /\ P c)
    (mask (fun x => xlt x (Fin 0)) (Fin 0) d) ->
  Forall (fun v => exists c, v = Fin c /\ N c)
    (map xneg (mask (fun x => xgt x (Fin 0)) (Fin 0) d)) ->
  let f := 1 - 1 / (1 + inject_Z (w - 1)) in
  nth_error
    (ewm_loop f w
       (replace_inf_nan (mask (fun x => xlt x (Fin 0)) (Fin 0) (NaN :: d)))
       NaN 1 0)
    i = Some g ->
  nth_error
    (ewm_loop f w
       (replace_inf_nan
          (map xneg (mask (fun x => xgt x (Fin 0)) (Fin 0) (NaN :: d))))
       NaN 1 0)
    i = Some l ->
  (exists a, g = Fin a /\ P a) /\ (exists b, l = Fin b /\ N b).
Proof.
  intros Hw Hi HP HN HG HL f Hg Hl.
  destruct i as [|j]; [cbn in Hi; lia|].
  rewrite Nat2Z.inj_succ in Hi.
  assert (Eg : replace_inf_nan
                 (mask (fun x => xlt x (Fin 0)) (Fin 0) (NaN :: d))
               = NaN :: mask (fun x => xlt x (Fin 0)) (Fin 0) d).
  { cbn [mask map xlt replace_inf_nan isinf]. f_equal.
    apply replace_inf_nan_id. exact (@replace_inf_nan_id_inv P _ HG). }
  assert (El : replace_inf_nan
                 (map xneg (mask (fun x => xgt x (Fin 0)) (Fin 0) (NaN :: d)))
               = NaN :: map xneg (mask (fun x => xgt x (Fin 0)) (Fin 0) d)).
  { unfold xgt. cbn [mask map xlt xneg replace_inf_nan isinf]. f_equal.
    apply replace_inf_nan_id. exact (@replace_inf_nan_id_inv N _ HL). }
  rewrite Eg in Hg. rewrite El in Hl.
  apply nth_error_after_nan in Hg; [|exact Hw].
  apply nth_error_after_nan in Hl; [|exact Hw].
  pose proof (decay_factor_nonneg Hw) as Hf.
  split.
  - eapply (@ewm_loop_observations P f w HP Hf); try exact Hg;
      [lra | left; reflexivity | exact HG | lia].
  - eapply (@ewm_loop_observations N f w HN Hf); try exact Hl;
      [lra | left; reflexivity | exact HL | lia].
Qed.

(** On a series that rises at every row the average loss is 0 and the
    average gain is not, from row [window] on: the quotient of the
    averages is infinite, 100 / (1 + inf) is 0, and the indicator is
    100. *)
Lemma rsi_on_rising_series (p : Q) (qs : list Q) (w : Z) :
  (1 <= w)%Z -> rising_from p qs ->
  exists col,
    calculate_rsi (map Fin (p :: qs)) w = Ok col /\
    forall (i : nat) (x : xfloat),
      (w <= Z.of_nat i)%Z -> nth_error col i = Some x ->
      xequiv x (Fin 100).
Proof.
  intros Hw Hr. eexists. split; [apply (calculate_rsi_pointwise _ Hw)|].
  cbv zeta. intros i x Hi Hx.
  destruct (nth_error_zip_with _ _ _ _ Hx) as (g & l & Hg & Hl & ->).
  destruct (gain_loss_of_rises (rising_diff _ _ Hr)) as [HG HL].
  cbn [map diff] in Hg, Hl.
  destruct (@averages_after_warm_up (fun q => 0 < q) (fun q => q == 0)
              w (Fin p) (map Fin qs) _ i g l Hw Hi
              mean_positive mean_zero HG HL Hg Hl)
    as ((a & -> & Ha) & (b & -> & Hb)).
  unfold rsi_point. cbn [xdiv].
  replace (Qeq_bool b 0) with true by (symmetry; now apply Qeq_bool_iff).
  replace (a ?= 0) with Gt by (symmetry; now apply Qgt_alt).
  cbn. reflexivity.
Qed.

(** On a series that falls at every row the average gain is 0 and the
    average loss is not: the indicator is 0 from row [window] on. *)
Lemma rsi_on_falling_series (p : Q) (qs : list Q) (w : Z) :
  (1 <= w)%Z -> falling_from p qs ->
  exists col,
    calculate_rsi (map Fin (p :: qs)) w = Ok col /\
    forall (i : nat) (x : xfloat),
      (w <= Z.of_nat i)%Z -> nth_error col i = Some x ->
      xequiv x (Fin 0).
Proof.
  intros Hw Hr. eexists. split; [apply (calculate_rsi_pointwise _ Hw)|].
  cbv zeta. intros i x Hi Hx.
  destruct (nth_error_zip_with _ _ _ _ Hx) as (g & l & Hg & Hl & ->).
  destruct (gain_loss_of_falls (falling_diff _ _ Hr)) as [HG HL].
  cbn [map diff] in Hg, Hl.
  destruct (@averages_after_warm_up (fun q => q == 0) (fun q => 0 < q)
              w (Fin p) (map Fin qs) _ i g l Hw Hi
              mean_zero mean_positive HG HL Hg Hl)
    as ((a & -> & Ha) & (b & -> & Hb)).
  unfold rsi_point. cbn [xdiv].
  destruct (Qeq_bool b 0) eqn:E; [apply Qeq_bool_iff in E; lra|].
  assert (Hq : a / b == 0) by (rewrite Ha; unfold Qdiv; ring).
  cbn [xadd xdiv].
  destruct (Qeq_bool (1 + a / b) 0) eqn:E2;
    [apply Qeq_bool_iff in E2; rewrite Hq in E2; discriminate|].
  cbn. rewrite Hq. reflexivity.
Qed.

Lemma least_move_pos : 0 < least_move.
Proof. reflexivity. Qed.

Lemma rises_at_least_rising (eps : Q) (qs : list Q) :
  0 < eps -> forall p, rises_at_least eps p qs -> rising_from p qs.
Proof.
  intros He. induction qs as [|x r IH]; intros p H; cbn in *; [exact I|].
  destruct H as [H1 H2]. split; [lra | now apply IH].
Qed.

Lemma falls_at_least_falling (eps : Q) (qs : list Q) :
  0 < eps -> forall p, falls_at_least eps p qs -> falling_from p qs.
Proof.
  intros He. induction qs as [|x r IH]; intros p H; cbn in *; [exact I|].
  destruct H as [H1 H2]. split; [lra | now apply IH].
Qed.

(** X14.  On a series of moderate magnitude that rises at every row, by
    10^-30 at least, the indicator is 100 from row [window] on: the
    average loss is 0, the quotient of the averages is infinite, and
    100 / (1 + inf) is 0, so the division by zero gives the top of the
    scale and not the fill value.  (The bounds keep the differences and
    the averages of binary64 from overflowing, which pandas would turn
    into NaN, and the average gain from underflowing to 0.) *)
Theorem rsi_is_100_on_rising_series (p : Q) (qs : list Q) (w : Z) :
  (1 <= w <= largest_window)%Z ->
  Forall moderate (p :: qs) ->
  rises_at_least least_move p qs ->
  exists col,
    calculate_rsi (map Fin (p :: qs)) w = Ok col /\
    forall (i : nat) (x : xfloat),
      (w <= Z.of_nat i)%Z -> nth_error col i = Some x ->
      xequiv x (Fin 100).
Proof.
  intros [Hw _] _ Hr. apply (@rsi_on_rising_series p qs w); [exact Hw|].
  exact (@rises_at_least_rising least_move qs least_move_pos p Hr).
Qed.

(** X15.  On a series of moderate magnitude that falls at every row, by
    10^-30 at least, the indicator is 0 from row [window] on. *)
Theorem rsi_is_0_on_falling_series (p : Q) (qs : list Q) (w : Z) :
  (1 <= w <= largest_window)%Z ->
  Forall moderate (p :: qs) ->
  falls_at_least least_move p qs ->
  exists col,
    calculate_rsi (map Fin (p :: qs)) w = Ok col /\
    forall (i : nat) (x : xfloat),
      (w <= Z.of_nat i)%Z -> nth_error col i = Some x ->
      xequiv x (Fin 0).
Proof.
  intros [Hw _] _ Hr. apply (@rsi_on_falling_series p qs w); [exact Hw|].
  exact (@falls_at_least_falling least_move qs least_move_pos p Hr).
Qed.




(* ===================================================================== *)
(** ** How the evaluation loop ends *)
(* ===================================================================== *)

(** On the last row of a well-formed object [step] raises. *)
Lemma step_on_last_row (a : Z) (s : CreditRSIEnv) :
  wf_env s -> current_step s = max_steps s ->
  step a s = (Raise IndexError, set_current_step (current_step s + 1) s).
Proof.
  intros [Hm H0] Hlast.
  destruct (step_state_cases a s)
    as [[Hp _] | [(prev & Hp & E) | (prev & cur & _ & _ & Hle & _)]].
  - destruct (@iloc_in_range _ (df s) (current_step s)) as (x & Hx & _);
      [lia | congruence].
  - unfold step, bind at 1, self at 1. unfold bind at 1, lift at 1.
    rewrite Hp. unfold bind at 1, assign at 1. unfold bind at 1, self at 1.
    cbn [current_step max_steps set_current_step].
    replace (current_step s + 1 >? max_steps s)%Z with true
      by (symmetry; rewrite Z.gtb_ltb; apply Z.ltb_lt; lia).
    unfold _get_obs, bind, self, lift.
    cbn [df current_step set_current_step].
    rewrite iloc_past_end by lia. reflexivity.
  - lia.
Qed.

Lemma penalties_done (s' : CreditRSIEnv) (p : xfloat) :
  fst (penalties s' p) = true ->
  xlt (balance s') (Fin 0) = true \/
  xlt (balance s') (Fin (initial_balance s' * (1 # 2))) = true.
Proof.
  unfold penalties. cbn [xmul].
  destruct (xlt (balance s') (Fin 0)); [auto|].
  destruct (xlt (balance s') _); [auto | discriminate].
Qed.

Lemma evaluation_loop_outcome (predict : Obs -> Z) (fuel : nat) :
  forall (s : CreditRSIEnv) (obs : Obs) (tr : xfloat) (k : Z),
    wf_env s ->
    (current_step s <= max_steps s)%Z ->
    (max_steps s - current_step s < Z.of_nat fuel)%Z ->
    (k <= current_step s)%Z ->
    let out := evaluation_loop predict fuel obs tr k s in
    (fst out = Raise IndexError /\
     current_step (snd out) = (max_steps s + 1)%Z) \/
    (exists total n,
       fst out = Ok (Some (total, n)) /\
       (k + 1 <= n <= k + (max_steps s - current_step s))%Z /\
       current_step (snd out) = (current_step s + (n - k))%Z /\
       (xlt (balance (snd out)) (Fin 0) = true \/
        xlt (balance (snd out))
            (Fin (initial_balance s * (1 # 2))) = true)).
Proof.
  induction fuel as [|fuel IH]; intros s obs tr k Hwf Hin Hfuel Hk;
    [cbn in Hfuel; lia|].
  rewrite Nat2Z.inj_succ in Hfuel.
  cbv zeta.
  destruct (Z.eq_dec (current_step s) (max_steps s)) as [Hlast | Hnot].
  - assert (E : evaluation_loop predict (S fuel) obs tr k s
                = (Raise IndexError,
                   set_current_step (current_step s + 1) s)).
    { cbn [evaluation_loop]. unfold bind at 1.
      now rewrite (step_on_last_row (predict obs) Hwf Hlast). }
    rewrite E. left. cbn [fst snd current_step set_current_step].
    split; [reflexivity | lia].
  - destruct (@step_report (predict obs) s Hwf ltac:(lia))
      as (r & s1 & E & Hwf1 & C & Hcs & _ & _ & _ & D & _).
    destruct C as (_ & Cm & _ & Cib & _).
    assert (E2 : evaluation_loop predict (S fuel) obs tr k s
                 = (if done r
                    then ret (Some (xadd tr (reward r), (k + 1)%Z))
                    else evaluation_loop predict fuel (observation r)
                           (xadd tr (reward r)) (k + 1)) s1).
    { cbn [evaluation_loop]. unfold bind at 1. rewrite E.
      unfold bind at 1, self at 1.
      replace (k + 1 >? max_steps s1)%Z with false
        by (symmetry; rewrite Z.gtb_ltb; apply Z.ltb_ge; lia).
      reflexivity. }
    rewrite E2. destruct (done r) eqn:Hd.
    + right. unfold ret. cbn [fst snd].
      exists (xadd tr (reward r)), (k + 1)%Z.
      split; [reflexivity|]. split; [lia|]. split; [rewrite Hcs; lia|].
      rewrite <- Cib. apply (penalties_done s1 (mtm_pnl s s1)).
      now rewrite <- D.
    + specialize (IH s1 (observation r) (xadd tr (reward r)) (k + 1)%Z Hwf1
                    ltac:(lia) ltac:(lia) ltac:(lia)).
      cbv zeta in IH. rewrite Cm, Cib, Hcs in IH.
      destruct IH as [[Ef Ec] | (total & n & Ef & Hn & Ec & Hb)].
      * left. split; assumption.
      * right. exists total, n. split; [exact Ef|]. split; [lia|].
        split; [rewrite Ec; lia | exact Hb].
Qed.

(** X16.  The evaluation loop, run on an object that stands inside the
    data, always ends, after at most [max_steps - current_step] returning
    steps, and in one of two ways only: a step reports [done] because the
    balance fell below zero or below half of [initial_balance], or the
    step called on the last row raises IndexError.  Its own stop test
    [num_steps > max_steps] never fires. *)
Theorem evaluation_ends_by_done_or_index_error (predict : Obs -> Z)
    (fuel : nat) (s : CreditRSIEnv) (obs : Obs) :
  wf_env s ->
  (current_step s <= max_steps s)%Z ->
  (max_steps s - current_step s < Z.of_nat fuel)%Z ->
  let out := evaluation_loop predict fuel obs (Fin 0) 0 s in
  (fst out = Raise IndexError /\
   current_step (snd out) = (max_steps s + 1)%Z) \/
  (exists total n,
     fst out = Ok (Some (total, n)) /\
     (1 <= n <= max_steps s - current_step s)%Z /\
     current_step (snd out) = (current_step s + n)%Z /\
     (xlt (balance (snd out)) (Fin 0) = true \/
      xlt (balance (snd out)) (Fin (initial_balance s * (1 # 2))) = true)).
Proof.
  intros Hwf Hin Hfuel.
  destruct Hwf as [Hm H0].
  pose proof (@evaluation_loop_outcome predict fuel s obs (Fin 0) 0%Z
                (conj Hm H0) Hin Hfuel H0) as H.
  cbv zeta in *.
  destruct H as [H | (total & n & Ef & Hn & Ec & Hb)]; [left; exact H|].
  right. exists total, n. split; [exact Ef|]. split; [lia|].
  split; [rewrite Ec; f_equal; lia | exact Hb].
Qed.

(* ===================================================================== *)
(** ** The simulated hedge *)
(* ===================================================================== *)

Lemma xabs_nonneg (d : Q) : exists a, xabs (Fin d) = Fin a /\ 0 <= a.
Proof.
  cbn [xabs]. destruct (Qle_bool 0 d) eqn:E; eexists; (split; [reflexivity|]).
  - now apply Qle_bool_iff.
  - assert (~ 0 <= d) by (intros H; apply Qle_bool_iff in H; congruence).
    lra.
Qed.

(** X17.  On a row of numbers whose scaled CS01 is not negative the hedge
    of [simulate_hedging] can only add to the P&L: the hedge size lies
    between 0 and the cap 0.1, the hedge P&L is the size times the
    absolute move of the CDS level, hence not negative, and the total
    P&L is at least the unhedged one. *)
Theorem simulate_hedging_never_loses (rows : list HedgeRow)
    (buy_corr zscore_thresh cs01_multiplier : Q) (out : HedgedRow)
    (c d p : Q) :
  In out (simulate_hedging rows buy_corr zscore_thresh cs01_multiplier) ->
  cs01 (hedge_source out) = Fin c ->
  cds_change (hedge_source out) = Fin d ->
  pnl_agg (hedge_source out) = Fin p ->
  0 <= c * cs01_multiplier ->
  exists size gain total,
    hedge_size out = Fin size /\ 0 <= size <= 1 # 10 /\
    hedge_pnl out = Fin gain /\ 0 <= gain /\
    total_pnl out = Fin total /\ p <= total.
Proof.
  unfold simulate_hedging. intros Hin Hc Hd Hp Hpos.
  apply in_map_iff in Hin. destruct Hin as (row & <- & _).
  change (cs01 row = Fin c) in Hc. change (cds_change row = Fin d) in Hd.
  change (pnl_agg row = Fin p) in Hp.
  unfold simulate_hedging_row.
  cbn [hedge_size hedge_pnl total_pnl]. rewrite Hc, Hd, Hp.
  destruct (xabs_nonneg d) as (a & -> & Ha).
  cbn [xmul xminimum isnan orb xlt].
  set (capped := if negb (Qle_bool (c * cs01_multiplier) (1 # 10))
                 then Fin (1 # 10) else Fin (c * cs01_multiplier)).
  assert (Hcap : exists h, capped = Fin h /\ 0 <= h <= 1 # 10).
  { unfold capped. destruct (Qle_bool _ _) eqn:E; cbn [negb].
    - apply Qle_bool_iff in E. eexists. split; [reflexivity | lra].
    - eexists. split; [reflexivity | lra]. }
  destruct Hcap as (h & -> & Hh).
  destruct (_ && _)%bool; unfold of_Z; cbn [xmul xadd inject_Z].
  - exists (1 * h), (1 * h * a), (p + 1 * h * a).
    assert (0 <= h * a) by (apply Qmult_le_0_compat; lra).
    repeat split; lra.
  - exists (0 * h), (0 * h * a), (p + 0 * h * a). repeat split; lra.
Qed.

(** X18.  A row on which one of the three conditions fails (the rolling
    correlation is not above [buy_corr], the absolute z-score is not above
    [zscore_thresh], or the forecast is not above the CDS level) is not
    hedged: its hedge signal is 0 and, its numbers being finite and its
    scaled CS01 not negative, its total P&L is the unhedged P&L.  (A
    scaled CS01 that overflows to -inf would give 0 * -inf = NaN.) *)
Theorem simulate_hedging_without_signal (rows : list HedgeRow)
    (buy_corr zscore_thresh cs01_multiplier : Q) (out : HedgedRow)
    (c d p : Q) :
  In out (simulate_hedging rows buy_corr zscore_thresh cs01_multiplier) ->
  cs01 (hedge_source out) = Fin c ->
  cds_change (hedge_source out) = Fin d ->
  pnl_agg (hedge_source out) = Fin p ->
  0 <= c * cs01_multiplier ->
  xgt (rolling_corr (hedge_source out)) (Fin buy_corr) = false \/
  xgt (xabs (cds_z (hedge_source out))) (Fin zscore_thresh) = false \/
  xgt (cds_pred (hedge_source out)) (cds_level (hedge_source out)) = false ->
  hedge_signal out = 0%Z /\ xequiv (total_pnl out) (Fin p).
Proof.
  unfold simulate_hedging. intros Hin Hc Hd Hp _ Hno.
  apply in_map_iff in Hin. destruct Hin as (row & <- & _).
  change (cs01 row = Fin c) in Hc. change (cds_change row = Fin d) in Hd.
  change (pnl_agg row = Fin p) in Hp.
  change (xgt (rolling_corr row) (Fin buy_corr) = false \/
          xgt (xabs (cds_z row)) (Fin zscore_thresh) = false \/
          xgt (cds_pred row) (cds_level row) = false) in Hno.
  unfold simulate_hedging_row.
  cbn [hedge_signal total_pnl]. rewrite Hc, Hd, Hp.
  assert (Hcond : (xgt (rolling_corr row) (Fin buy_corr)
                   && xgt (xabs (cds_z row)) (Fin zscore_thresh)
                   && xgt (cds_pred row) (cds_level row))%bool = false).
  { destruct Hno as [-> | [-> | ->]];
      rewrite ?andb_false_r; reflexivity. }
  rewrite Hcond. split; [reflexivity|].
  destruct (xabs_nonneg d) as (a & -> & _).
  cbn [xmul xminimum isnan orb xlt].
  destruct (negb _); unfold of_Z; cbn [xmul xadd xequiv inject_Z]; ring.
Qed.

(* ===================================================================== *)
(** ** The filtered signals and the positions *)
(* ===================================================================== *)

(** After [filter_signals_from prev], the first trade differs from
    [prev], every trade is a buy or a sell, and no two neighbours are
    equal. *)
Lemma filter_signals_from_alternate (l : list Z) :
  forall prev,
    let t := trades_of (filter_signals_from prev l) in
    Forall (fun x => x = 1 \/ x = -1)%Z t /\
    alternating t /\
    (forall x, hd_error t = Some x -> x <> prev).
Proof.
  induction l as [|val rest IH]; intros prev; cbv zeta;
    [cbn; repeat split; [constructor | discriminate]|].
  cbn [filter_signals_from].
  destruct (Z.eqb_spec val 1) as [-> | H1]; cbn [andb].
  - destruct (Z.eqb_spec prev 1) as [-> | Hp]; cbn [negb].
    + cbn [Z.eqb andb]. unfold trades_of. cbn [filter Z.eqb negb].
      apply (IH 1%Z).
    + destruct (IH 1%Z) as (F & A & Hh). cbv zeta in F, A, Hh.
      unfold trades_of in *. cbn [filter Z.eqb negb].
      split; [constructor; [now left | exact F]|].
      split.
      * destruct (filter _ (filter_signals_from 1 rest)) as [|b t] eqn:E;
          [exact I|].
        split; [|exact A]. intros <-. apply (Hh 1%Z); reflexivity.
      * cbn [hd_error]. intros x [= <-]. congruence.
  - destruct (Z.eqb_spec val (-1)) as [-> | H2]; cbn [andb].
    + destruct (Z.eqb_spec prev (-1)) as [-> | Hp]; cbn [negb].
      * unfold trades_of. cbn [filter Z.eqb negb]. apply (IH (-1)%Z).
      * destruct (IH (-1)%Z) as (F & A & Hh). cbv zeta in F, A, Hh.
        unfold trades_of in *. cbn [filter Z.eqb negb].
        split; [constructor; [now right | exact F]|].
        split.
        -- destruct (filter _ (filter_signals_from (-1) rest)) as [|b t] eqn:E;
             [exact I|].
           split; [|exact A]. intros <-. apply (Hh (-1)%Z); reflexivity.
        -- cbn [hd_error]. intros x [= <-]. congruence.
    + unfold trades_of. cbn [filter Z.eqb negb]. apply (IH prev).
Qed.

Lemma filter_signals_from_length (l : list Z) :
  forall prev, length (filter_signals_from prev l) = length l.
Proof.
  induction l as [|val rest IH]; intros prev; cbn [filter_signals_from];
    [reflexivity|].
  destruct (_ && _)%bool; [|destruct (_ && _)%bool];
    cbn [length]; now rewrite IH.
Qed.

(** X19.  [filter_signals] returns a column as long as its input whose
    entries other than 0 are buys (1) and sells (-1) in strict
    alternation: never two buys, or two sells, without the other between
    them. *)
Theorem filter_signals_alternate (signal : list Z) :
  length (filter_signals signal) = length signal /\
  Forall (fun x => x = 1 \/ x = -1)%Z (trades_of (filter_signals signal)) /\
  alternating (trades_of (filter_signals signal)).
Proof.
  split; [apply filter_signals_from_length|].
  destruct (filter_signals_from_alternate signal 0) as (F & A & _).
  split; assumption.
Qed.

(** X20.  Filtering a second time changes nothing:
    [filter_signals(filter_signals(s)) = filter_signals(s)]. *)
Theorem filter_signals_idempotent (signal : list Z) :
  filter_signals (filter_signals signal) = filter_signals signal.
Proof.
  unfold filter_signals. generalize 0%Z as prev.
  induction signal as [|val rest IH]; intros prev; [reflexivity|].
  cbn [filter_signals_from].
  destruct (Z.eqb_spec val 1) as [-> | H1]; cbn [andb].
  - destruct (Z.eqb_spec prev 1) as [-> | Hp]; cbn [negb].
    + cbn [Z.eqb andb filter_signals_from]. now rewrite IH.
    + cbn [filter_signals_from Z.eqb andb].
      destruct (Z.eqb_spec prev 1); [contradiction|]. cbn [negb].
      now rewrite IH.
  - destruct (Z.eqb_spec val (-1)) as [-> | H2]; cbn [andb].
    + destruct (Z.eqb_spec prev (-1)) as [-> | Hp]; cbn [negb].
      * cbn [filter_signals_from Z.eqb andb]. now rewrite IH.
      * cbn [filter_signals_from Z.eqb andb].
        destruct (Z.eqb_spec prev (-1)); [contradiction|]. cbn [negb].
        now rewrite IH.
    + cbn [filter_signals_from Z.eqb andb]. now rewrite IH.
Qed.

Lemma position_from_filtered (signal : list Z) :
  forall prev current,
    (prev = 1 -> current = 1)%Z -> (prev = -1 -> current = 0)%Z ->
    position_from current (filter_signals_from prev signal)
      = position_from current signal.
Proof.
  induction signal as [|val rest IH]; intros prev current Hb Hs;
    [reflexivity|].
  cbn [filter_signals_from].
  destruct (Z.eqb_spec val 1) as [-> | H1]; cbn [andb].
  - destruct (Z.eqb_spec prev 1) as [Hp | Hp]; cbn [negb].
    + cbn [Z.eqb andb position_from]. rewrite (Hb Hp).
      f_equal. apply IH; [reflexivity | lia].
    + cbn [position_from Z.eqb]. f_equal. apply IH; [reflexivity | lia].
  - destruct (Z.eqb_spec val (-1)) as [-> | H2]; cbn [andb].
    + destruct (Z.eqb_spec prev (-1)) as [Hp | Hp]; cbn [negb].
      * cbn [position_from Z.eqb]. rewrite (Hs Hp).
        f_equal. apply IH; [lia | reflexivity].
      * cbn [position_from Z.eqb]. f_equal. apply IH; [lia | reflexivity].
    + cbn [position_from Z.eqb].
      destruct (Z.eqb_spec val 1); [contradiction|].
      destruct (Z.eqb_spec val (-1)); [contradiction|].
      f_equal. now apply IH.
Qed.

(** X21.  The position column does not depend on the filtering: the
    positions built from the filtered signals are those built from the
    raw signals, since a repeated buy or sell leaves the position where
    it is. *)
Theorem position_unchanged_by_filter (signal : list Z) :
  position (filter_signals signal) = position signal.
Proof.
  unfold position, filter_signals. apply position_from_filtered; lia.
Qed.

(* ===================================================================== *)
(** ** The bounds of the observation space *)
(* ===================================================================== *)

Lemma fold_min_finite (r : list xfloat) :
  forall m0 : Q,
    Forall finite r ->
    exists m,
      fold_left (fun m y => if xlt y m then y else m) r (Fin m0) = Fin m /\
      m <= m0 /\
      (forall q, In (Fin q) r -> m <= q) /\
      (m = m0 \/ In (Fin m) r).
Proof.
  induction r as [|y r IH]; intros m0 HF.
  - exists m0. cbn. repeat split; [lra | contradiction | now left].
  - inversion HF as [|? ? [q ->] HF']; subst. cbn [fold_left xlt].
    destruct (Qle_bool m0 q) eqn:E; cbn [negb].
    + apply Qle_bool_iff in E.
      destruct (IH m0 HF') as (m & Em & Hle & Hall & Hin).
      exists m. split; [exact Em|]. split; [exact Hle|]. split.
      * intros x [[= <-] | Hx]; [lra | now apply Hall].
      * destruct Hin; [now left | right; now right].
    + assert (Hlt : q < m0).
      { apply Qnot_le_lt. intros H. apply Qle_bool_iff in H. congruence. }
      destruct (IH q HF') as (m & Em & Hle & Hall & Hin).
      exists m. split; [exact Em|]. split; [lra|]. split.
      * intros x [[= <-] | Hx]; [lra | now apply Hall].
      * right. destruct Hin as [-> | Hin]; [now left | now right].
Qed.

Lemma fold_max_finite (r : list xfloat) :
  forall m0 : Q,
    Forall finite r ->
    exists m,
      fold_left (fun m y => if xgt y m then y else m) r (Fin m0) = Fin m /\
      m0 <= m /\
      (forall q, In (Fin q) r -> q <= m) /\
      (m = m0 \/ In (Fin m) r).
Proof.
  induction r as [|y r IH]; intros m0 HF.
  - exists m0. cbn. repeat split; [lra | contradiction | now left].
  - inversion HF as [|? ? [q ->] HF']; subst. unfold xgt.
    cbn [fold_left xlt]. fold (xgt).
    destruct (Qle_bool q m0) eqn:E; cbn [negb].
    + apply Qle_bool_iff in E.
      destruct (IH m0 HF') as (m & Em & Hle & Hall & Hin).
      exists m. split; [exact Em|]. split; [exact Hle|]. split.
      * intros x [[= <-] | Hx]; [lra | now apply Hall].
      * destruct Hin; [now left | right; now right].
    + assert (Hlt : m0 < q).
      { apply Qnot_le_lt. intros H. apply Qle_bool_iff in H. congruence. }
      destruct (IH q HF') as (m & Em & Hle & Hall & Hin).
      exists m. split; [exact Em|]. split; [lra|]. split.
      * intros x [[= <-] | Hx]; [lra | now apply Hall].
      * right. destruct Hin as [-> | Hin]; [now left | now right].
Qed.

(** The least and the greatest value of a column of numbers bound every
    value of the column and belong to it. *)
Lemma column_min_max_finite (l : list xfloat) (q : Q) :
  Forall finite l -> In (Fin q) l ->
  exists lo hi,
    column_min l = Fin lo /\ column_max l = Fin hi /\
    lo <= q <= hi /\ In (Fin lo) l /\ In (Fin hi) l.
Proof.
  intros HF Hin. destruct l as [|x r]; [contradiction|].
  inversion HF as [|? ? [x0 ->] HF']; subst.
  destruct (fold_min_finite x0 HF') as (lo & Elo & Hlo & Alo & Ilo).
  destruct (fold_max_finite x0 HF') as (hi & Ehi & Hhi & Ahi & Ihi).
  exists lo, hi. unfold column_min, column_max.
  split; [exact Elo|]. split; [exact Ehi|].
  split.
  - destruct Hin as [[= <-] | Hin]; [lra|].
    split; [now apply Alo | now apply Ahi].
  - split.
    + destruct Ilo as [-> | H]; [now left | now right].
    + destruct Ihi as [-> | H]; [now left | now right].
Qed.

(** X22.  For a finite series of non-negative spreads, the spread, the
    indicator and the spread change of every observation that [_get_obs]
    produces lie within the bounds of [observation_space]: the least
    spread times 0.9 and the greatest times 1.1, 0 and 100, the least and
    the greatest spread change. *)
Theorem observation_within_space_bounds (prices : list xfloat) (w : Z)
    (ib rate dv : Q) (env s : CreditRSIEnv) (o : Obs) :
  Forall (fun v => exists q, v = Fin q /\ 0 <= q) prices ->
  init prices w ib rate dv = Ok env ->
  reachable env s ->
  fst (_get_obs s) = Ok o ->
  let low := fst (observation_space s) in
  let high := snd (observation_space s) in
  xle (obs_price low) (obs_price o) = true /\
  xle (obs_price o) (obs_price high) = true /\
  xle (obs_rsi low) (obs_rsi o) = true /\
  xle (obs_rsi o) (obs_rsi high) = true /\
  xle (obs_spread_change low) (obs_spread_change o) = true /\
  xle (obs_spread_change o) (obs_spread_change high) = true.
Proof.
  intros Hpos Hinit Hreach Hobs.
  assert (HF : Forall finite prices).
  { eapply Forall_impl; [|exact Hpos]. intros v (q & -> & _).
    eexists; reflexivity. }
  destruct (@init_facts _ _ _ _ _ _ Hinit) as (_ & _ & _ & _ & Iw & Ipre).
  destruct (@init_bounds _ _ _ _ _ _ Hinit) as [Hw _]. rewrite Iw in Hw.
  destruct (preprocess_finite_frame Hw HF) as (frame & Ep & A & _ & _).
  rewrite Ep in Ipre. injection Ipre as Ef. subst frame.
  destruct (@preprocess_finite _ _ _ HF Ep) as [Hrows Hrsi].
  destruct (reachable_config Hreach) as (Cdf & _).
  revert Hobs. unfold _get_obs, bind, self, lift, ret.
  destruct (iloc (df s) (current_step s)) as [row|] eqn:E;
    cbn [fst]; [|discriminate].
  intros [= <-]. cbv zeta. unfold observation_space, low_bounds, high_bounds.
  cbn [fst snd obs_price obs_rsi obs_spread_change obs_map]. rewrite Cdf.
  apply iloc_In in E. rewrite Cdf in E.
  rewrite Forall_forall in Hrows, Hrsi, Hpos.
  destruct (Hrows _ E) as ((pq & Hpq) & _ & (cq & Hcq)).
  destruct (Hrsi _ E) as (rq & Hrq & Hr).
  assert (Hprices : Forall finite (map price (df env)))
    by (rewrite A; exact HF).
  assert (Hchanges : Forall finite (map spread_change (df env))).
  { apply Forall_map. apply Forall_forall. intros x Hx.
    now destruct (Hrows _ Hx) as (_ & _ & H). }
  assert (Ip : In (Fin pq) (map price (df env)))
    by (rewrite <- Hpq; now apply in_map).
  assert (Ic : In (Fin cq) (map spread_change (df env)))
    by (rewrite <- Hcq; now apply in_map).
  destruct (@column_min_max_finite _ _ Hprices Ip)
    as (plo & phi & -> & -> & Hp & Iplo & Iphi).
  destruct (@column_min_max_finite _ _ Hchanges Ic)
    as (clo & chi & -> & -> & Hc & _).
  rewrite A in Iplo. destruct (Hpos _ Iplo) as (x & [= <-] & Hx).
  rewrite Hpq, Hrq, Hcq. cbn [xmul].
  repeat split; apply float32_le; cbn [xle]; apply Qle_bool_iff; lra.
Qed.

(* ===================================================================== *)
(** ** Construction and the observation space *)
(* ===================================================================== *)

Lemma xle_not_xgt (x y : xfloat) : xle x y = true -> xgt x y = false.
Proof.
  destruct x, y; cbn; try discriminate; try reflexivity.
  intros ->. reflexivity.
Qed.

Lemma xlt_Fin_ge (a b : Q) : b <= a -> xlt (Fin a) (Fin b) = false.
Proof.
  intros H. cbn [xlt]. apply Qle_bool_iff in H. now rewrite H.
Qed.

Lemma bound_pair_cast (low high : xfloat) :
  bound_pair low high -> xgt (float32 low) (float32 high) = false.
Proof.
  intros (a & b & -> & -> & _ & H & _).
  apply xle_not_xgt, float32_le. cbn [xle]. now apply Qle_bool_iff.
Qed.

(** [Box] accepts bounds that are numbers in order within the range of
    float32, and holds them cast. *)
Lemma Box_accepts (low high : Obs) :
  bound_pair (obs_price low) (obs_price high) ->
  bound_pair (obs_rsi low) (obs_rsi high) ->
  bound_pair (obs_shares_held low) (obs_shares_held high) ->
  bound_pair (obs_balance low) (obs_balance high) ->
  bound_pair (obs_spread_change low) (obs_spread_change high) ->
  Box low high = Ok (obs_map float32 low, obs_map float32 high).
Proof.
  intros H1 H2 H3 H4 H5. unfold Box.
  cbn [obs_map obs_price obs_rsi obs_shares_held obs_balance
       obs_spread_change].
  rewrite (bound_pair_cast H1), (bound_pair_cast H2), (bound_pair_cast H3),
    (bound_pair_cast H4), (bound_pair_cast H5).
  destruct low as [l1 l2 l3 l4 l5], high as [h1 h2 h3 h4 h5].
  cbn [obs_price obs_rsi obs_shares_held obs_balance obs_spread_change]
    in H1, H2, H3, H4, H5.
  destruct H1 as (a1 & b1 & -> & -> & A1 & _ & B1).
  destruct H2 as (a2 & b2 & -> & -> & A2 & _ & B2).
  destruct H3 as (a3 & b3 & -> & -> & A3 & _ & B3).
  destruct H4 as (a4 & b4 & -> & -> & A4 & _ & B4).
  destruct H5 as (a5 & b5 & -> & -> & A5 & _ & B5).
  cbn [obs_values obs_price obs_rsi obs_shares_held obs_balance
       obs_spread_change existsb isnan xeqb orb].
  rewrite !xlt_Fin_ge by assumption.
  reflexivity.
Qed.

Lemma magnitudes_fit :
  100 <= largest_magnitude /\ 5 * largest_magnitude <= float32_max.
Proof. split; apply Qle_bool_iff; vm_compute; reflexivity. Qed.

(** The moves of a column of spreads are of moderate magnitude. *)
Lemma diff_from_moderate (l : list xfloat) :
  forall p : Q,
    0 <= p <= largest_magnitude ->
    Forall spread_value l ->
    Forall (fun v => exists q, v = Fin q /\ moderate q)
      (diff_from (Fin p) l).
Proof.
  induction l as [|x r IH]; intros p Hp HF; cbn [diff_from]; [constructor|].
  inversion HF as [|? ? (q & -> & Hq) HF']; subst. constructor.
  - cbn [xsub xneg xadd]. eexists. split; [reflexivity|].
    unfold moderate. lra.
  - now apply IH.
Qed.

Lemma spread_value_finite (l : list xfloat) :
  Forall spread_value l -> Forall finite l.
Proof.
  intros H. eapply Forall_impl; [|exact H].
  intros v (q & -> & _). eexists. reflexivity.
Qed.

(** The bounds that [__init__] computes from a frame of spreads of
    moderate magnitude and from an initial balance that is not negative
    are accepted. *)
Lemma bounds_accepted (s : CreditRSIEnv) :
  df s <> [] ->
  Forall spread_value (map price (df s)) ->
  Forall (fun v => exists q, v = Fin q /\ moderate q)
    (map spread_change (df s)) ->
  0 <= initial_balance s <= largest_magnitude ->
  Box (low_bounds s) (high_bounds s) = Ok (observation_space s).
Proof.
  intros Hne HP HC Hib.
  destruct magnitudes_fit as [M1 M2].
  destruct (df s) as [|r0 fr] eqn:Edf; [contradiction|].
  assert (HPf : Forall finite (map price (r0 :: fr)))
    by (now apply spread_value_finite).
  assert (HCf : Forall finite (map spread_change (r0 :: fr))).
  { eapply Forall_impl; [|exact HC]. intros v (q & -> & _).
    eexists. reflexivity. }
  assert (Ip : exists q, In (Fin q) (map price (r0 :: fr))).
  { inversion HP as [|? ? (q & Hq & _) _]; subst. exists q.
    rewrite <- Hq. now left. }
  assert (Ic : exists q, In (Fin q) (map spread_change (r0 :: fr))).
  { inversion HC as [|? ? (q & Hq & _) _]; subst. exists q.
    rewrite <- Hq. now left. }
  destruct Ip as (pq & Ip). destruct Ic as (cq & Ic).
  destruct (@column_min_max_finite _ _ HPf Ip)
    as (plo & phi & Eplo & Ephi & Hp & Iplo & Iphi).
  destruct (@column_min_max_finite _ _ HCf Ic)
    as (clo & chi & Eclo & Echi & Hc & Iclo & Ichi).
  rewrite Forall_forall in HP, HC.
  destruct (HP _ Iplo) as (x1 & [= <-] & Hplo).
  destruct (HP _ Iphi) as (x2 & [= <-] & Hphi).
  destruct (HC _ Iclo) as (x3 & [= <-] & Hclo).
  destruct (HC _ Ichi) as (x4 & [= <-] & Hchi).
  unfold moderate in Hclo, Hchi.
  unfold observation_space. apply Box_accepts;
    unfold low_bounds, high_bounds;
    cbn [obs_price obs_rsi obs_shares_held obs_balance obs_spread_change];
    rewrite ?Edf, ?Eplo, ?Ephi, ?Eclo, ?Echi;
    cbn [xmul xneg of_Z _max_shares inject_Z];
    do 2 eexists; (split; [reflexivity|]); (split; [reflexivity|]);
    try change (inject_Z _max_shares) with (10 # 1); lra.
Qed.

(** The outcome of construction on a series of spreads of moderate
    magnitude, with a window of at least one period and an initial
    balance that is not negative. *)
Lemma init_outcome (prices : list xfloat) (w : Z) (ib rate dv : Q) :
  (1 <= w)%Z ->
  Forall spread_value prices ->
  0 <= ib <= largest_magnitude ->
  exists frame,
    preprocess prices w = Ok frame /\
    length frame = length prices /\
    ((len frame < w + 2)%Z ->
       init prices w ib rate dv = Raise ValueError) /\
    ((w + 2 <= len frame)%Z ->
       exists env,
         init prices w ib rate dv = Ok env /\
         df env = frame /\ max_steps env = (len frame - 1)%Z).
Proof.
  intros Hw HP Hib.
  pose proof (spread_value_finite HP) as HF.
  destruct (preprocess_finite_frame Hw HF) as (frame & Ep & A & C & Hlen).
  exists frame. split; [exact Ep|]. split; [exact Hlen|].
  unfold init. rewrite Ep. cbn [rbind].
  destruct frame as [|r0 fr].
  - split; [reflexivity|]. unfold len. cbn [length]. lia.
  - destruct (Z.ltb_spec (len (r0 :: fr)) (w + 2)) as [Hs | Hl].
    + split; [reflexivity | lia].
    + split; [lia|]. intros _.
      rewrite bounds_accepted.
      * cbn [rbind]. eexists. split; [reflexivity|]. split; reflexivity.
      * cbn [df]. discriminate.
      * cbn [df]. rewrite A. exact HP.
      * cbn [df]. rewrite C.
        destruct prices as [|p r]; [discriminate|].
        inversion HP as [|? ? (q & -> & Hq) HP']; subst.
        rewrite (spread_change_column HF). constructor.
        -- exists 0. split; [reflexivity|]. unfold moderate.
           destruct magnitudes_fit. lra.
        -- now apply diff_from_moderate.
      * cbn [initial_balance]. exact Hib.
Qed.


(** X11.  For a series of spreads (numbers that are not negative, of
    moderate magnitude), an initial balance that is not negative and a
    window within the machine integers, construction raises ValueError
    exactly when the window is below one period or the series has fewer
    than [window + 2] rows, and returns the object in every other
    case. *)
Theorem init_on_finite_series (prices : list xfloat) (w : Z)
    (ib rate dv : Q) :
  (w <= largest_window)%Z ->
  Forall spread_value prices ->
  0 <= ib <= largest_magnitude ->
  (init prices w ib rate dv = Raise ValueError
     <-> (w < 1 \/ len prices < w + 2)%Z) /\
  ((1 <= w /\ w + 2 <= len prices)%Z ->
     exists env, init prices w ib rate dv = Ok env).
Proof.
  intros _ HP Hib.
  destruct (Z.ltb_spec w 1) as [Hlow | Hw].
  - assert (E : init prices w ib rate dv = Raise ValueError).
    { unfold init, preprocess, calculate_rsi, ewm_mean.
      replace (w - 1 <? 0)%Z with true by (symmetry; apply Z.ltb_lt; lia).
      reflexivity. }
    split; [split; [intros _; lia | intros _; exact E] | lia].
  - destruct (init_outcome rate dv Hw HP Hib)
      as (frame & _ & Hlen & Hshort & Hlong).
    assert (Hl : len frame = len prices) by (unfold len; now rewrite Hlen).
    rewrite Hl in Hshort, Hlong.
    split.
    + split.
      * intros E. right.
        destruct (Z.lt_ge_cases (len prices) (w + 2)) as [|Hge];
          [assumption|].
        destruct (Hlong Hge) as (env & E' & _). congruence.
      * intros [Hbad | Hs]; [lia | now apply Hshort].
    + intros [_ Hge]. destruct (Hlong Hge) as (env & E' & _). eauto.
Qed.

(** The preprocessing raises nothing but ValueError. *)
Lemma preprocess_raises_ValueError (prices : list xfloat) (w : Z) (e : exn) :
  preprocess prices w = Raise e -> e = ValueError.
Proof.
  unfold preprocess, calculate_rsi, ewm_mean.
  destruct (w - 1 <? 0)%Z; cbn [rbind]; [|discriminate].
  now intros [= <-].
Qed.

(** [Box] raises nothing but ValueError, and raises it when the low
    bound of the balance, once cast, is above the high bound. *)
Lemma Box_rejects_balance (low high : Obs) :
  xgt (float32 (obs_balance low)) (float32 (obs_balance high)) = true ->
  Box low high = Raise ValueError.
Proof.
  intros H. unfold Box.
  do 4 (match goal with
        | |- (if ?c then Raise ValueError else _) = _ =>
            destruct c; [reflexivity|]
        end).
  cbn [obs_map obs_price obs_rsi obs_shares_held obs_balance
       obs_spread_change].
  rewrite H, ?orb_true_r. reflexivity.
Qed.

Lemma xlt_through_zero (b b' a' a : xfloat) :
  xle b b' = true -> xlt b' (Fin 0) = true ->
  xlt (Fin 0) a' = true -> xle a' a = true ->
  xlt b a = true.
Proof.
  intros H1 H2 H3 H4.
  assert (Hb : xlt b (Fin 0) = true).
  { destruct b as [x| | |], b' as [y| | |]; try discriminate;
      try reflexivity.
    cbn [xle xlt] in *. apply Qle_bool_iff in H1.
    destruct (Qle_bool 0 y) eqn:E; [discriminate|].
    destruct (Qle_bool 0 x) eqn:E'; [|reflexivity].
    apply Qle_bool_iff in E'.
    assert (0 <= y) by lra. apply Qle_bool_iff in H. congruence. }
  assert (Ha : xlt (Fin 0) a = true).
  { destruct a as [x| | |], a' as [y| | |]; try discriminate;
      try reflexivity.
    cbn [xle xlt] in *. apply Qle_bool_iff in H4.
    destruct (Qle_bool y 0) eqn:E; [discriminate|].
    destruct (Qle_bool x 0) eqn:E'; [|reflexivity].
    apply Qle_bool_iff in E'.
    assert (y <= 0) by lra. apply Qle_bool_iff in H. congruence. }
  clear H1 H2 H3 H4.
  destruct a as [x| | |], b as [y| | |]; try discriminate; try reflexivity.
  cbn [xlt] in *.
  destruct (Qle_bool 0 y) eqn:E1; [discriminate|].
  destruct (Qle_bool x 0) eqn:E2; [discriminate|].
  destruct (Qle_bool x y) eqn:E3; [|reflexivity].
  apply Qle_bool_iff in E3.
  assert (N1 : ~ 0 <= y) by (intros H; apply Qle_bool_iff in H; congruence).
  assert (N2 : ~ x <= 0) by (intros H; apply Qle_bool_iff in H; congruence).
  lra.
Qed.

(** The casts of a number of at least half of 10^-30 and of a number of
    at most five times -10^-30 are in strict order. *)
Lemma float32_separates (a b : Q) :
  least_move * (1 # 2) <= a -> b <= - least_move * 5 ->
  xgt (float32 (Fin a)) (float32 (Fin b)) = true.
Proof.
  intros Ha Hb.
  assert (La : xle (float32 (Fin (least_move * (1 # 2)))) (float32 (Fin a))
               = true)
    by (apply float32_le; cbn [xle]; now apply Qle_bool_iff).
  assert (Lb : xle (float32 (Fin b)) (float32 (Fin (- least_move * 5)))
               = true)
    by (apply float32_le; cbn [xle]; now apply Qle_bool_iff).
  assert (Ea : xlt (Fin 0) (float32 (Fin (least_move * (1 # 2)))) = true)
    by (vm_compute; reflexivity).
  assert (Eb : xlt (float32 (Fin (- least_move * 5))) (Fin 0) = true)
    by (vm_compute; reflexivity).
  unfold xgt.
  exact (xlt_through_zero _ _ _ _ Lb Eb Ea La).
Qed.

(** X23.  A negative initial balance (of moderate magnitude) is
    rejected: whatever the series and the window (within the machine
    integers), construction raises ValueError.  Where the preprocessing
    and the length test pass, it is the observation space that fails:
    its low bound -0.5 * initial_balance for the balance is above the
    high bound 5 * initial_balance. *)
Theorem init_rejects_negative_balance (prices : list xfloat) (w : Z)
    (ib rate dv : Q) :
  (w <= largest_window)%Z ->
  - largest_magnitude <= ib <= - least_move ->
  init prices w ib rate dv = Raise ValueError.
Proof.
  intros _ [_ Hib]. unfold init.
  destruct (preprocess prices w) as [frame|e] eqn:Ep; cbn [rbind].
  - destruct frame as [|r0 fr]; [reflexivity|].
    destruct (_ <? _)%Z; [reflexivity|].
    rewrite Box_rejects_balance; [reflexivity|].
    unfold low_bounds, high_bounds.
    cbn [obs_balance initial_balance xmul xneg].
    apply float32_separates; lra.
  - now rewrite (preprocess_raises_ValueError _ _ Ep).
Qed.

(* ===================================================================== *)
(** ** The properties above at work *)
(* ===================================================================== *)

(** The counting generator keeps to the range it is asked for. *)
Lemma counter_randint_in_range (a b g0 : Z) :
  (a <= b)%Z -> (a <= fst (counter_randint a b g0) <= b)%Z.
Proof.
  intros Hab. unfold counter_randint. cbn [fst].
  pose proof (Z.mod_pos_bound g0 (b - a + 1) ltac:(lia)). lia.
Qed.

(** The step on the last row (6) of a series of 7 rows moves the index to
    7, the length of the series, and no further. *)
Lemma step_index_advances_within_series_witness :
  exists env0,
    init sample_prices 1 10000 (5 # 10000) 100000 = Ok env0 /\
    let env1 := snd (fst (reset counter_randint None 0%Z env0)) in
    let s := snd (run [0; 0; 0; 0]%Z env1) in
    (current_step s = 6 /\ current_step (snd (step 1 s)) = 7)%Z /\
    let s' := snd (step 1 s) in
    (current_step s <= current_step s' <= current_step s + 1)%Z /\
    (current_step s' <= len (df s'))%Z.
Proof.
  exists_returned (init sample_prices 1 10000 (5 # 10000) 100000).
  split; [vm_compute; reflexivity|].
  match goal with
  | |- let env1 := ?t1 in let s := @?t env1 in _ =>
      let s := eval vm_compute in (t t1) in
      pose proof (@step_index_advances_within_series 1 s) as H
  end.
  specialize (H ltac:(apply Z.leb_le; reflexivity)).
  split; [vm_compute; split; reflexivity|].
  by_evaluation H.
Defined.

(** With a balance of 10000 and a cost of 50 the buy after [reset]
    executes: one unit, and the marked balance less 50. *)
Lemma step_buy_protection_witness :
  exists env0,
    init sample_prices 1 10000 (5 # 10000) 100000 = Ok env0 /\
    let s := snd (fst (reset counter_randint None 0%Z env0)) in
    exists r s',
      step 1 s = (Ok r, s') /\
      shares_held s' = 1%Z /\
      balance s' =
        xsub (xadd (balance s) (mtm_pnl s s')) (transaction_cost_per_unit s).
Proof.
  exists_returned (init sample_prices 1 10000 (5 # 10000) 100000).
  split; [vm_compute; reflexivity|].
  match goal with
  | |- let s := ?t in _ =>
      let s := eval vm_compute in t in
      pose proof (@step_buy_protection s) as H
  end.
  specialize (H ltac:(split; [reflexivity | cbn; lia])).
  specialize (H ltac:(cbn; lia)).
  destruct H as (r & s' & E & Hyes & _).
  exists r, s'.
  pose proof E as E'. vm_compute in E'. injection E' as E1 E2. subst r s'.
  destruct (Hyes ltac:(vm_compute; reflexivity)) as [B S].
  split; [vm_compute; reflexivity|].
  split; [vm_compute; reflexivity|].
  by_evaluation B.
Defined.

(** The buy after [reset] executes and leaves a balance that is not below
    zero. *)
Lemma opening_trade_never_ruins_witness :
  exists env0,
    init sample_prices 1 10000 (5 # 10000) 100000 = Ok env0 /\
    let s := snd (fst (reset counter_randint None 0%Z env0)) in
    exists r s',
      step 1 s = (Ok r, s') /\
      shares_held s' <> shares_held s /\
      xlt (balance s') (Fin 0) = false.
Proof.
  exists_returned (init sample_prices 1 10000 (5 # 10000) 100000).
  split; [vm_compute; reflexivity|].
  match goal with
  | |- let s := ?t in _ =>
      let s := eval vm_compute in t in
      pose proof (@opening_trade_never_ruins 1 s) as H
  end.
  specialize (H ltac:(split; [reflexivity | cbn; lia])).
  specialize (H ltac:(cbn; lia)).
  specialize (H ltac:(left; reflexivity)).
  destruct H as (r & s' & E & Hn).
  exists r, s'.
  pose proof E as E'. vm_compute in E'. injection E' as E1 E2. subst r s'.
  assert (C : (1 <> 0)%Z) by lia.
  split; [vm_compute; reflexivity|].
  split; [exact C|].
  exact (Hn C).
Defined.

(** A hold after [reset] on the rising and falling series, with an
    initial balance of 16777217 = 2^24 + 1: the balance stays, the info
    carries it as it is and the observation shows it as the float32
    16777216. *)
Lemma step_reports_the_state_it_leaves_witness :
  exists env0,
    init sample_prices 1 16777217 (5 # 10000) 100000 = Ok env0 /\
    let s := snd (fst (reset counter_randint None 0%Z env0)) in
    exists r s',
      step 0 s = (Ok r, s') /\
      (xequiv (balance s') (Fin 16777217) /\
       xequiv (obs_balance (observation r)) (Fin 16777216)) /\
      fst (_get_obs s') = Ok (observation r) /\
      obs_shares_held (observation r) = float32 (of_Z (shares_held s')) /\
      obs_balance (observation r) = float32 (balance s') /\
      obs_price (observation r) = float32 (price_at s') /\
      info r = InfoStep (balance s') (shares_held s') (price_at s') /\
      truncated r = false.
Proof.
  exists_returned (init sample_prices 1 16777217 (5 # 10000) 100000).
  split; [vm_compute; reflexivity|].
  match goal with
  | |- let s := ?t in _ =>
      let s := eval vm_compute in t in
      pose proof (@step_reports_the_state_it_leaves 0 s) as H
  end.
  specialize (H ltac:(split; [reflexivity | cbn; lia])).
  specialize (H ltac:(cbn; lia)).
  destruct H as (r & s' & E & H).
  exists r, s'.
  pose proof E as E'. vm_compute in E'. injection E' as E1 E2. subst r s'.
  split; [vm_compute; reflexivity|].
  split; [vm_compute; split; reflexivity|].
  by_evaluation H.
Defined.

(** A long unit over a fall of 1 bp leaves -90050, which is below half of
    10000: the step reports [done]. *)
Lemma step_done_iff_below_half_witness :
  exists env0,
    init falling_prices 1 10000 (5 # 10000) 100000 = Ok env0 /\
    let s := snd (step 1 (snd (fst (reset counter_randint None 0%Z env0)))) in
    exists r s',
      step 0 s = (Ok r, s') /\
      done r = xlt (balance s') (Fin (initial_balance s * (1 # 2))) /\
      done r = true.
Proof.
  exists_returned (init falling_prices 1 10000 (5 # 10000) 100000).
  split; [vm_compute; reflexivity|].
  match goal with
  | |- let s := ?t in _ =>
      let s := eval vm_compute in t in
      pose proof (@step_done_iff_below_half 0 s) as H
  end.
  specialize (H ltac:(split; [reflexivity | cbn; lia])).
  specialize (H ltac:(cbn; lia)).
  specialize (H ltac:(cbn; lra)).
  destruct H as (r & s' & E & D).
  exists r, s'.
  pose proof E as E'. vm_compute in E'. injection E' as E1 E2. subst r s'.
  split; [vm_compute; reflexivity|].
  split; [by_evaluation D | vm_compute; reflexivity].
Defined.

(** Buy, hold, sell from row 2 of the rising and falling series: three
    entries, with the actions 1, 0, 2 and the rows 3, 4, 5. *)
Lemma run_history_records_every_step_witness :
  exists env0,
    init sample_prices 1 10000 (5 # 10000) 100000 = Ok env0 /\
    let env1 := snd (fst (reset counter_randint None 0%Z env0)) in
    exists rets env2,
      run [1; 0; 2]%Z env1 = (Ok rets, env2) /\
      (map h_action (episode_history env2) = [1; 0; 2]%Z /\
       map h_step (episode_history env2) = [3; 4; 5]%Z) /\
      let log := episode_history env2 in
      let left := tl (trace [1; 0; 2]%Z env1) in
      map h_action log = [1; 0; 2]%Z /\
      map h_reward log = map reward rets /\
      map h_step log = map current_step left /\
      map h_balance log = map balance left /\
      map h_shares_held log = map shares_held left.
Proof.
  exists_returned (init sample_prices 1 10000 (5 # 10000) 100000).
  split; [vm_compute; reflexivity|].
  match goal with
  | |- let env1 := snd (fst (reset _ _ _ ?e0)) in _ =>
      let r := eval vm_compute in (reset counter_randint None 0%Z e0) in
      match r with
      | ((Ok ?o, ?e1), ?g1) =>
          pose proof (@run_history_records_every_step Z counter_randint
                        None 0%Z g1 e0 e1 o [1; 0; 2]%Z) as H
      end
  end.
  specialize (H ltac:(vm_compute; reflexivity)).
  specialize (H ltac:(split; [reflexivity | cbn; lia])).
  specialize (H ltac:(cbn; lia)).
  destruct H as (rets & env2 & E & H).
  cbv zeta. exists rets, env2.
  pose proof E as E'. vm_compute in E'. injection E' as E1 E2. subst rets env2.
  split; [vm_compute; reflexivity|].
  split; [vm_compute; split; reflexivity|].
  by_evaluation H.
Defined.

(** Buy, hold, sell from row 2 of the rising and falling series: no
    penalty is charged, the rewards add up to the mark-to-market P&L of
    300000, and the balance is 10000 + 300000 less two costs of 50. *)
Lemma run_total_reward_and_balance_witness :
  exists env0,
    init sample_prices 1 10000 (5 # 10000) 100000 = Ok env0 /\
    let env1 := snd (fst (reset counter_randint None 0%Z env0)) in
    exists rets env2,
      run [1; 0; 2]%Z env1 = (Ok rets, env2) /\
      (xequiv (total_reward rets) (Fin 300000) /\
       xequiv (balance env2) (Fin 309900)) /\
      let steps := trace [1; 0; 2]%Z env1 in
      let penalties := Fin (penalties_charged (tl steps)) in
      xequiv (total_reward rets) (xsub (sum_pnl steps) penalties) /\
      xequiv (balance env2)
        (xsub (xadd (xadd (Fin 10000) (total_reward rets)) penalties)
           (xmul (Fin (100000 * (5 # 10000)))
              (of_Z (executed_trades steps)))).
Proof.
  exists_returned (init sample_prices 1 10000 (5 # 10000) 100000).
  split; [vm_compute; reflexivity|].
  match goal with
  | |- let env1 := snd (fst (reset _ _ _ ?e0)) in _ =>
      let r := eval vm_compute in (reset counter_randint None 0%Z e0) in
      match r with
      | ((Ok ?o, ?e1), ?g1) =>
          pose proof (@run_total_reward_and_balance Z counter_randint
                        None 0%Z g1 sample_prices 1 10000 (5 # 10000) 100000
                        e0 e0 e1 o [1; 0; 2]%Z) as H
      end
  end.
  specialize (H ltac:(unfold sample_prices, of_Z; cbn [map]; finite_column)).
  specialize (H ltac:(vm_compute; reflexivity)).
  specialize (H ltac:(apply reach_here)).
  specialize (H ltac:(vm_compute; reflexivity)).
  specialize (H ltac:(cbn; lia)).
  specialize (H ltac:(cbn; lia)).
  destruct H as (rets & env2 & E & H).
  cbv zeta. exists rets, env2.
  pose proof E as E'. vm_compute in E'. injection E' as E1 E2. subst rets env2.
  split; [vm_compute; reflexivity|].
  split; [vm_compute; split; reflexivity|].
  by_evaluation H.
Defined.

(** On a constant series of 110 rows with a window of 1, [reset] of a used
    object with the counting generator starts between rows 2 and 109, with
    at least 100 rows after the start. *)
Lemma reset_starts_inside_the_series_witness :
  exists env,
    init (flat_prices 110) 1 10000 (5 # 10000) 100000 = Ok env /\
    let s := snd (step 1 (snd (fst (reset counter_randint None 5%Z env)))) in
    exists o s1 g1,
      reset counter_randint (Some 42%Z) 6%Z s
        = ((Ok (o, InfoReset 10000), s1), g1) /\
      (1 + 1 <= current_step s1 <= max_steps s1)%Z /\
      (current_step s1 + 100 <= max_steps s1)%Z /\
      obs_shares_held o = of_Z 0 /\
      obs_balance o = float32 (Fin 10000).
Proof.
  exists_returned (init (flat_prices 110) 1 10000 (5 # 10000) 100000).
  split; [vm_compute; reflexivity|].
  cbv zeta.
  match goal with
  | |- exists o s1 g1, reset _ _ _ ?s = _ /\ _ =>
      match s with
      | context [reset _ _ _ ?e0] =>
          pose proof (@reset_starts_inside_the_series Z counter_randint
                        (Some 42%Z) 6%Z (flat_prices 110) 1 10000
                        (5 # 10000) 100000 e0 s) as H
      end
  end.
  specialize (H ltac:(cbn; lia)).
  specialize (H counter_randint_in_range).
  specialize (H ltac:(vm_compute; reflexivity)).
  specialize (H ltac:(apply (reach_step 1);
                      apply (reach_reset counter_randint None 5%Z);
                      apply reach_here)).
  destruct H as (o & s1 & g1 & E & _ & Hin & Hlong & Hs & Hb & _).
  exists o, s1, g1.
  split; [exact E|]. split; [exact Hin|].
  split; [|split; [exact Hs | exact Hb]].
  apply Hlong. apply Z.leb_le. vm_compute. reflexivity.
Defined.

(** On a series of 7 rows [reset] starts at row 2 whatever the valid seed and
    the generator, on the fresh object and on a used one, and leaves the
    generator as it was. *)
Lemma reset_on_short_series_is_deterministic_witness :
  exists env,
    init sample_prices 1 10000 (5 # 10000) 100000 = Ok env /\
    let s' := snd (step 1 (snd (fst (reset counter_randint None 0%Z env)))) in
    same_config env s' /\
    (max_steps env - 100 < window env + 1)%Z /\
    let first := reset counter_randint None 3%Z env in
    let second := reset counter_randint (Some 42%Z) 8%Z s' in
    fst (fst first) = fst (fst second) /\
    current_step (snd (fst first)) = (window env + 1)%Z /\
    current_step (snd (fst second)) = (window env + 1)%Z /\
    snd first = 3%Z /\ snd second = 8%Z.
Proof.
  exists_returned (init sample_prices 1 10000 (5 # 10000) 100000).
  split; [vm_compute; reflexivity|].
  match goal with
  | |- let s' := ?t in _ =>
      let s' := eval vm_compute in t in
      match t with
      | context [reset _ _ _ ?e0] =>
          assert (C : same_config e0 s') by (vm_compute; repeat split);
          assert (L : (max_steps e0 - 100 < window e0 + 1)%Z)
            by (cbn; lia);
          pose proof (@reset_on_short_series_is_deterministic Z Z
                        counter_randint counter_randint None (Some 42%Z)
                        3%Z 8%Z e0 s' I ltac:(cbn; lia) C L) as H
      end
  end.
  split; [vm_compute; repeat split|].
  split; [exact L|].
  by_evaluation H.
Defined.

(** The series of 7 rows builds the object with a window of 5, and is
    rejected with a window of 6 or of 0. *)
Lemma init_on_finite_series_witness :
  (exists env, init sample_prices 5 10000 (5 # 10000) 100000 = Ok env) /\
  init sample_prices 6 10000 (5 # 10000) 100000 = Raise ValueError /\
  init sample_prices 0 10000 (5 # 10000) 100000 = Raise ValueError.
Proof.
  assert (HP : Forall spread_value sample_prices)
    by (unfold sample_prices, of_Z; cbn [map]; spread_column).
  assert (Hib : 0 <= 10000 <= largest_magnitude) by in_range.
  split; [|split].
  - apply (@init_on_finite_series sample_prices 5 10000 (5 # 10000) 100000
             ltac:(apply Z.leb_le; reflexivity) HP Hib).
    split; [lia | apply Z.leb_le; reflexivity].
  - apply (@init_on_finite_series sample_prices 6 10000 (5 # 10000) 100000
             ltac:(apply Z.leb_le; reflexivity) HP Hib).
    right. apply Z.ltb_lt. reflexivity.
  - apply (@init_on_finite_series sample_prices 0 10000 (5 # 10000) 100000
             ltac:(apply Z.leb_le; reflexivity) HP Hib).
    left. lia.
Defined.

(** An initial balance of -10000 on the series of 7 rows with a window
    of 1: ValueError, although the same call with 10000 returns. *)
Lemma init_rejects_negative_balance_witness :
  init sample_prices 1 (-10000) (5 # 10000) 100000 = Raise ValueError /\
  exists env, init sample_prices 1 10000 (5 # 10000) 100000 = Ok env.
Proof.
  split.
  - apply init_rejects_negative_balance.
    + apply Z.leb_le. reflexivity.
    + in_range.
  - exists_returned (init sample_prices 1 10000 (5 # 10000) 100000).
    vm_compute. reflexivity.
Defined.





(** C1 (counterexample).  With the default configuration and the spreads
    100.03, 99.93, 100.22, 100.17 of rows 2 to 5, the actions buy, hold,
    sell from row 2 leave the binary64 balance 33899.99999999948, while
    10000 plus the sum of the three P&L less two costs of 50 is
    33899.99999999949 in binary64, in either order of the sum. *)
Lemma balance_differs_from_closed_form_in_binary64 :
  exists (a : Binary64.Account) (pnls : list float),
    Binary64.b64_run decimal_prices 100000 0.0005 [1; 0; 2]%Z
      (Binary64.mkAccount 10000 0 2) = Some (a, pnls, 2%Z) /\
    PrimFloat.eqb (Binary64.b_balance a)
      (Binary64.closed_form_forwards 10000 (100000 * 0.0005) pnls 2)
      = false /\
    PrimFloat.eqb (Binary64.b_balance a)
      (Binary64.closed_form_backwards 10000 (100000 * 0.0005) pnls 2)
      = false /\
    PrimFloat.ltb (Binary64.b_balance a) 33899.99999999949 = true /\
    PrimFloat.eqb
      (Binary64.closed_form_forwards 10000 (100000 * 0.0005) pnls 2)
      33899.99999999949 = true.
Proof.
  match goal with
  | |- exists a pnls, ?t = _ /\ _ =>
      let r := eval vm_compute in t in
      match r with
      | Some (?a, ?p, _) => exists a, p
      end
  end.
  repeat split; vm_compute; reflexivity.
Qed.

(** The frame built from 100, 101, 103, 102, 102, 105, 104 keeps the
    seven spreads and has the changes 0, 1, 2, -1, 0, 3, -1. *)
Lemma init_keeps_every_row_witness :
  exists env,
    init sample_prices 1 10000 (5 # 10000) 100000 = Ok env /\
    map price (df env) = sample_prices /\
    map spread_change (df env) = map of_Z [0; 1; 2; -1; 0; 3; -1]%Z /\
    max_steps env = 6%Z.
Proof.
  exists_returned (init sample_prices 1 10000 (5 # 10000) 100000).
  split; [vm_compute; reflexivity|].
  match goal with
  | |- map price (df ?e) = _ /\ _ =>
      pose proof (@init_keeps_every_row (of_Z 100)
                    (map of_Z [101; 103; 102; 102; 105; 104]%Z) 1 10000
                    (5 # 10000) 100000 e) as H
  end.
  specialize (H ltac:(unfold of_Z; cbn [map]; finite_column)).
  specialize (H ltac:(vm_compute; reflexivity)).
  by_evaluation H.
Defined.

(** With a window of 3 the indicator of the series of 7 rows has 7 values,
    and those of rows 0, 1 and 2 are 50. *)
Lemma calculate_rsi_warm_up_witness :
  exists col,
    calculate_rsi sample_prices 3 = Ok col /\
    length col = 7%nat /\
    nth_error col 0 = Some (Fin 50) /\
    nth_error col 2 = Some (Fin 50).
Proof.
  destruct (@calculate_rsi_warm_up sample_prices 3 ltac:(lia))
    as (col & E & L & W).
  exists col. split; [exact E|]. split; [rewrite L; reflexivity|].
  split; apply W; solve [lia | apply Nat.ltb_lt; reflexivity].
Defined.

(** On 100, 101, 102, 104 with a window of 2 the indicator of row 3 is
    100. *)
Lemma rsi_is_100_on_rising_series_witness :
  exists col x,
    calculate_rsi (map Fin [100; 101; 102; 104]) 2 = Ok col /\
    nth_error col 3 = Some x /\
    xequiv x (Fin 100).
Proof.
  destruct (@rsi_is_100_on_rising_series 100 [101; 102; 104] 2
              ltac:(split; apply Z.leb_le; reflexivity)
              ltac:(moderate_column)
              ltac:(repeat split; apply Qle_bool_iff; vm_compute;
                    reflexivity))
    as (col & E & H).
  exists col.
  pose proof E as E'. vm_compute in E'. injection E' as E1. subst col.
  match goal with
  | |- exists x, _ /\ nth_error ?c 3 = _ /\ _ =>
      let v := eval vm_compute in (nth_error c 3) in
      match v with
      | Some ?x => exists x
      end
  end.
  split; [vm_compute; reflexivity|].
  split; [vm_compute; reflexivity|].
  apply (H 3%nat); [lia | vm_compute; reflexivity].
Defined.

(** On 100, 99, 97, 96 with a window of 2 the indicator of row 3 is 0. *)
Lemma rsi_is_0_on_falling_series_witness :
  exists col x,
    calculate_rsi (map Fin [100; 99; 97; 96]) 2 = Ok col /\
    nth_error col 3 = Some x /\
    xequiv x (Fin 0).
Proof.
  destruct (@rsi_is_0_on_falling_series 100 [99; 97; 96] 2
              ltac:(split; apply Z.leb_le; reflexivity)
              ltac:(moderate_column)
              ltac:(repeat split; apply Qle_bool_iff; vm_compute;
                    reflexivity))
    as (col & E & H).
  exists col.
  pose proof E as E'. vm_compute in E'. injection E' as E1. subst col.
  match goal with
  | |- exists x, _ /\ nth_error ?c 3 = _ /\ _ =>
      let v := eval vm_compute in (nth_error c 3) in
      match v with
      | Some ?x => exists x
      end
  end.
  split; [vm_compute; reflexivity|].
  split; [vm_compute; reflexivity|].
  apply (H 3%nat); [lia | vm_compute; reflexivity].
Defined.

(** A policy that always buys, evaluated on the falling series from row 2:
    the loop ends by [done] within the four rows that are left.  A policy
    that always holds, evaluated on the rising and falling series: the
    loop ends by IndexError with the index at 7. *)
Lemma evaluation_ends_by_done_or_index_error_witness :
  (exists env0 obs info env1 g1,
     init falling_prices 1 10000 (5 # 10000) 100000 = Ok env0 /\
     reset counter_randint None 0%Z env0 = ((Ok (obs, info), env1), g1) /\
     let out := evaluation_loop (fun _ => 1%Z) 10 obs (Fin 0) 0 env1 in
     exists total n,
       fst out = Ok (Some (total, n)) /\
       (1 <= n <= max_steps env1 - current_step env1)%Z /\
       current_step (snd out) = (current_step env1 + n)%Z /\
       (xlt (balance (snd out)) (Fin 0) = true \/
        xlt (balance (snd out)) (Fin (initial_balance env1 * (1 # 2)))
          = true)) /\
  (exists env0 obs info env1 g1,
     init sample_prices 1 10000 (5 # 10000) 100000 = Ok env0 /\
     reset counter_randint None 0%Z env0 = ((Ok (obs, info), env1), g1) /\
     let out := evaluation_loop (fun _ => 0%Z) 10 obs (Fin 0) 0 env1 in
     fst out = Raise IndexError /\
     current_step (snd out) = (max_steps env1 + 1)%Z).
Proof.
  split.
  - exists_returned (init falling_prices 1 10000 (5 # 10000) 100000).
    match goal with
    | |- exists obs info env1 g1, _ /\ reset _ _ _ ?e0 = _ /\ _ =>
        let r := eval vm_compute in (reset counter_randint None 0%Z e0) in
        match r with
        | ((Ok (?o, ?i), ?e1), ?g1) =>
            exists o, i, e1, g1;
            pose proof (@evaluation_ends_by_done_or_index_error
                          (fun _ => 1%Z) 10%nat e1 o) as H
        end
    end.
    split; [vm_compute; reflexivity|].
    split; [vm_compute; reflexivity|].
    specialize (H ltac:(split; [reflexivity | cbn; lia])).
    specialize (H ltac:(cbn; lia)).
    specialize (H ltac:(cbn; lia)).
    vm_compute in H |- *.
    destruct H as [[X _] | H]; [discriminate X | exact H].
  - exists_returned (init sample_prices 1 10000 (5 # 10000) 100000).
    match goal with
    | |- exists obs info env1 g1, _ /\ reset _ _ _ ?e0 = _ /\ _ =>
        let r := eval vm_compute in (reset counter_randint None 0%Z e0) in
        match r with
        | ((Ok (?o, ?i), ?e1), ?g1) =>
            exists o, i, e1, g1;
            pose proof (@evaluation_ends_by_done_or_index_error
                          (fun _ => 0%Z) 10%nat e1 o) as H
        end
    end.
    split; [vm_compute; reflexivity|].
    split; [vm_compute; reflexivity|].
    specialize (H ltac:(split; [reflexivity | cbn; lia])).
    specialize (H ltac:(cbn; lia)).
    specialize (H ltac:(cbn; lia)).
    vm_compute in H |- *.
    destruct H as [H | (t & n & X & _)]; [exact H | discriminate X].
Defined.

(** The hedged day: the scaled CS01 0.3 is capped at 0.1, the hedge earns
    0.1 times the move of 3, and the total P&L is at least the 5 of the
    unhedged day. *)
Lemma simulate_hedging_never_loses_witness :
  exists out,
    simulate_hedging [quiet_day; hedged_day] (1 # 2) 1 (1 # 10)
      = [simulate_hedging_row (1 # 2) 1 (1 # 10) quiet_day; out] /\
    hedge_signal out = 1%Z /\
    exists size gain total,
      hedge_size out = Fin size /\ 0 <= size <= 1 # 10 /\
      hedge_pnl out = Fin gain /\ 0 <= gain /\
      total_pnl out = Fin total /\ 5 <= total.
Proof.
  exists (simulate_hedging_row (1 # 2) 1 (1 # 10) hedged_day).
  split; [reflexivity|]. split; [reflexivity|].
  apply (@simulate_hedging_never_loses [quiet_day; hedged_day]
           (1 # 2) 1 (1 # 10) _ 3 (-3) 5).
  - right. left. reflexivity.
  - reflexivity.
  - reflexivity.
  - reflexivity.
  - lra.
Defined.

(** The quiet day, whose forecast is below the CDS level, is not hedged:
    its total P&L is the unhedged 5. *)
Lemma simulate_hedging_without_signal_witness :
  exists out,
    simulate_hedging [quiet_day; hedged_day] (1 # 2) 1 (1 # 10)
      = [out; simulate_hedging_row (1 # 2) 1 (1 # 10) hedged_day] /\
    hedge_signal out = 0%Z /\ xequiv (total_pnl out) (Fin 5).
Proof.
  exists (simulate_hedging_row (1 # 2) 1 (1 # 10) quiet_day).
  split; [reflexivity|].
  apply (@simulate_hedging_without_signal [quiet_day; hedged_day]
           (1 # 2) 1 (1 # 10) _ 3 (-3) 5).
  - left. reflexivity.
  - reflexivity.
  - reflexivity.
  - reflexivity.
  - lra.
  - right. right. reflexivity.
Defined.

(** The observation after [reset] and a buy on the rising and falling
    series: spread 102 within 90 and 115.5, indicator within 0 and 100,
    change -1 within -1 and 3. *)
Lemma observation_within_space_bounds_witness :
  exists env0,
    init sample_prices 1 10000 (5 # 10000) 100000 = Ok env0 /\
    let s := snd (step 1 (snd (fst (reset counter_randint None 0%Z env0)))) in
    exists o,
      fst (_get_obs s) = Ok o /\
      let low := fst (observation_space s) in
      let high := snd (observation_space s) in
      xle (obs_price low) (obs_price o) = true /\
      xle (obs_price o) (obs_price high) = true /\
      xle (obs_rsi low) (obs_rsi o) = true /\
      xle (obs_rsi o) (obs_rsi high) = true /\
      xle (obs_spread_change low) (obs_spread_change o) = true /\
      xle (obs_spread_change o) (obs_spread_change high) = true.
Proof.
  exists_returned (init sample_prices 1 10000 (5 # 10000) 100000).
  split; [vm_compute; reflexivity|].
  cbv zeta.
  match goal with
  | |- exists o, fst (_get_obs ?s) = _ /\ _ =>
      match s with
      | context [reset _ _ _ ?e0] =>
          let r := eval vm_compute in (fst (_get_obs s)) in
          match r with
          | Ok ?o =>
              exists o; split; [vm_compute; reflexivity|];
              apply (@observation_within_space_bounds sample_prices 1 10000
                       (5 # 10000) 100000 e0 s o)
          end
      end
  end.
  - unfold sample_prices, of_Z. cbn [map].
    repeat (apply Forall_cons;
            [eexists; split; [reflexivity | unfold Qle; cbn; lia]|]).
    apply Forall_nil.
  - vm_compute. reflexivity.
  - apply (reach_step 1). apply (reach_reset counter_randint None 0%Z).
    apply reach_here.
  - vm_compute. reflexivity.
Defined.
